(** * A simulated hierarchical file system (filesystem.py)

    Shallow embedding of the engine in [filesystem.py]: the node model
    ([FileNode]), the virtual disk ([VirtualDisk]) and the tree store
    ([FileSystem]) with its CRUD operations, path resolution, the
    persistence codec, directory listing, statistics and search.

    Python objects live in a store: a [FileNode] reference is an address
    into [heap], so that the [parent] back-references and the aliasing of
    the current directory with a node of the tree are modelled as the code
    has them.  An operation that would raise an uncaught exception yields
    [None]. *)

From Stdlib Require Import ZArith Ascii Bool Lia.
From Stdlib Require Import DecimalString DecimalNat.
From stdpp Require Import base option list sorting strings.

Local Open Scope Z_scope.
Local Open Scope stdpp_scope.

(** ** Python strings

    A [str] is a sequence of code points; the model covers the code points
    U+0000..U+00FF, one per [ascii]. *)
Module PyStr.

Definition ord (c : ascii) : nat := nat_of_ascii c.

(** [str.isspace] on one code point below U+0100. *)
Definition isspace (c : ascii) : bool :=
  let n := ord c in
  ((9 <=? n) && (n <=? 13) || (28 <=? n) && (n <=? 32)
   || (n =? 133) || (n =? 160))%nat.

Fixpoint lstrip (s : string) : string :=
  match s with
  | EmptyString => EmptyString
  | String c r => if isspace c then lstrip r else s
  end.

Fixpoint rstrip (s : string) : string :=
  match s with
  | EmptyString => EmptyString
  | String c r =>
      match rstrip r with
      | EmptyString => if isspace c then EmptyString else String c EmptyString
      | r' => String c r'
      end
  end.

(** [s.strip()] *)
Definition strip (s : string) : string := rstrip (lstrip s).

(** [c in s] for a one-character [c]. *)
Fixpoint contains (c : ascii) (s : string) : bool :=
  match s with
  | EmptyString => false
  | String d r => Ascii.eqb c d || contains c r
  end.

(** [str.upper] on one code point.  The letters a..z are mapped to A..Z.
    Over U+0080..U+00FF Python yields a code point that is not ASCII, or
    the two letters SS: neither occurs in a reserved name, which is all
    [upper] is used for, so those code points are left as they are. *)
Definition upper_char (c : ascii) : ascii :=
  let n := ord c in
  if ((97 <=? n) && (n <=? 122))%nat then ascii_of_nat (n - 32) else c.

Fixpoint upper (s : string) : string :=
  match s with
  | EmptyString => EmptyString
  | String c r => String (upper_char c) (upper r)
  end.

(** [s.endswith(suffix)] *)
Fixpoint endswith (s suffix : string) : bool :=
  String.eqb s suffix
  || match s with
     | EmptyString => false
     | String _ r => endswith r suffix
     end.

(** [s.startswith(prefix)] *)
Definition startswith (s prefix : string) : bool := String.prefix prefix s.

(** [s.split(sep)] for a one-character separator. *)
Fixpoint split (sep : ascii) (s : string) : list string :=
  match s with
  | EmptyString => [EmptyString]
  | String c r =>
      if Ascii.eqb c sep then EmptyString :: split sep r
      else match split sep r with
           | [] => [String c EmptyString]
           | w :: ws => String c w :: ws
           end
  end.

(** [len(s)] *)
Definition len (s : string) : Z := Z.of_nat (String.length s).

(** [len(s.encode('utf-8'))]: one byte below U+0080, two bytes from
    U+0080 to U+00FF. *)
Fixpoint utf8_len (s : string) : Z :=
  match s with
  | EmptyString => 0
  | String c r => (if (ord c <? 128)%nat then 1 else 2) + utf8_len r
  end.

(** Truth value of a string: [bool(s)]. *)
Definition nonempty (s : string) : bool :=
  match s with EmptyString => false | _ => true end.


(** [str.lower] on one code point below U+0100: the letters A..Z and the
    Latin-1 capitals U+00C0..U+00DE, the sign U+00D7 apart, move up by
    32. *)
Definition lower_char (c : ascii) : ascii :=
  let n := ord c in
  if ((65 <=? n) && (n <=? 90)
      || (192 <=? n) && (n <=? 222) && negb (n =? 215))%nat
  then ascii_of_nat (n + 32) else c.

Fixpoint lower (s : string) : string :=
  match s with
  | EmptyString => EmptyString
  | String c r => String (lower_char c) (lower r)
  end.

(** [p in s] for strings. *)
Fixpoint contains_str (p s : string) : bool :=
  String.prefix p s
  || match s with
     | EmptyString => false
     | String _ r => contains_str p r
     end.

End PyStr.

(** ** JSON values and Python dictionaries

    The JSON values are those the engine writes: integers, strings and
    objects.  A [dict] keeps its keys unique and in insertion order. *)
Unset Elimination Schemes.
Inductive json : Type :=
| JInt (z : Z)
| JStr (s : string)
| JObj (o : list (string * json)).
Set Elimination Schemes.

Section Dict.
Context {V : Type}.

Fixpoint dict_get (k : string) (d : list (string * V)) : option V :=
  match d with
  | [] => None
  | (k', v) :: r => if String.eqb k k' then Some v else dict_get k r
  end.

(** [k in d] *)
Definition dict_mem (k : string) (d : list (string * V)) : bool :=
  match dict_get k d with Some _ => true | None => false end.

(** [d[k] = v] *)
Fixpoint dict_set (k : string) (v : V) (d : list (string * V))
  : list (string * V) :=
  match d with
  | [] => [(k, v)]
  | (k', v') :: r =>
      if String.eqb k k' then (k, v) :: r else (k', v') :: dict_set k v r
  end.

(** [del d[k]] *)
Fixpoint dict_del (k : string) (d : list (string * V)) : list (string * V) :=
  match d with
  | [] => []
  | (k', v') :: r => if String.eqb k k' then r else (k', v') :: dict_del k r
  end.

(** [d.get(k, default)] *)
Definition dict_get_default (k : string) (default : V)
    (d : list (string * V)) : V :=
  match dict_get k d with Some v => v | None => default end.

Definition keys (d : list (string * V)) : list string := map fst d.
End Dict.

(** Truth value of a JSON value as Python computes [not data]. *)
Definition truthy (j : json) : bool :=
  match j with
  | JInt z => negb (z =? 0)
  | JStr s => PyStr.nonempty s
  | JObj o => match o with [] => false | _ => true end
  end.

Definition as_int (j : json) : option Z :=
  match j with JInt z => Some z | _ => None end.
Definition as_str (j : json) : option string :=
  match j with JStr s => Some s | _ => None end.
Definition as_dict (j : json) : option (list (string * json)) :=
  match j with JObj o => Some o | _ => None end.

(** [j == "directory"] *)
Definition json_eq_str (j : json) (s : string) : bool :=
  match j with JStr t => String.eqb t s | _ => false end.

(** Content of the host file that holds the virtual disk. *)
Inductive HostFile : Type :=
| Absent
| Corrupt
| Stored (data : json).

(** The operation counters of [FileSystem.stats]. *)
Record Stats : Type := mkStats {
  files_created : Z;
  files_deleted : Z;
  directories_created : Z;
  directories_deleted : Z;
  total_operations : Z }.

Definition stats0 : Stats := mkStats 0 0 0 0 0.

(** Nesting depth of a JSON value. *)
Fixpoint json_depth (j : json) : nat :=
  match j with
  | JObj o => S (list_max (map (fun kv => json_depth (snd kv)) o))
  | _ => 1%nat
  end.

(** ** The engine

    [datetime] and its ISO-8601 codec belong to the Python library; the
    engine is parametric in them.  [clock k] is the value returned by the
    [k]-th call of [datetime.now()]. *)
Class DateTime : Type := {
  datetime : Type;
  isoformat : datetime -> string;
  fromisoformat : string -> option datetime;
  clock : nat -> datetime }.

Section Engine.

Context `{DT : DateTime}.

(** *** class FileNode *)
Record FileNode : Type := mkFileNode {
  name : string;
  is_directory : bool;
  parent : option nat;
  children : list (string * nat);
  content : string;
  size : Z;
  created_at : datetime;
  modified_at : datetime;
  permissions : string;
  access_count : Z }.

Definition set_children (c : list (string * nat)) (n : FileNode) : FileNode :=
  mkFileNode (name n) (is_directory n) (parent n) c (content n) (size n)
    (created_at n) (modified_at n) (permissions n) (access_count n).
Definition set_content (c : string) (n : FileNode) : FileNode :=
  mkFileNode (name n) (is_directory n) (parent n) (children n) c (size n)
    (created_at n) (modified_at n) (permissions n) (access_count n).
Definition set_size (z : Z) (n : FileNode) : FileNode :=
  mkFileNode (name n) (is_directory n) (parent n) (children n) (content n) z
    (created_at n) (modified_at n) (permissions n) (access_count n).
Definition set_created_at (t : datetime) (n : FileNode) : FileNode :=
  mkFileNode (name n) (is_directory n) (parent n) (children n) (content n)
    (size n) t (modified_at n) (permissions n) (access_count n).
Definition set_modified_at (t : datetime) (n : FileNode) : FileNode :=
  mkFileNode (name n) (is_directory n) (parent n) (children n) (content n)
    (size n) (created_at n) t (permissions n) (access_count n).
Definition set_permissions (p : string) (n : FileNode) : FileNode :=
  mkFileNode (name n) (is_directory n) (parent n) (children n) (content n)
    (size n) (created_at n) (modified_at n) p (access_count n).
Definition set_access_count (z : Z) (n : FileNode) : FileNode :=
  mkFileNode (name n) (is_directory n) (parent n) (children n) (content n)
    (size n) (created_at n) (modified_at n) (permissions n) z.

(** *** The state of one engine: the object store, the clock, the host
    file, and the fields of [VirtualDisk] and [FileSystem]. *)
Record FileSystem : Type := mkFileSystem {
  heap : list FileNode;
  ticks : nat;
  host_file : HostFile;
  fat_table : json;
  metadata : json;
  root : nat;
  current_directory : nat;
  stats : Stats }.

Definition set_heap (h : list FileNode) (fs : FileSystem) : FileSystem :=
  mkFileSystem h (ticks fs) (host_file fs) (fat_table fs) (metadata fs)
    (root fs) (current_directory fs) (stats fs).
Definition set_ticks (t : nat) (fs : FileSystem) : FileSystem :=
  mkFileSystem (heap fs) t (host_file fs) (fat_table fs) (metadata fs)
    (root fs) (current_directory fs) (stats fs).
Definition set_host_file (f : HostFile) (fs : FileSystem) : FileSystem :=
  mkFileSystem (heap fs) (ticks fs) f (fat_table fs) (metadata fs)
    (root fs) (current_directory fs) (stats fs).
Definition set_fat_table (j : json) (fs : FileSystem) : FileSystem :=
  mkFileSystem (heap fs) (ticks fs) (host_file fs) j (metadata fs)
    (root fs) (current_directory fs) (stats fs).
Definition set_metadata (j : json) (fs : FileSystem) : FileSystem :=
  mkFileSystem (heap fs) (ticks fs) (host_file fs) (fat_table fs) j
    (root fs) (current_directory fs) (stats fs).
Definition set_root (r : nat) (fs : FileSystem) : FileSystem :=
  mkFileSystem (heap fs) (ticks fs) (host_file fs) (fat_table fs) (metadata fs)
    r (current_directory fs) (stats fs).
Definition set_current_directory (c : nat) (fs : FileSystem) : FileSystem :=
  mkFileSystem (heap fs) (ticks fs) (host_file fs) (fat_table fs) (metadata fs)
    (root fs) c (stats fs).
Definition set_stats (s : Stats) (fs : FileSystem) : FileSystem :=
  mkFileSystem (heap fs) (ticks fs) (host_file fs) (fat_table fs) (metadata fs)
    (root fs) (current_directory fs) s.

(** *** Computations on the engine state; [None] is an uncaught exception. *)
Definition M (A : Type) : Type := FileSystem -> option (A * FileSystem).

Definition ret {A} (x : A) : M A := fun fs => Some (x, fs).
Definition bind {A B} (m : M A) (k : A -> M B) : M B :=
  fun fs => match m fs with
            | Some (x, fs') => k x fs'
            | None => None
            end.
Definition raise {A} : M A := fun _ => None.
Definition lift {A} (o : option A) : M A :=
  fun fs => match o with Some x => Some (x, fs) | None => None end.
Definition gets {A} (f : FileSystem -> A) : M A := fun fs => Some (f fs, fs).
Definition modify (f : FileSystem -> FileSystem) : M unit :=
  fun fs => Some (tt, f fs).

Notation "x <- m ;; k" := (bind m (fun x => k))
  (at level 100, m at next level, right associativity).
Notation "m ;;; k" := (bind m (fun _ => k))
  (at level 100, right associativity).

(** [datetime.now()] *)
Definition now : M datetime :=
  fun fs => Some (clock (ticks fs), set_ticks (S (ticks fs)) fs).

(** Dereference of a node reference. *)
Definition node (a : nat) : M FileNode := fun fs =>
  match heap fs !! a with Some n => Some (n, fs) | None => None end.

(** In-place update of the object behind a reference. *)
Definition update_node (a : nat) (f : FileNode -> FileNode) : M unit := fun fs =>
  match heap fs !! a with
  | Some n => Some (tt, set_heap (<[a := f n]> (heap fs)) fs)
  | None => None
  end.

(** [FileNode.__init__]: a new object, at the next free address. *)
Definition FileNode_init (nm : string) (is_dir : bool) (par : option nat)
  : M nat :=
  t1 <- now ;;
  t2 <- now ;;
  fun fs =>
    Some (length (heap fs),
          set_heap (heap fs ++
            [mkFileNode nm is_dir par [] EmptyString 0 t1 t2
               (if is_dir then "rwx" else "rw-") 0]) fs).

(** [FileNode.update_access_time] *)
Definition update_access_time (a : nat) : M unit :=
  update_node a (fun n => set_access_count (access_count n + 1) n).

(** [FileNode.get_full_path]; [fuel] bounds the recursion depth. *)
Fixpoint get_full_path (h : list FileNode) (fuel : nat) (a : nat)
  : option string :=
  match fuel with
  | O => None
  | S fuel' =>
      match h !! a with
      | None => None
      | Some n =>
          match parent n with
          | None => Some "/"
          | Some p =>
              match h !! p with
              | None => None
              | Some pn =>
                  match parent pn with
                  | None => Some ("/" +:+ name n)
                  | Some _ =>
                      match get_full_path h fuel' p with
                      | Some s => Some (s +:+ "/" +:+ name n)
                      | None => None
                      end
                  end
              end
          end
      end
  end.

(** The loop [for child in self.children.values(): total += f(child)]. *)
Fixpoint sum_children (f : nat -> option Z) (cs : list (string * nat))
    (total : Z) : option Z :=
  match cs with
  | [] => Some total
  | (_, c) :: r =>
      match f c with
      | Some z => sum_children f r (total + z)
      | None => None
      end
  end.

(** [FileNode.get_size_recursive] *)
Fixpoint get_size_recursive (h : list FileNode) (fuel : nat) (a : nat)
  : option Z :=
  match fuel with
  | O => None
  | S fuel' =>
      match h !! a with
      | None => None
      | Some n =>
          if negb (is_directory n) then Some (size n)
          else sum_children (get_size_recursive h fuel') (children n) 0
      end
  end.

(** Recursion depth that no walk of a well-formed store exceeds. *)
Definition depth_bound (h : list FileNode) : nat := S (length h).

(** *** class VirtualDisk *)

(** [VirtualDisk.__init__] *)
Definition VirtualDisk_init : M unit :=
  modify (set_fat_table (JObj [])) ;;;
  t1 <- now ;;
  t2 <- now ;;
  modify (set_metadata (JObj
    [("created_at", JStr (isoformat t1));
     ("last_modified", JStr (isoformat t2));
     ("total_blocks", JInt 1000);
     ("block_size", JInt 512);
     ("used_blocks", JInt 0)])).

(** [VirtualDisk._create_empty_fat] *)
Definition create_empty_fat : M json :=
  t1 <- now ;;
  t2 <- now ;;
  ret (JObj
    [("/", JObj
       [("name", JStr "/");
        ("type", JStr "directory");
        ("size", JInt 0);
        ("created_at", JStr (isoformat t1));
        ("modified_at", JStr (isoformat t2));
        ("permissions", JStr "rwx");
        ("access_count", JInt 0);
        ("children", JObj []);
        ("content", JStr EmptyString)])]).

(** [VirtualDisk.save_disk]; the write to the host file succeeds, and
    [json.dump] followed by [json.load] gives back the value written. *)
Definition save_disk : M bool :=
  t <- now ;;
  md <- gets metadata ;;
  mdd <- lift (as_dict md) ;;
  modify (set_metadata (JObj (dict_set "last_modified" (JStr (isoformat t)) mdd))) ;;;
  modify (fun fs =>
    set_host_file
      (Stored (JObj [("fat_table", fat_table fs); ("metadata", metadata fs)]))
      fs) ;;;
  ret true.

(** [VirtualDisk.load_disk] *)
Definition load_disk : M bool :=
  hf <- gets host_file ;;
  match hf with
  | Stored data =>
      d <- lift (as_dict data) ;;
      modify (set_fat_table (dict_get_default "fat_table" (JObj []) d)) ;;;
      md <- gets metadata ;;
      modify (set_metadata (dict_get_default "metadata" md d)) ;;;
      ret true
  | Absent =>
      fat <- create_empty_fat ;;
      modify (set_fat_table fat) ;;;
      save_disk ;;;
      ret false
  | Corrupt =>
      fat <- create_empty_fat ;;
      modify (set_fat_table fat) ;;;
      ret false
  end.

(** *** class FileSystem: the persistence codec *)

(** The loop [for x in xs: body(x)]. *)
Fixpoint for_each {A : Type} (xs : list A) (body : A -> M unit) : M unit :=
  match xs with
  | [] => ret tt
  | x :: r => body x ;;; for_each r body
  end.

(** The [except ValueError] branch of [_populate_node]. *)
Definition populate_dates_now (nd : nat) : M unit :=
  t1 <- now ;;
  update_node nd (set_created_at t1) ;;;
  t2 <- now ;;
  update_node nd (set_modified_at t2).

(** The body of the loop over [data["children"].items()] in
    [_populate_node]; [populate] is the recursive call. *)
Definition populate_child (populate : nat -> json -> M unit) (nd : nat)
    (item : string * json) : M unit :=
  let child_name := fst item in
  let child_data := snd item in
  cd <- lift (as_dict child_data) ;;
  let is_dir :=
    json_eq_str (dict_get_default "type" (JStr "file") cd) "directory" in
  child_node <- FileNode_init child_name is_dir (Some nd) ;;
  update_node nd (fun p =>
    set_children (dict_set child_name child_node (children p)) p) ;;;
  populate child_node child_data.

(** [FileSystem._populate_node]; [fuel] bounds the recursion depth.  The
    fields of a [FileNode] are typed: data that holds a value of another
    JSON kind for one of them, which Python would store as it is, ends the
    computation. *)
Fixpoint populate_node (fuel : nat) (nd : nat) (data : json) : M unit :=
  match fuel with
  | O => raise
  | S fuel' =>
      if negb (truthy data) then ret tt else
      d <- lift (as_dict data) ;;
      sz <- lift (as_int (dict_get_default "size" (JInt 0) d)) ;;
      update_node nd (set_size sz) ;;;
      ct <- lift (as_str (dict_get_default "content" (JStr EmptyString) d)) ;;
      update_node nd (set_content ct) ;;;
      pm <- lift (as_str (dict_get_default "permissions" (JStr "rw-") d)) ;;
      update_node nd (set_permissions pm) ;;;
      ac <- lift (as_int (dict_get_default "access_count" (JInt 0) d)) ;;
      update_node nd (set_access_count ac) ;;;
      (t1 <- now ;;
       cs <- lift (as_str
               (dict_get_default "created_at" (JStr (isoformat t1)) d)) ;;
       match fromisoformat cs with
       | None => populate_dates_now nd
       | Some c =>
           update_node nd (set_created_at c) ;;;
           t2 <- now ;;
           ms <- lift (as_str
                   (dict_get_default "modified_at" (JStr (isoformat t2)) d)) ;;
           match fromisoformat ms with
           | None => populate_dates_now nd
           | Some m => update_node nd (set_modified_at m)
           end
       end) ;;;
      n <- node nd ;;
      if is_directory n && dict_mem "children" d then
        items <- lift (match dict_get "children" d with
                       | Some c => as_dict c
                       | None => None
                       end) ;;
        for_each items (populate_child (populate_node fuel') nd)
      else ret tt
  end.

(** [FileSystem._build_tree_from_fat] *)
Definition build_tree_from_fat : M nat :=
  fat <- gets fat_table ;;
  d <- lift (as_dict fat) ;;
  let root_data := dict_get_default "/" (JObj []) d in
  r <- FileNode_init "/" true None ;;
  populate_node (json_depth root_data) r root_data ;;;
  ret r.

(** The loop of [_node_to_dict] that fills [result["children"]]. *)
Fixpoint children_to_dict (f : nat -> option json) (cs : list (string * nat))
    (acc : list (string * json)) : option (list (string * json)) :=
  match cs with
  | [] => Some acc
  | (child_name, child_node) :: r =>
      match f child_node with
      | Some j => children_to_dict f r (dict_set child_name j acc)
      | None => None
      end
  end.

(** The dictionary [result] of [_node_to_dict], with [cs] for
    [result["children"]]. *)
Definition node_dict (n : FileNode) (cs : list (string * json)) : json :=
  JObj
    [("name", JStr (name n));
     ("type", JStr (if is_directory n then "directory" else "file"));
     ("size", JInt (size n));
     ("created_at", JStr (isoformat (created_at n)));
     ("modified_at", JStr (isoformat (modified_at n)));
     ("permissions", JStr (permissions n));
     ("access_count", JInt (access_count n));
     ("content", JStr (content n));
     ("children", JObj cs)].

(** [FileSystem._node_to_dict]; [fuel] bounds the recursion depth. *)
Fixpoint node_to_dict (h : list FileNode) (fuel : nat) (a : nat)
  : option json :=
  match fuel with
  | O => None
  | S fuel' =>
      match h !! a with
      | None => None
      | Some n =>
          match (if is_directory n
                 then children_to_dict (node_to_dict h fuel') (children n) []
                 else Some []) with
          | None => None
          | Some cs => Some (node_dict n cs)
          end
      end
  end.

(** [FileSystem._update_fat_from_tree] *)
Definition update_fat_from_tree : M unit :=
  h <- gets heap ;;
  r <- gets root ;;
  j <- lift (node_to_dict h (depth_bound h) r) ;;
  modify (set_fat_table (JObj [("/", j)])).

(** [FileSystem._save_changes] *)
Definition save_changes : M unit :=
  update_fat_from_tree ;;;
  save_disk ;;;
  modify (fun fs =>
    let s := stats fs in
    set_stats (mkStats (files_created s) (files_deleted s)
                 (directories_created s) (directories_deleted s)
                 (total_operations s + 1)) fs).

(** [FileSystem.__init__], run in a new process whose host file holds
    [hf] and whose clock has ticked [t0] times. *)
Definition blank (hf : HostFile) (t0 : nat) : FileSystem :=
  mkFileSystem [] t0 hf (JObj []) (JObj []) 0%nat 0%nat stats0.

Definition FileSystem_init (hf : HostFile) (t0 : nat) : option FileSystem :=
  match
    (VirtualDisk_init ;;;
     load_disk ;;;
     r <- build_tree_from_fat ;;
     modify (set_root r) ;;;
     modify (set_current_directory r) ;;;
     modify (set_stats stats0)) (blank hf t0)
  with
  | Some (_, fs) => Some fs
  | None => None
  end.

(** *** class FileSystem: navigation and validation *)

(** The loop over [parts] of [_get_node_by_path]; the result [None] inside
    the computation is Python's [None]. *)
Fixpoint walk (parts : list string) (current : nat) : M (option nat) :=
  match parts with
  | [] => ret (Some current)
  | part :: rest =>
      cur <- node current ;;
      if String.eqb part ".." then
        match parent cur with
        | Some p => walk rest p
        | None => walk rest current
        end
      else if String.eqb part "." then walk rest current
      else if is_directory cur && dict_mem part (children cur) then
        c <- lift (dict_get part (children cur)) ;;
        walk rest c
      else ret None
  end.

(** [[p for p in path.split("/") if p]] *)
Definition path_parts (path : string) : list string :=
  List.filter PyStr.nonempty (PyStr.split "/" path).

(** [FileSystem._get_node_by_path] *)
Definition get_node_by_path (path : string) : M (option nat) :=
  if negb (PyStr.nonempty path) || String.eqb path "/" then
    r <- gets root ;; ret (Some r)
  else if PyStr.startswith path "/" then
    current <- gets root ;;
    walk (path_parts path) current
  else
    current <- gets current_directory ;;
    walk (path_parts path) current.

(** [FileSystem._get_current_node] *)
Definition get_current_node : M nat := gets current_directory.

Definition chr (n : nat) : string := String (ascii_of_nat n) EmptyString.
Definition quoted (s : string) : string := "'" +:+ s +:+ "'".

Definition invalid_chars : list ascii :=
  ["/"; "\"; ":"; "*"; "?"; ascii_of_nat 34; "<"; ">"; "|"; "000"]%char.

Definition reserved_names : list string :=
  ["."; ".."; "CON"; "PRN"; "AUX"; "NUL";
   "COM1"; "COM2"; "COM3"; "COM4"; "COM5"; "COM6"; "COM7"; "COM8"; "COM9";
   "LPT1"; "LPT2"; "LPT3"; "LPT4"; "LPT5"; "LPT6"; "LPT7"; "LPT8"; "LPT9"].

(** The loop [for char in invalid_chars: if char in filename: return]. *)
Fixpoint first_invalid_char (cs : list ascii) (filename : string)
  : option ascii :=
  match cs with
  | [] => None
  | c :: r =>
      if PyStr.contains c filename then Some c else first_invalid_char r filename
  end.

Definition msg_empty_name : string :=
  "El nombre no puede estar vac" +:+ chr 237 +:+ "o".
Definition msg_invalid_char (c : ascii) : string :=
  "El nombre contiene el car" +:+ chr 225 +:+ "cter no permitido: "
  +:+ quoted (String c EmptyString).
Definition msg_reserved (filename : string) : string :=
  quoted filename +:+ " es un nombre reservado del sistema".
Definition msg_too_long : string :=
  "El nombre es demasiado largo (m" +:+ chr 225 +:+ "ximo 255 caracteres)".
Definition msg_trailing : string :=
  "El nombre no puede terminar con punto o espacio".

(** [FileSystem._validate_filename] *)
Definition validate_filename (filename : string) : bool * string :=
  if negb (PyStr.nonempty filename)
     || String.eqb (PyStr.strip filename) EmptyString
  then (false, msg_empty_name)
  else
    let filename := PyStr.strip filename in
    match first_invalid_char invalid_chars filename with
    | Some c => (false, msg_invalid_char c)
    | None =>
        if existsb (String.eqb (PyStr.upper filename)) reserved_names
        then (false, msg_reserved filename)
        else if 255 <? PyStr.len filename then (false, msg_too_long)
        else if PyStr.endswith filename "." || PyStr.endswith filename " "
        then (false, msg_trailing)
        else (true, EmptyString)
    end.

Definition bump (f : Stats -> Stats) : M unit :=
  modify (fun fs => set_stats (f (stats fs)) fs).
Definition inc_files_created (s : Stats) : Stats :=
  mkStats (files_created s + 1) (files_deleted s) (directories_created s)
    (directories_deleted s) (total_operations s).
Definition inc_files_deleted (s : Stats) : Stats :=
  mkStats (files_created s) (files_deleted s + 1) (directories_created s)
    (directories_deleted s) (total_operations s).
Definition inc_directories_created (s : Stats) : Stats :=
  mkStats (files_created s) (files_deleted s) (directories_created s + 1)
    (directories_deleted s) (total_operations s).
Definition inc_directories_deleted (s : Stats) : Stats :=
  mkStats (files_created s) (files_deleted s) (directories_created s)
    (directories_deleted s + 1) (total_operations s).

Definition msg_invalid_current : string :=
  "Directorio actual inv" +:+ chr 225 +:+ "lido".

(** *** class FileSystem: files *)

(** [FileSystem.create_file] *)
Definition create_file (filename content : string) : M (bool * string) :=
  let (is_valid, error_msg) := validate_filename filename in
  if negb is_valid then ret (false, error_msg) else
  current <- get_current_node ;;
  cur <- node current ;;
  if negb (is_directory cur) then
    ret (false, "No se puede crear archivo: directorio actual inv"
                +:+ chr 225 +:+ "lido")
  else if dict_mem filename (children cur) then
    ret (false, "El archivo " +:+ quoted filename +:+ " ya existe")
  else
    new_file <- FileNode_init filename false (Some current) ;;
    update_node new_file (set_content content) ;;;
    update_node new_file (set_size (PyStr.utf8_len content)) ;;;
    t <- now ;;
    update_node new_file (set_modified_at t) ;;;
    update_node current (fun n =>
      set_children (dict_set filename new_file (children n)) n) ;;;
    bump inc_files_created ;;;
    save_changes ;;;
    ret (true, "Archivo " +:+ quoted filename +:+ " creado exitosamente").

(** [FileSystem.read_file] *)
Definition read_file (filename : string) : M (bool * string * option string) :=
  current <- get_current_node ;;
  cur <- node current ;;
  if negb (is_directory cur) then ret (false, msg_invalid_current, None)
  else if negb (dict_mem filename (children cur)) then
    ret (false, "El archivo " +:+ quoted filename +:+ " no existe", None)
  else
    file_node <- lift (dict_get filename (children cur)) ;;
    fnode <- node file_node ;;
    if is_directory fnode then
      ret (false, quoted filename +:+ " es un directorio, no un archivo", None)
    else
      update_access_time file_node ;;;
      save_changes ;;;
      fnode' <- node file_node ;;
      ret (true, "Archivo " +:+ quoted filename +:+ " le" +:+ chr 237
                 +:+ "do exitosamente", Some (content fnode')).

(** [FileSystem.update_file] *)
Definition update_file (filename content : string) : M (bool * string) :=
  current <- get_current_node ;;
  cur <- node current ;;
  if negb (is_directory cur) then ret (false, msg_invalid_current)
  else if negb (dict_mem filename (children cur)) then
    ret (false, "El archivo " +:+ quoted filename +:+ " no existe")
  else
    file_node <- lift (dict_get filename (children cur)) ;;
    fnode <- node file_node ;;
    if is_directory fnode then
      ret (false, quoted filename +:+ " es un directorio, no un archivo")
    else
      update_node file_node (set_content content) ;;;
      update_node file_node (set_size (PyStr.utf8_len content)) ;;;
      t <- now ;;
      update_node file_node (set_modified_at t) ;;;
      update_access_time file_node ;;;
      save_changes ;;;
      ret (true, "Archivo " +:+ quoted filename +:+ " actualizado exitosamente").

(** [FileSystem.delete_file] *)
Definition delete_file (filename : string) : M (bool * string) :=
  current <- get_current_node ;;
  cur <- node current ;;
  if negb (is_directory cur) then ret (false, msg_invalid_current)
  else if negb (dict_mem filename (children cur)) then
    ret (false, quoted filename +:+ " no existe")
  else
    node_to_delete <- lift (dict_get filename (children cur)) ;;
    del <- node node_to_delete ;;
    if is_directory del
       && match children del with [] => false | _ => true end
    then
      ret (false, "El directorio " +:+ quoted filename +:+ " no est"
                  +:+ chr 225 +:+ " vac" +:+ chr 237 +:+ "o")
    else
      (if is_directory del then bump inc_directories_deleted
       else bump inc_files_deleted) ;;;
      update_node current (fun n =>
        set_children (dict_del filename (children n)) n) ;;;
      save_changes ;;;
      ret (true, (if is_directory del then "Directorio" else "Archivo")
                 +:+ " " +:+ quoted filename +:+ " eliminado exitosamente").

(** *** class FileSystem: directories *)

(** [FileSystem.create_directory] *)
Definition create_directory (dirname : string) : M (bool * string) :=
  let (is_valid, error_msg) := validate_filename dirname in
  if negb is_valid then ret (false, error_msg) else
  current <- get_current_node ;;
  cur <- node current ;;
  if negb (is_directory cur) then
    ret (false, "No se puede crear directorio: directorio actual inv"
                +:+ chr 225 +:+ "lido")
  else if dict_mem dirname (children cur) then
    ret (false, "El directorio " +:+ quoted dirname +:+ " ya existe")
  else
    new_dir <- FileNode_init dirname true (Some current) ;;
    update_node current (fun n =>
      set_children (dict_set dirname new_dir (children n)) n) ;;;
    bump inc_directories_created ;;;
    save_changes ;;;
    ret (true, "Directorio " +:+ quoted dirname +:+ " creado exitosamente").

(** [FileSystem.change_directory] *)
Definition change_directory (path : string) : M (bool * string) :=
  target_node <- get_node_by_path path ;;
  match target_node with
  | None => ret (false, "El directorio " +:+ quoted path +:+ " no existe")
  | Some target =>
      tn <- node target ;;
      if negb (is_directory tn) then
        ret (false, quoted path +:+ " no es un directorio")
      else
        modify (set_current_directory target) ;;;
        update_access_time target ;;;
        save_changes ;;;
        h <- gets heap ;;
        full <- lift (get_full_path h (depth_bound h) target) ;;
        ret (true, "Directorio cambiado a " +:+ quoted full)
  end.

(** *** class FileSystem: information *)

(** [FileSystem.get_current_directory] *)
Definition get_current_directory : M string :=
  h <- gets heap ;;
  c <- gets current_directory ;;
  lift (get_full_path h (depth_bound h) c).

(** [FileSystem.file_exists]; the current directory is an object, hence
    true in [current and ...]. *)
Definition file_exists (filename : string) : M bool :=
  current <- get_current_node ;;
  cur <- node current ;;
  ret (dict_mem filename (children cur)).

(** The dictionary returned by [get_file_info]. *)
Record FileInfo : Type := mkFileInfo {
  info_name : string;
  info_type : string;
  info_full_path : string;
  info_size : Z;
  info_size_recursive : Z;
  info_created : datetime;
  info_modified : datetime;
  info_permissions : string;
  info_access_count : Z }.

(** [FileSystem.get_file_info] *)
Definition get_file_info (filename : string)
  : M (bool * string * option FileInfo) :=
  current <- get_current_node ;;
  cur <- node current ;;
  if negb (dict_mem filename (children cur)) then
    ret (false, quoted filename +:+ " no existe", None)
  else
    a <- lift (dict_get filename (children cur)) ;;
    n <- node a ;;
    h <- gets heap ;;
    full <- lift (get_full_path h (depth_bound h) a) ;;
    rec <- lift (get_size_recursive h (depth_bound h) a) ;;
    ret (true, "Informaci" +:+ chr 243 +:+ "n de " +:+ quoted filename
               +:+ " obtenida",
         Some (mkFileInfo (name n)
                 (if is_directory n then "directory" else "file")
                 full (size n) rec (created_at n) (modified_at n)
                 (permissions n) (access_count n))).

(** [FileSystem.copy_file] *)
Definition copy_file (source destination : string) : M (bool * string) :=
  r <- read_file source ;;
  match r with
  | (false, msg, _) | (true, msg, None) =>
      ret (false, "Error leyendo archivo origen: " +:+ msg)
  | (true, _, Some content) =>
      c <- create_file destination content ;;
      match c with
      | (false, msg) =>
          ret (false, "Error creando archivo destino: " +:+ msg)
      | (true, _) =>
          ret (true, "Archivo copiado de " +:+ quoted source +:+ " a "
                     +:+ quoted destination)
      end
  end.

(** *** Engine states reachable through the public operations

    The operations that change the engine.  [list_directory],
    [get_file_info], [file_exists], [get_current_directory],
    [get_system_stats] and [search_files] only read it. *)

Inductive operation : Type :=
| CreateFile (filename content : string)
| ReadFile (filename : string)
| UpdateFile (filename content : string)
| DeleteFile (filename : string)
| CreateDirectory (dirname : string)
| ChangeDirectory (path : string)
| CopyFile (source destination : string).

Definition ignore {A : Type} (m : M A) : M unit := m ;;; ret tt.

Definition run_operation (o : operation) : M unit :=
  match o with
  | CreateFile f c => ignore (create_file f c)
  | ReadFile f => ignore (read_file f)
  | UpdateFile f c => ignore (update_file f c)
  | DeleteFile f => ignore (delete_file f)
  | CreateDirectory d => ignore (create_directory d)
  | ChangeDirectory p => ignore (change_directory p)
  | CopyFile s d => ignore (copy_file s d)
  end.

(** A fresh engine is one built when the host file holds no snapshot. *)
Inductive reachable : FileSystem -> Prop :=
| reachable_fresh t0 fs :
    FileSystem_init Absent t0 = Some fs -> reachable fs
| reachable_step o fs fs' :
    reachable fs -> run_operation o fs = Some (tt, fs') -> reachable fs'.

(** *** Well-formed stores *)

(** A name that path resolution reads as one segment naming a child. *)
Definition segment_name (k : string) : bool :=
  PyStr.nonempty k && negb (PyStr.contains "/" k)
  && negb (String.eqb k ".") && negb (String.eqb k "..").

Definition children_ok (h : list FileNode) (a : nat) (n : FileNode) : Prop :=
  (is_directory n = false -> children n = [])
  /\ NoDup (keys (children n))
  /\ forall k c, In (k, c) (children n) ->
       (a < c)%nat /\ segment_name k = true
       /\ exists m, h !! c = Some m /\ name m = k /\ parent m = Some a.

(** Every entry of a [children] dictionary is a later object that carries
    the entry's key as its name and refers back to the owner. *)
Definition heap_ok (h : list FileNode) : Prop :=
  forall a n, h !! a = Some n -> children_ok h a n.

Definition parents_ok (h : list FileNode) : Prop :=
  forall a n p, h !! a = Some n -> parent n = Some p -> (p < a)%nat.

Definition root_ok (h : list FileNode) (r : nat) : Prop :=
  exists n, h !! r = Some n /\ name n = "/"
            /\ is_directory n = true /\ parent n = None.

Definition one_root (h : list FileNode) (r : nat) : Prop :=
  forall a n, h !! a = Some n -> parent n = None -> a = r.

Record store_ok (h : list FileNode) (r : nat) : Prop := mk_store_ok {
  so_children : heap_ok h;
  so_parents : parents_ok h;
  so_root : root_ok h r;
  so_one_root : one_root h r }.

Definition cursor_ok (h : list FileNode) (c : nat) : Prop :=
  exists n, h !! c = Some n /\ is_directory n = true.

Record wf (fs : FileSystem) : Prop := mk_wf {
  wf_store : store_ok (heap fs) (root fs);
  wf_cursor : cursor_ok (heap fs) (current_directory fs);
  wf_metadata : exists md, metadata fs = JObj md }.

(** Two objects that differ at most in their data and their children. *)
Definition same_links (n n' : FileNode) : Prop :=
  name n' = name n /\ parent n' = parent n
  /\ is_directory n' = is_directory n.

(** *** The files below a directory

    The recursive size of a directory as the specification words it: the
    sum of the sizes of its descendant files. *)
Fixpoint concat_children (f : nat -> option (list nat))
    (cs : list (string * nat)) : option (list nat) :=
  match cs with
  | [] => Some []
  | (_, c) :: r =>
      match f c, concat_children f r with
      | Some l, Some l' => Some (l ++ l')
      | _, _ => None
      end
  end.

(** The files in the graph under [a]: [a] itself when it is a file. *)
Fixpoint files_below (h : list FileNode) (fuel : nat) (a : nat)
  : option (list nat) :=
  match fuel with
  | O => None
  | S fuel' =>
      match h !! a with
      | None => None
      | Some n =>
          if is_directory n
          then concat_children (files_below h fuel') (children n)
          else Some [a]
      end
  end.

Definition stored_size (h : list FileNode) (a : nat) : Z :=
  match h !! a with Some n => size n | None => 0 end.

Definition sum_of_sizes (h : list FileNode) (l : list nat) : Z :=
  fold_right (fun a acc => stored_size h a + acc) 0 l.

(** *** Isomorphism of two node graphs *)

Definition same_data (n n' : FileNode) : Prop :=
  name n = name n' /\ is_directory n = is_directory n'
  /\ content n = content n' /\ size n = size n'
  /\ permissions n = permissions n' /\ access_count n = access_count n'
  /\ created_at n = created_at n' /\ modified_at n = modified_at n'.

(** [isomorphic h h' p p' a a']: the graph below [a] in [h] and the graph
    below [a'] in [h'] have the same shape and the same data on every node,
    the parent references of [a] and [a'] are [p] and [p'], and below them
    every parent reference is the node the child hangs from. *)
Unset Elimination Schemes.
Inductive isomorphic (h h' : list FileNode)
  : option nat -> option nat -> nat -> nat -> Prop :=
| iso_node p p' a a' n n' :
    h !! a = Some n ->
    h' !! a' = Some n' ->
    same_data n n' ->
    parent n = p ->
    parent n' = p' ->
    Forall2 (fun kc kc' =>
               fst kc = fst kc'
               /\ isomorphic h h' (Some a) (Some a') (snd kc) (snd kc'))
            (children n) (children n') ->
    isomorphic h h' p p' a a'.
Set Elimination Schemes.

(** The same relation with the recursion depth [f] explicit, and every
    node on the right at an address from [lo] on. *)
Fixpoint iso_at (f : nat) (h h' : list FileNode) (lo : nat)
    (p p' : option nat) (a a' : nat) : Prop :=
  match f with
  | O => False
  | S f' =>
      exists n n',
        h !! a = Some n /\ h' !! a' = Some n' /\ same_data n n'
        /\ parent n = p /\ parent n' = p' /\ (lo <= a')%nat
        /\ Forall2 (fun kc kc' =>
                      fst kc = fst kc'
                      /\ iso_at f' h h' lo (Some a) (Some a') (snd kc) (snd kc'))
                   (children n) (children n')
  end.

(** What populating a new object [a'] from the serialisation of [a]
    achieves, for serialisations computed with recursion depth [f]: the
    graph built under [a'] is isomorphic to the one under [a], and the
    objects that existed before, [a'] apart, are left as they were. *)
Definition populates (h : list FileNode) (f : nat) : Prop :=
  forall a n j pf fs a' n',
    h !! a = Some n -> node_to_dict h f a = Some j ->
    (json_depth j <= pf)%nat ->
    heap fs !! a' = Some n' -> children n' = [] ->
    name n' = name n -> is_directory n' = is_directory n ->
    exists fs',
      populate_node pf a' j fs = Some (tt, fs')
      /\ iso_at f h (heap fs') a' (parent n) (parent n') a a'
      /\ (length (heap fs) <= length (heap fs'))%nat
      /\ forall b, (b < length (heap fs))%nat -> b <> a' ->
           heap fs' !! b = heap fs !! b.

(** *** How the store changes over time

    [evolves h h']: every object of [h] is still in [h'], with the name,
    the kind, the parent and the creation time it had, and an access count
    that is not smaller. *)
Definition evolves (h h' : list FileNode) : Prop :=
  (length h <= length h')%nat
  /\ forall a n, h !! a = Some n ->
       exists n', h' !! a = Some n' /\ same_links n n'
                  /\ created_at n' = created_at n
                  /\ access_count n <= access_count n'.

(** *** The snapshot on the host

    [saved fs]: the FAT table and the host file hold the serialisation of
    the tree as it is in [fs]. *)
Definition saved (fs : FileSystem) : Prop :=
  exists j md,
    node_to_dict (heap fs) (depth_bound (heap fs)) (root fs) = Some j
    /\ fat_table fs = JObj [("/", j)]
    /\ host_file fs =
         Stored (JObj [("fat_table", JObj [("/", j)]); ("metadata", JObj md)]).

(** [stats] after one more operation. *)
Definition inc_total_operations (s : Stats) : Stats :=
  mkStats (files_created s) (files_deleted s) (directories_created s)
    (directories_deleted s) (total_operations s + 1).

(** The success flag that an operation returns. *)
Definition flag_of (o : operation) : M bool :=
  match o with
  | CreateFile f c => r <- create_file f c ;; ret (fst r)
  | ReadFile f => r <- read_file f ;; ret (fst (fst r))
  | UpdateFile f c => r <- update_file f c ;; ret (fst r)
  | DeleteFile f => r <- delete_file f ;; ret (fst r)
  | CreateDirectory d => r <- create_directory d ;; ret (fst r)
  | ChangeDirectory p => r <- change_directory p ;; ret (fst r)
  | CopyFile s d => r <- copy_file s d ;; ret (fst r)
  end.


(** *** The data of an object

    What the engine itself stores in an object: a file has the byte length
    of its content as its size, the permissions [rw-] and no children; a
    directory has no content, the size 0 and the permissions [rwx]. *)
Definition data_ok (n : FileNode) : Prop :=
  0 <= access_count n
  /\ if is_directory n
     then content n = EmptyString /\ size n = 0 /\ permissions n = "rwx"
     else size n = PyStr.utf8_len (content n) /\ permissions n = "rw-"
          /\ children n = [].


(** *** The objects in the tree

    [attached h r a]: the object [a] is in the tree under [r]: it is [r],
    or an entry of the [children] of an object that is in the tree.  An
    object that [delete_file] has removed from its parent is not. *)
Inductive attached (h : list FileNode) (r : nat) : nat -> Prop :=
| attached_root : attached h r r
| attached_child p pn k a :
    attached h r p -> h !! p = Some pn -> In (k, a) (children pn) ->
    attached h r a.


(** *** class FileSystem: listing a directory *)

(** An element of the list returned by [list_directory]. *)
Record DirItem : Type := mkDirItem {
  item_name : string;
  item_type : string;
  item_size : Z;
  item_created : datetime;
  item_modified : datetime;
  item_permissions : string;
  item_access_count : Z }.

(** The loop over [target_node.children.items()] of [list_directory]. *)
Fixpoint list_items (h : list FileNode) (cs : list (string * nat))
  : option (list DirItem) :=
  match cs with
  | [] => Some []
  | (child_name, c) :: r =>
      match h !! c with
      | None => None
      | Some n =>
          match (if is_directory n
                 then get_size_recursive h (depth_bound h) c
                 else Some (size n)),
                list_items h r with
          | Some sz, Some items =>
              Some (mkDirItem child_name
                      (if is_directory n then "directory" else "file")
                      sz (created_at n) (modified_at n) (permissions n)
                      (access_count n) :: items)
          | _, _ => None
          end
      end
  end.

(** [items.sort(key=lambda x: x["name"])]: a stable sort, strings compared
    code point by code point. *)
Fixpoint insert_by_name (x : DirItem) (l : list DirItem) : list DirItem :=
  match l with
  | [] => [x]
  | y :: r =>
      if String.ltb (item_name y) (item_name x)
      then y :: insert_by_name x r
      else x :: l
  end.

Definition sort_by_name (l : list DirItem) : list DirItem :=
  fold_right insert_by_name [] l.

(** The directory that [list_directory] lists: [path] is Python's [None]
    or a string, and [if path:] sends the empty string the way of [None]. *)
Definition list_target (path : option string) : M (option nat) :=
  match path with
  | Some p =>
      if PyStr.nonempty p then get_node_by_path p
      else c <- get_current_node ;; ret (Some c)
  | None => c <- get_current_node ;; ret (Some c)
  end.

(** [path or 'actual'] *)
Definition path_or_actual (path : option string) : string :=
  match path with
  | Some p => if PyStr.nonempty p then p else "actual"
  | None => "actual"
  end.

(** [FileSystem.list_directory] *)
Definition list_directory (path : option string)
  : M (bool * string * list DirItem) :=
  target_node <- list_target path ;;
  match target_node with
  | None =>
      ret (false, "El directorio " +:+ quoted (path_or_actual path)
                  +:+ " no existe", [])
  | Some target =>
      tn <- node target ;;
      if negb (is_directory tn) then
        ret (false, quoted (path_or_actual path) +:+ " no es un directorio", [])
      else
        h <- gets heap ;;
        items <- lift (list_items h (children tn)) ;;
        ret (true, "Contenido del directorio listado exitosamente",
             sort_by_name items)
  end.


(** *** Statistics *)

(** The dictionary returned by [VirtualDisk.get_disk_stats], but for its
    [disk_file] entry: the name of the host file is not part of the model.
    The entries are typed: metadata that holds a value of another JSON
    kind ends the computation, as a missing key does. *)
Record DiskStats : Type := mkDiskStats {
  total_blocks : Z;
  used_blocks : Z;
  free_blocks : Z;
  block_size : Z }.

(** [self.metadata[k]] for an integer entry. *)
Definition metadata_int (k : string) : M Z :=
  md <- gets metadata ;;
  d <- lift (as_dict md) ;;
  j <- lift (dict_get k d) ;;
  lift (as_int j).

(** [VirtualDisk.get_disk_stats] *)
Definition get_disk_stats : M DiskStats :=
  total <- metadata_int "total_blocks" ;;
  used <- metadata_int "used_blocks" ;;
  total' <- metadata_int "total_blocks" ;;
  used' <- metadata_int "used_blocks" ;;
  bsize <- metadata_int "block_size" ;;
  ret (mkDiskStats total used (total' - used') bsize).

(** The loop over [node.children.values()] of [count_nodes]. *)
Fixpoint count_children (f : nat -> option (Z * Z))
    (cs : list (string * nat)) (files dirs : Z) : option (Z * Z) :=
  match cs with
  | [] => Some (files, dirs)
  | (_, c) :: r =>
      match f c with
      | Some (child_files, child_dirs) =>
          count_children f r (files + child_files) (dirs + child_dirs)
      | None => None
      end
  end.

(** [count_nodes], local to [get_system_stats]: the files and the
    directories in the graph under [a], [a] included; [fuel] bounds the
    recursion depth. *)
Fixpoint count_nodes (h : list FileNode) (fuel : nat) (a : nat)
  : option (Z * Z) :=
  match fuel with
  | O => None
  | S fuel' =>
      match h !! a with
      | None => None
      | Some n =>
          if is_directory n
          then count_children (count_nodes h fuel') (children n) 0 (0 + 1)
          else Some (0 + 1, 0)
      end
  end.

(** The dictionary returned by [get_system_stats]. *)
Record SystemStats : Type := mkSystemStats {
  sys_current_directory : string;
  sys_total_files : Z;
  sys_total_directories : Z;
  sys_total_size_bytes : Z;
  sys_operations : Stats;
  sys_disk : DiskStats }.

(** [FileSystem.get_system_stats] *)
Definition get_system_stats : M SystemStats :=
  h <- gets heap ;;
  r <- gets root ;;
  counts <- lift (count_nodes h (depth_bound h) r) ;;
  let total_files := fst counts in
  let total_dirs := Z.max 0 (snd counts - 1) in
  cwd <- get_current_directory ;;
  total_size <- lift (get_size_recursive h (depth_bound h) r) ;;
  operations <- gets stats ;;
  disk <- get_disk_stats ;;
  ret (mkSystemStats cwd total_files total_dirs total_size operations disk).

(** *** Invariants of a computation *)

(** [keeps Q m]: when [m] starts in an engine that satisfies [Q] and
    returns, the engine it leaves satisfies [Q]. *)
Definition keeps (Q : FileSystem -> Prop) {A : Type} (m : M A) : Prop :=
  forall fs x fs', Q fs -> m fs = Some (x, fs') -> Q fs'.

(** The disk metadata as [VirtualDisk.__init__] sets them, whatever the
    two dates. *)
Definition metadata_ok (fs : FileSystem) : Prop :=
  exists c l,
    metadata fs =
    JObj [("created_at", c); ("last_modified", l);
          ("total_blocks", JInt 1000); ("block_size", JInt 512);
          ("used_blocks", JInt 0)].


(** [counters_match fs]: the tree holds as many files as the engine has
    created and not deleted, and as many directories, the root apart. *)
Definition counters_match (fs : FileSystem) : Prop :=
  exists files dirs,
    count_nodes (heap fs) (depth_bound (heap fs)) (root fs)
    = Some (files, dirs)
    /\ files = files_created (stats fs) - files_deleted (stats fs)
    /\ dirs - 1
       = directories_created (stats fs) - directories_deleted (stats fs).


(** *** class FileSystem: search *)

(** An element of the list returned by [search_files]. *)
Record SearchHit : Type := mkSearchHit {
  hit_path : string;
  hit_type : string;
  hit_match_type : string }.

(** [results.append({"path": node.get_full_path(), ...})] *)
Definition append_hit (h : list FileNode) (a : nat) (type match_type : string)
    (results : list SearchHit) : option (list SearchHit) :=
  match get_full_path h (depth_bound h) a with
  | Some p => Some (results ++ [mkSearchHit p type match_type])
  | None => None
  end.

(** The loop [for child in node.children.values(): search_recursive(child)]. *)
Fixpoint search_children
    (f : nat -> list SearchHit -> option (list SearchHit))
    (cs : list (string * nat)) (results : list SearchHit)
  : option (list SearchHit) :=
  match cs with
  | [] => Some results
  | (_, c) :: r =>
      match f c results with
      | Some results' => search_children f r results'
      | None => None
      end
  end.

(** [search_recursive], local to [search_files]; [results] is the list it
    appends to, [fuel] bounds the recursion depth. *)
Fixpoint search_recursive (h : list FileNode) (pattern : string)
    (search_content : bool) (fuel : nat) (a : nat)
    (results : list SearchHit) : option (list SearchHit) :=
  match fuel with
  | O => None
  | S fuel' =>
      match h !! a with
      | None => None
      | Some n =>
          match (if PyStr.contains_str (PyStr.lower pattern)
                      (PyStr.lower (name n))
                 then append_hit h a
                        (if is_directory n then "directory" else "file")
                        "name" results
                 else Some results) with
          | None => None
          | Some results1 =>
              match (if search_content && negb (is_directory n)
                     then if PyStr.contains_str (PyStr.lower pattern)
                               (PyStr.lower (content n))
                          then append_hit h a "file" "content" results1
                          else Some results1
                     else Some results1) with
              | None => None
              | Some results2 =>
                  if is_directory n
                  then search_children
                         (search_recursive h pattern search_content fuel')
                         (children n) results2
                  else Some results2
              end
          end
      end
  end.

(** [FileSystem.search_files] *)
Definition search_files (pattern : string) (search_content : bool)
  : M (list SearchHit) :=
  h <- gets heap ;;
  r <- gets root ;;
  lift (search_recursive h pattern search_content (depth_bound h) r []).

(** [hit_at h pattern search_content a hit]: [hit] is a result that the
    object [a] gives rise to: its name matches, or the search looks into
    contents and [a] is a file whose content matches. *)
Definition hit_at (h : list FileNode) (pattern : string)
    (search_content : bool) (a : nat) (hit : SearchHit) : Prop :=
  exists n path,
    h !! a = Some n
    /\ get_full_path h (depth_bound h) a = Some path
    /\ ((PyStr.contains_str (PyStr.lower pattern) (PyStr.lower (name n))
         = true
         /\ hit = mkSearchHit path
                    (if is_directory n then "directory" else "file") "name")
        \/ (search_content = true /\ is_directory n = false
            /\ PyStr.contains_str (PyStr.lower pattern)
                 (PyStr.lower (content n)) = true
            /\ hit = mkSearchHit path "file" "content")).

End Engine.

(** ** A concrete clock

    Time is the number of ticks so far, written in decimal. *)
Definition logical_time : DateTime := {|
  datetime := nat;
  isoformat := fun n => NilEmpty.string_of_uint (Nat.to_uint n);
  fromisoformat := fun s => option_map Nat.of_uint (NilEmpty.uint_of_string s);
  clock := fun k => k |}.
(** ** Sample sessions under the concrete clock *)
Module Demo.
#[local] Existing Instance logical_time.

(** The engine after [m], or the engine as it was if [m] raises. *)
Definition exec {A : Type} (m : M A) (fs : FileSystem) : FileSystem :=
  match m fs with
  | Some (_, fs') => fs'
  | None => fs
  end.

Definition fresh : FileSystem :=
  match FileSystem_init Absent 0 with
  | Some fs => fs
  | None => blank Absent 0
  end.

(** [mkdir docs; cd docs; create readme.txt "hello"; cd ..] *)
Definition with_docs : FileSystem := exec (create_directory "docs") fresh.
Definition in_docs : FileSystem := exec (change_directory "docs") with_docs.
Definition with_readme : FileSystem :=
  exec (create_file "readme.txt" "hello") in_docs.
Definition back_at_root : FileSystem :=
  exec (change_directory "..") with_readme.

(** [in_docs] after one more save. *)
Definition in_docs_saved : FileSystem := exec save_changes in_docs.

(** A new engine started on the snapshot that [fs] left on the host. *)
Definition restart (fs : FileSystem) : FileSystem :=
  match FileSystem_init (host_file fs) (ticks fs) with
  | Some fs' => fs'
  | None => fs
  end.

(** [mkdir docs; cd docs; create readme.txt "hello"; create Notes.MD
    "see README"; cd /] *)
Definition with_notes : FileSystem :=
  exec (change_directory "/")
    (exec (create_file "Notes.MD" "see README") with_readme).

End Demo.

(** * Properties *)

(** ** Python strings *)
Module PyStrFacts.
Import PyStr.

Lemma contains_lstrip c s :
  isspace c = false -> contains c s = true -> contains c (lstrip s) = true.
Proof.
  intros Hc. induction s as [|d s IH]; simpl; [done|].
  destruct (isspace d) eqn:Hd.
  - destruct (Ascii.eqb c d) eqn:E; [|exact IH].
    apply Ascii.eqb_eq in E. congruence.
  - done.
Qed.

Lemma rstrip_empty c s :
  rstrip s = EmptyString -> contains c s = true -> isspace c = true.
Proof.
  induction s as [|d s IH]; simpl; [done|].
  destruct (rstrip s) eqn:R; [|discriminate].
  destruct (isspace d) eqn:Hd; [|discriminate].
  intros _. destruct (Ascii.eqb c d) eqn:E.
  - apply Ascii.eqb_eq in E. congruence.
  - simpl. by apply IH.
Qed.

Lemma contains_rstrip c s :
  isspace c = false -> contains c s = true -> contains c (rstrip s) = true.
Proof.
  intros Hc. induction s as [|d s IH]; simpl; [done|].
  destruct (Ascii.eqb c d) eqn:E; simpl.
  - intros _. apply Ascii.eqb_eq in E. subst d.
    destruct (rstrip s); [rewrite Hc|]; cbn [contains];
      by rewrite Ascii.eqb_refl.
  - intros H. specialize (IH H).
    destruct (rstrip s); [done|]. simpl. by rewrite E.
Qed.

Lemma contains_strip c s :
  isspace c = false -> contains c s = true -> contains c (strip s) = true.
Proof. intros Hc H. by apply contains_rstrip, contains_lstrip. Qed.

Lemma split_no_sep sep s : contains sep s = false -> split sep s = [s].
Proof.
  induction s as [|d s IH]; simpl; [done|].
  rewrite (Ascii.eqb_sym sep d).
  destruct (Ascii.eqb d sep); simpl; [done|]. intros H. by rewrite IH.
Qed.

Lemma split_app sep s t :
  contains sep s = false ->
  split sep (s +:+ String sep t) = s :: split sep t.
Proof.
  induction s as [|d s IH]; simpl.
  - intros _. by rewrite Ascii.eqb_refl.
  - rewrite (Ascii.eqb_sym sep d).
    destruct (Ascii.eqb d sep); simpl; [done|]. intros H. by rewrite IH.
Qed.

Lemma startswith_no_sep sep s :
  contains sep s = false -> startswith s (String sep EmptyString) = false.
Proof.
  destruct s as [|d s]; simpl; [done|].
  destruct (Ascii.eqb sep d) eqn:E; [done|]. intros _.
  destruct (ascii_dec sep d) as [->|]; [|done].
  by rewrite Ascii.eqb_refl in E.
Qed.

Lemma endswith_cons c s suffix :
  endswith s suffix = true -> endswith (String c s) suffix = true.
Proof. intros H. simpl. rewrite H. apply orb_true_r. Qed.

(** A string that ends with [c] still ends with [c] once stripped,
    unless [c] is white space. *)
Lemma endswith_rstrip c s :
  isspace c = false ->
  endswith s (String c EmptyString) = true ->
  endswith (rstrip s) (String c EmptyString) = true.
Proof.
  intros Hc. induction s as [|d s IH]; [done|].
  cbn [endswith rstrip]. intros H. apply orb_true_iff in H as [H|H].
  - apply String.eqb_eq in H. injection H as -> ->. cbn [rstrip endswith].
    rewrite Hc. cbn [endswith]. by rewrite String.eqb_refl.
  - specialize (IH H). destruct (rstrip s) eqn:R; [done|].
    by apply endswith_cons.
Qed.

Lemma endswith_lstrip c s :
  isspace c = false ->
  endswith s (String c EmptyString) = true ->
  endswith (lstrip s) (String c EmptyString) = true.
Proof.
  intros Hc. induction s as [|d s IH]; [done|].
  cbn [lstrip]. destruct (isspace d) eqn:Hd; [|done].
  cbn [endswith]. intros H. apply orb_true_iff in H as [H|H]; [|auto].
  apply String.eqb_eq in H. injection H as -> ->. congruence.
Qed.

Lemma endswith_strip c s :
  isspace c = false ->
  endswith s (String c EmptyString) = true ->
  endswith (strip s) (String c EmptyString) = true.
Proof. intros Hc H. by apply endswith_rstrip, endswith_lstrip. Qed.

Lemma lstrip_head s :
  match lstrip s with
  | EmptyString => True
  | String c _ => isspace c = false
  end.
Proof.
  induction s as [|d s IH]; simpl; [done|].
  destruct (isspace d) eqn:Hd; [exact IH|done].
Qed.

Lemma lstrip_id s :
  match s with
  | EmptyString => True
  | String c _ => isspace c = false
  end -> lstrip s = s.
Proof. destruct s as [|c s]; simpl; [done|]. by intros ->. Qed.

Lemma rstrip_head s :
  match s with
  | EmptyString => True
  | String c _ => isspace c = false
  end ->
  match rstrip s with
  | EmptyString => True
  | String c _ => isspace c = false
  end.
Proof.
  destruct s as [|c s]; simpl; [done|]. intros Hc.
  destruct (rstrip s); [by rewrite Hc|done].
Qed.

Lemma rstrip_rstrip s : rstrip (rstrip s) = rstrip s.
Proof.
  induction s as [|c s IH]; simpl; [done|].
  destruct (rstrip s) as [|d r] eqn:R.
  - destruct (isspace c) eqn:Hc; simpl; [done|by rewrite Hc].
  - change (rstrip (String c (String d r)))
      with (match rstrip (String d r) with
            | EmptyString =>
                if isspace c then EmptyString else String c EmptyString
            | r' => String c r'
            end).
    by rewrite IH.
Qed.

Lemma strip_strip s : strip (strip s) = strip s.
Proof.
  unfold strip.
  rewrite (lstrip_id (rstrip (lstrip s))); [apply rstrip_rstrip|].
  apply rstrip_head, lstrip_head.
Qed.

Lemma strip_empty : strip EmptyString = EmptyString.
Proof. reflexivity. Qed.

Lemma split_head sep c s :
  Ascii.eqb c sep = false ->
  exists w ws, split sep (String c s) = String c w :: ws.
Proof.
  intros H. simpl. rewrite H. destruct (split sep s) as [|w ws]; eauto.
Qed.


Lemma split_cons sep s : exists w ws, split sep s = w :: ws.
Proof.
  induction s as [|c s (w & ws & IH)]; simpl; [eauto|].
  destruct (Ascii.eqb c sep); [eauto|]. rewrite IH. eauto.
Qed.

Lemma split_app_sep sep s t :
  split sep (s +:+ String sep t) = split sep s ++ split sep t.
Proof.
  induction s as [|c s IH].
  - change (EmptyString +:+ String sep t) with (String sep t).
    simpl. by rewrite Ascii.eqb_refl.
  - change (String c s +:+ String sep t) with (String c (s +:+ String sep t)).
    simpl. destruct (Ascii.eqb c sep); [by rewrite IH|].
    rewrite IH. by destruct (split_cons sep s) as (w & ws & ->).
Qed.

End PyStrFacts.

(** ** Dictionaries *)
Section DictFacts.
Context {V : Type}.
Implicit Types (d : list (string * V)) (k : string) (v : V).

Lemma dict_get_In k v d : dict_get k d = Some v -> In (k, v) d.
Proof.
  induction d as [|[k' v'] d IH]; simpl; [discriminate|].
  destruct (String.eqb k k') eqn:E.
  - apply String.eqb_eq in E. intros [= ->]. left. congruence.
  - intros H. right. auto.
Qed.

Lemma dict_get_None k d : dict_get k d = None <-> ~ In k (keys d).
Proof.
  induction d as [|[k' v'] d IH]; simpl; [tauto|].
  destruct (String.eqb k k') eqn:E.
  - apply String.eqb_eq in E. split; [discriminate|]. intros H. destruct H. auto.
  - apply String.eqb_neq in E. rewrite IH. split; [|tauto].
    intros H [H'|H']; [congruence|tauto].
Qed.

Lemma dict_mem_false k d : dict_mem k d = false <-> ~ In k (keys d).
Proof.
  unfold dict_mem. rewrite <- dict_get_None.
  destruct (dict_get k d); split; congruence.
Qed.

Lemma dict_mem_true k d : dict_mem k d = true <-> In k (keys d).
Proof.
  destruct (dict_mem k d) eqn:E.
  - split; [|done]. intros _.
    destruct (in_dec String.eq_dec k (keys d)) as [|N]; [done|].
    apply dict_mem_false in N. congruence.
  - apply dict_mem_false in E. split; [discriminate|tauto].
Qed.

Lemma dict_mem_get k d : dict_mem k d = true -> exists v, dict_get k d = Some v.
Proof. unfold dict_mem. destruct (dict_get k d); [eauto|discriminate]. Qed.

Lemma In_dict_get k v d : NoDup (keys d) -> In (k, v) d -> dict_get k d = Some v.
Proof.
  induction d as [|[k' v'] d IH]; simpl; [tauto|].
  intros ND [H|H].
  - injection H as -> ->. by rewrite String.eqb_refl.
  - apply NoDup_cons in ND as [N ND].
    destruct (String.eqb k k') eqn:E; [|auto].
    apply String.eqb_eq in E. subst k'. destruct N.
    apply list_elem_of_In. unfold keys. apply in_map_iff. by exists (k, v).
Qed.

(** Assigning to a key that is absent appends the entry. *)
Lemma dict_set_new k v d : dict_mem k d = false -> dict_set k v d = d ++ [(k, v)].
Proof.
  induction d as [|[k' v'] d IH]; simpl; [done|].
  unfold dict_mem. simpl. destruct (String.eqb k k') eqn:E; [discriminate|].
  intros H. f_equal. apply IH. exact H.
Qed.

Lemma dict_del_In k k' v d : In (k', v) (dict_del k d) -> In (k', v) d.
Proof.
  induction d as [|[k1 v1] d IH]; simpl; [tauto|].
  destruct (String.eqb k k1); simpl; tauto.
Qed.

Lemma dict_del_keys k k' d : In k' (keys (dict_del k d)) -> In k' (keys d).
Proof.
  unfold keys. rewrite !in_map_iff. intros [[k1 v1] [E H]].
  exists (k1, v1). split; [done|]. by eapply dict_del_In.
Qed.

Lemma dict_del_NoDup k d : NoDup (keys d) -> NoDup (keys (dict_del k d)).
Proof.
  induction d as [|[k1 v1] d IH]; simpl; [done|].
  intros ND. apply NoDup_cons in ND as [N ND].
  destruct (String.eqb k k1); [done|]. simpl. apply NoDup_cons. split; [|auto].
  intros H. apply N. apply list_elem_of_In. apply list_elem_of_In in H.
  by eapply dict_del_keys.
Qed.

Lemma dict_del_gone k d : NoDup (keys d) -> ~ In k (keys (dict_del k d)).
Proof.
  induction d as [|[k1 v1] d IH]; simpl; [tauto|].
  intros ND. apply NoDup_cons in ND as [N ND].
  destruct (String.eqb k k1) eqn:E.
  - apply String.eqb_eq in E. subst k1. intros H. apply N. by apply list_elem_of_In.
  - apply String.eqb_neq in E. simpl. intros [H|H]; [congruence|]. by apply IH.
Qed.

Lemma keys_app d1 d2 : keys (d1 ++ d2) = keys d1 ++ keys d2.
Proof. unfold keys. apply map_app. Qed.
End DictFacts.

Section EngineFacts.
Context `{DT : DateTime}.
Implicit Types (fs : FileSystem) (h : list FileNode) (n : FileNode).

(** ** Running computations *)

Lemma bind_Some {A B} (m : M A) (k : A -> M B) fs y fs' :
  bind m k fs = Some (y, fs') <->
  exists x fs1, m fs = Some (x, fs1) /\ k x fs1 = Some (y, fs').
Proof.
  unfold bind. destruct (m fs) as [[x fs1]|].
  - split; [eauto|]. by intros (? & ? & [= <- <-] & ?).
  - split; [discriminate|]. by intros (? & ? & ? & ?).
Qed.

Lemma bind_eq {A B} (m : M A) (k : A -> M B) fs x fs1 :
  m fs = Some (x, fs1) -> bind m k fs = k x fs1.
Proof. unfold bind. by intros ->. Qed.

Lemma node_Some a fs n : heap fs !! a = Some n -> node a fs = Some (n, fs).
Proof. unfold node. by intros ->. Qed.

Lemma node_inv a fs n fs' :
  node a fs = Some (n, fs') -> heap fs !! a = Some n /\ fs' = fs.
Proof. unfold node. destruct (heap fs !! a); [|discriminate]. by intros [= -> ->]. Qed.

Lemma update_node_Some a f fs n :
  heap fs !! a = Some n ->
  update_node a f fs = Some (tt, set_heap (<[a := f n]> (heap fs)) fs).
Proof. unfold update_node. by intros ->. Qed.

Lemma lift_Some {A} (o : option A) x fs : o = Some x -> lift o fs = Some (x, fs).
Proof. by intros ->. Qed.

(** ** Walks over a well-formed store terminate *)

Lemma children_to_dict_Some (g : nat -> option json) cs acc :
  (forall k c, In (k, c) cs -> is_Some (g c)) ->
  is_Some (children_to_dict g cs acc).
Proof.
  revert acc. induction cs as [|[k c] cs IH]; intros acc H; simpl; [eauto|].
  destruct (H k c) as [j Hj]; [by left|]. rewrite Hj.
  apply IH. intros k' c' Hin. apply (H k' c'). by right.
Qed.

Lemma node_to_dict_Some h : heap_ok h ->
  forall f a n, h !! a = Some n -> (length h - a < f)%nat ->
    is_Some (node_to_dict h f a).
Proof.
  intros Hok f. induction f as [|f IH]; intros a n Ha Hf; [lia|].
  simpl. rewrite Ha.
  assert (is_Some (if is_directory n
                   then children_to_dict (node_to_dict h f) (children n) []
                   else Some [])) as [cs ->]; [|eauto].
  destruct (is_directory n); [|eauto].
  apply children_to_dict_Some. intros k c Hin.
  destruct (Hok a n Ha) as (_ & _ & Hc).
  destruct (Hc k c Hin) as (Hlt & _ & m & Hm & _).
  apply (IH c m Hm). apply lookup_lt_Some in Hm. lia.
Qed.

Lemma sum_children_Some (g : nat -> option Z) cs total :
  (forall k c, In (k, c) cs -> is_Some (g c)) ->
  is_Some (sum_children g cs total).
Proof.
  revert total. induction cs as [|[k c] cs IH]; intros total H; simpl; [eauto|].
  destruct (H k c) as [j Hj]; [by left|]. rewrite Hj.
  apply IH. intros k' c' Hin. apply (H k' c'). by right.
Qed.

Lemma get_size_recursive_Some h : heap_ok h ->
  forall f a n, h !! a = Some n -> (length h - a < f)%nat ->
    is_Some (get_size_recursive h f a).
Proof.
  intros Hok f. induction f as [|f IH]; intros a n Ha Hf; [lia|].
  simpl. rewrite Ha. destruct (is_directory n); simpl; [|eauto].
  apply sum_children_Some. intros k c Hin.
  destruct (Hok a n Ha) as (_ & _ & Hc).
  destruct (Hc k c Hin) as (Hlt & _ & m & Hm & _).
  apply (IH c m Hm). apply lookup_lt_Some in Hm. lia.
Qed.

Lemma get_full_path_Some h :
  (forall a n p, h !! a = Some n -> parent n = Some p -> (p < a)%nat) ->
  forall f a n, h !! a = Some n -> (a < f)%nat ->
    is_Some (get_full_path h f a).
Proof.
  intros Hp f. induction f as [|f IH]; intros a n Ha Hf; [lia|].
  simpl. rewrite Ha. destruct (parent n) as [p|] eqn:Ep; [|eauto].
  pose proof (Hp a n p Ha Ep) as Hlt.
  destruct (h !! p) as [pn|] eqn:Epn.
  - destruct (parent pn); [|eauto].
    destruct (IH p pn Epn) as [s ->]; [lia|eauto].
  - apply lookup_ge_None in Epn. apply lookup_lt_Some in Ha. lia.
Qed.

(** ** Mutations of the store that keep it well formed *)

Lemma lookup_snoc {A} (l : list A) (x : A) : (l ++ [x]) !! length l = Some x.
Proof. rewrite lookup_app_r; [|lia]. by rewrite Nat.sub_diag. Qed.

Lemma children_ok_mono h h' a n :
  (forall c m, h !! c = Some m -> exists m', h' !! c = Some m'
      /\ name m' = name m /\ parent m' = parent m) ->
  children_ok h a n -> children_ok h' a n.
Proof.
  intros Hh (Hf & Hnd & Hc). repeat split; try done.
  - by apply (Hc k c).
  - by apply (Hc k c).
  - destruct (Hc k c H) as (_ & _ & m & Hm & Hn & Hp).
    destruct (Hh c m Hm) as (m' & Hm' & Hn' & Hp').
    exists m'. split; [done|]. split; congruence.
Qed.

Lemma store_ok_insert h r a n n' :
  store_ok h r -> h !! a = Some n -> same_links n n' ->
  children_ok h a n' -> store_ok (<[a := n']> h) r.
Proof.
  intros [Hc Hp Hr H1] Ha (Hn & Hpar & Hd) Hch.
  pose proof (lookup_lt_Some _ _ _ Ha) as Hlt.
  assert (forall c m, h !! c = Some m -> exists m', <[a := n']> h !! c = Some m'
      /\ name m' = name m /\ parent m' = parent m) as Hmono.
  { intros c m Hm. destruct (decide (a = c)) as [->|Hne].
    - rewrite list_lookup_insert_eq; [|done]. exists n'. split; [done|].
      split; congruence.
    - rewrite list_lookup_insert_ne; [|done]. eauto. }
  split.
  - intros b m Hb. destruct (decide (a = b)) as [->|Hne].
    + rewrite list_lookup_insert_eq in Hb; [|done]. injection Hb as <-.
      by eapply children_ok_mono.
    + rewrite list_lookup_insert_ne in Hb; [|done].
      eapply children_ok_mono; [done|]. by apply Hc.
  - intros b m p Hb Hpm. destruct (decide (a = b)) as [->|Hne].
    + rewrite list_lookup_insert_eq in Hb; [|done]. injection Hb as <-.
      apply (Hp b n p Ha). congruence.
    + rewrite list_lookup_insert_ne in Hb; [|done]. by apply (Hp b m p).
  - destruct Hr as (rn & Hrn & ? & ? & ?).
    destruct (Hmono r rn Hrn) as (m' & Hm' & ? & ?).
    exists m'. repeat split; try congruence.
    destruct (decide (a = r)) as [->|Hne].
    + rewrite list_lookup_insert_eq in Hm'; [|done]. congruence.
    + rewrite list_lookup_insert_ne in Hm'; [|done]. congruence.
  - intros b m Hb Hpm. destruct (decide (a = b)) as [->|Hne].
    + rewrite list_lookup_insert_eq in Hb; [|done]. injection Hb as <-.
      apply (H1 b n Ha). congruence.
    + rewrite list_lookup_insert_ne in Hb; [|done]. by apply (H1 b m).
Qed.

Lemma store_ok_alloc h r p n :
  store_ok h r -> (p < length h)%nat -> parent n = Some p -> children n = [] ->
  store_ok (h ++ [n]) r.
Proof.
  intros [Hc Hp Hr H1] Hlt Hpar Hch.
  assert (forall c m, h !! c = Some m -> exists m', (h ++ [n]) !! c = Some m'
      /\ name m' = name m /\ parent m' = parent m) as Hmono.
  { intros c m Hm. exists m. split; [|done].
    rewrite lookup_app_l; [done|]. by eapply lookup_lt_Some. }
  assert (forall b m, (h ++ [n]) !! b = Some m ->
            h !! b = Some m \/ (b = length h /\ m = n)) as Hcase.
  { intros b m Hb. destruct (decide (b < length h)%nat).
    - rewrite lookup_app_l in Hb; auto.
    - rewrite lookup_app_r in Hb; [|lia]. right.
      destruct (b - length h)%nat eqn:E; simpl in Hb; [|by destruct n1].
      injection Hb as <-. split; [lia|done]. }
  split.
  - intros b m Hb. destruct (Hcase b m Hb) as [Hb'|[-> ->]].
    + eapply children_ok_mono; [done|]. by apply Hc.
    + unfold children_ok. rewrite Hch. split; [done|]. split; [constructor|].
      intros ? ? [].
  - intros b m q Hb Hq. destruct (Hcase b m Hb) as [Hb'|[-> ->]].
    + by apply (Hp b m q).
    + congruence.
  - destruct Hr as (rn & Hrn & ? & ? & ?). exists rn. split; [|done].
    rewrite lookup_app_l; [done|]. by eapply lookup_lt_Some.
  - intros b m Hb Hq. destruct (Hcase b m Hb) as [Hb'|[-> ->]].
    + by apply (H1 b m).
    + congruence.
Qed.

Lemma cursor_ok_insert h c a n n' :
  cursor_ok h c -> h !! a = Some n -> is_directory n' = is_directory n ->
  cursor_ok (<[a := n']> h) c.
Proof.
  intros (cn & Hcn & Hd) Ha Hd'.
  pose proof (lookup_lt_Some _ _ _ Ha) as Hlt.
  destruct (decide (a = c)) as [->|Hne].
  - exists n'. rewrite list_lookup_insert_eq; [|done]. split; congruence.
  - exists cn. by rewrite list_lookup_insert_ne.
Qed.

Lemma cursor_ok_alloc h c n : cursor_ok h c -> cursor_ok (h ++ [n]) c.
Proof.
  intros (cn & Hcn & Hd). exists cn. split; [|done].
  rewrite lookup_app_l; [done|]. by eapply lookup_lt_Some.
Qed.


(** ** The operations on a well-formed engine *)

#[local] Arguments node_to_dict : simpl never.
#[local] Arguments get_full_path : simpl never.
#[local] Arguments get_size_recursive : simpl never.
#[local] Arguments populate_node : simpl never.
#[local] Arguments depth_bound : simpl never.

Lemma save_changes_spec fs :
  heap_ok (heap fs) -> is_Some (heap fs !! root fs) ->
  (exists md, metadata fs = JObj md) ->
  exists j md fs',
    save_changes fs = Some (tt, fs')
    /\ node_to_dict (heap fs) (depth_bound (heap fs)) (root fs) = Some j
    /\ heap fs' = heap fs /\ root fs' = root fs
    /\ current_directory fs' = current_directory fs
    /\ metadata fs' = JObj md
    /\ fat_table fs' = JObj [("/", j)]
    /\ host_file fs' =
         Stored (JObj [("fat_table", JObj [("/", j)]); ("metadata", JObj md)])
    /\ stats fs' =
         mkStats (files_created (stats fs)) (files_deleted (stats fs))
           (directories_created (stats fs)) (directories_deleted (stats fs))
           (total_operations (stats fs) + 1).
Proof.
  intros Hok [r Hr] [md Hmd].
  destruct (node_to_dict_Some (heap fs) Hok (depth_bound (heap fs)) (root fs) r Hr)
    as [j Hj]; [unfold depth_bound; lia|].
  exists j. eexists. eexists.
  unfold save_changes, update_fat_from_tree, save_disk, bind, gets, modify, lift, now.
  cbn. rewrite Hj. cbn. rewrite Hmd. cbn.
  repeat split; reflexivity.
Qed.


(** ** Validation of names *)

Lemma first_invalid_char_None cs s c :
  first_invalid_char cs s = None -> In c cs -> PyStr.contains c s = false.
Proof.
  induction cs as [|d cs IH]; simpl; [tauto|].
  destruct (PyStr.contains d s) eqn:E; [discriminate|].
  intros H [->|Hin]; auto.
Qed.

(** What an accepted name is guaranteed to be. *)
Lemma validate_filename_true filename msg :
  validate_filename filename = (true, msg) ->
  PyStr.nonempty filename = true
  /\ first_invalid_char invalid_chars (PyStr.strip filename) = None
  /\ existsb (String.eqb (PyStr.upper (PyStr.strip filename))) reserved_names
     = false
  /\ PyStr.endswith (PyStr.strip filename) "." = false.
Proof.
  unfold validate_filename.
  destruct (PyStr.nonempty filename); [|discriminate]. cbn [negb orb].
  destruct (String.eqb (PyStr.strip filename) EmptyString); [discriminate|].
  destruct (first_invalid_char invalid_chars (PyStr.strip filename));
    [discriminate|].
  destruct (existsb _ reserved_names); [discriminate|].
  destruct (255 <? _); [discriminate|].
  destruct (PyStr.endswith (PyStr.strip filename) "."); [discriminate|].
  done.
Qed.

Lemma validate_filename_segment filename msg :
  validate_filename filename = (true, msg) -> segment_name filename = true.
Proof.
  intros H. pose proof (validate_filename_true _ _ H) as (Hne & Hinv & _ & _).
  unfold segment_name. rewrite Hne. cbn [andb].
  assert (PyStr.contains "/" filename = false) as ->.
  { destruct (PyStr.contains "/" filename) eqn:E; [|done].
    apply (PyStrFacts.contains_strip "/") in E; [|done].
    rewrite (first_invalid_char_None _ _ "/"%char Hinv) in E; [done|].
    by left. }
  cbn [negb andb].
  destruct (String.eqb filename ".") eqn:E1.
  { apply String.eqb_eq in E1. subst. vm_compute in H. discriminate. }
  destruct (String.eqb filename "..") eqn:E2.
  { apply String.eqb_eq in E2. subst. vm_compute in H. discriminate. }
  done.
Qed.

(** A name that ends in a full stop is never accepted. *)
Lemma validate_filename_dot filename :
  PyStr.endswith filename "." = true ->
  fst (validate_filename filename) = false.
Proof.
  intros H. destruct (validate_filename filename) as [[] msg] eqn:V; [|done].
  apply validate_filename_true in V as (_ & _ & _ & Hd).
  apply (PyStrFacts.endswith_strip "."%char) in H; [|done]. congruence.
Qed.


Lemma insert_snoc {A} (l : list A) (x y : A) :
  <[length l := y]> (l ++ [x]) = l ++ [y].
Proof.
  rewrite insert_app_r_alt; [|lia]. by rewrite Nat.sub_diag.
Qed.

Lemma save_changes_wf fs :
  wf fs ->
  exists fs',
    save_changes fs = Some (tt, fs') /\ wf fs'
    /\ heap fs' = heap fs /\ root fs' = root fs
    /\ current_directory fs' = current_directory fs
    /\ stats fs' =
         mkStats (files_created (stats fs)) (files_deleted (stats fs))
           (directories_created (stats fs)) (directories_deleted (stats fs))
           (total_operations (stats fs) + 1).
Proof.
  intros [Hs Hc Hm].
  destruct (save_changes_spec fs) as (j & md & fs' & H & _ & Hh & Hr & Hcd & Hmd & _ & _ & Hst).
  - apply Hs.
  - destruct (so_root _ _ Hs) as (n & Hn & _). eauto.
  - done.
  - exists fs'. split; [done|]. split; [|done].
    split; rewrite ?Hh, ?Hr, ?Hcd; eauto.
Qed.

(** The children of the current directory after a creation. *)
Lemma children_ok_link h a cur k nd :
  heap_ok h -> h !! a = Some cur -> (a < length h)%nat ->
  is_directory cur = true -> dict_mem k (children cur) = false ->
  segment_name k = true -> name nd = k -> parent nd = Some a ->
  children_ok (h ++ [nd]) a
    (set_children (dict_set k (length h) (children cur)) cur).
Proof.
  intros Hok Ha Hlt Hd Hk Hseg Hn Hp.
  destruct (Hok a cur Ha) as (_ & Hnd & Hc).
  rewrite dict_set_new by done. unfold children_ok, set_children.
  cbn [children is_directory].
  split; [congruence|]. split.
  - rewrite keys_app. apply NoDup_app. split; [done|]. split.
    + intros x Hx Hx'. apply list_elem_of_In in Hx'. cbn in Hx'.
      destruct Hx' as [<-|[]]. apply dict_mem_false in Hk.
      apply Hk. by apply list_elem_of_In.
    + apply NoDup_singleton.
  - intros k' c [Hin|[[= <- <-]|[]]]%in_app_or.
    + destruct (Hc k' c Hin) as (? & ? & m & Hm & ? & ?).
      split; [done|]. split; [done|]. exists m. split; [|done].
      rewrite lookup_app_l; [done|]. by eapply lookup_lt_Some.
    + split; [done|]. split; [done|]. exists nd. by rewrite lookup_snoc.
Qed.

(** Symbolic execution of an operation: unfold the computation and use
    what is known of the store. *)
Ltac run :=
  unfold bind, ret, gets, modify, lift, now, get_current_node, FileNode_init,
    update_access_time, update_node, node, bump, set_heap, set_ticks,
    set_stats, set_current_directory; cbn.
Ltac run_node H := run; rewrite ?H; cbn.

(** The case of an operation that returns without touching the engine. *)
Ltac unchanged :=
  split; [reflexivity|]; split; [assumption|];
  split; [reflexivity|]; split; [reflexivity|]; reflexivity.

Lemma create_file_spec filename text fs :
  wf fs ->
  exists ok msg fs',
    create_file filename text fs = Some ((ok, msg), fs')
    /\ wf fs' /\ root fs' = root fs
    /\ current_directory fs' = current_directory fs
    /\ if ok then
         exists cur nd,
           heap fs !! current_directory fs = Some cur
           /\ dict_mem filename (children cur) = false
           /\ fst (validate_filename filename) = true
           /\ heap fs' =
                <[current_directory fs :=
                    set_children (children cur ++ [(filename, length (heap fs))]) cur]>
                  (heap fs ++ [nd])
           /\ name nd = filename /\ is_directory nd = false
           /\ parent nd = Some (current_directory fs) /\ children nd = []
           /\ content nd = text /\ size nd = PyStr.utf8_len text
           /\ stats fs' =
                mkStats (files_created (stats fs) + 1) (files_deleted (stats fs))
                  (directories_created (stats fs))
                  (directories_deleted (stats fs))
                  (total_operations (stats fs) + 1)
       else fs' = fs.
Proof.
  intros Hwf. pose proof Hwf as [Hs (cur & Hcur & Hdir) Hm].
  unfold create_file.
  destruct (validate_filename filename) as [[] emsg] eqn:V; cbn [negb].
  2: { exists false, emsg, fs. unchanged. }
  run_node Hcur. rewrite Hdir. cbn.
  destruct (dict_mem filename (children cur)) eqn:Hmem.
  { eexists false, _, fs. unchanged. }
  pose proof (lookup_lt_Some _ _ _ Hcur) as Hlt.
  cbn. repeat (rewrite ?lookup_snoc, ?insert_snoc; cbn).
  rewrite lookup_app_l by done. rewrite Hcur. cbn.
  match goal with |- context [save_changes ?s] => set (fs1 := s) end.
  assert (wf fs1) as Hwf1.
  { subst fs1. split; cbn.
    - eapply store_ok_insert.
      + eapply store_ok_alloc; [exact Hs|exact Hlt|reflexivity|reflexivity].
      + rewrite lookup_app_l by done. exact Hcur.
      + done.
      + apply children_ok_link; try done. * apply Hs.
        * by eapply validate_filename_segment.
    - eapply cursor_ok_insert; [|rewrite lookup_app_l by done; exact Hcur|done].
      apply cursor_ok_alloc. by exists cur.
    - done. }
  destruct (save_changes_wf fs1 Hwf1) as (fs' & Hsave & Hwf' & Hh & Hr & Hcd & Hst).
  rewrite Hsave. cbn.
  eexists true, _, fs'. split; [reflexivity|]. split; [done|].
  split; [by rewrite Hr|]. split; [by rewrite Hcd|].
  eexists cur, _. split; [done|]. split; [done|]. split; [done|].
  split. { rewrite Hh. subst fs1. cbn. rewrite dict_set_new by done. reflexivity. }
  cbn. repeat split; try reflexivity. rewrite Hst. reflexivity.
Qed.


Lemma create_directory_spec dirname fs :
  wf fs ->
  exists ok msg fs',
    create_directory dirname fs = Some ((ok, msg), fs')
    /\ wf fs' /\ root fs' = root fs
    /\ current_directory fs' = current_directory fs
    /\ if ok then
         exists cur nd,
           heap fs !! current_directory fs = Some cur
           /\ dict_mem dirname (children cur) = false
           /\ fst (validate_filename dirname) = true
           /\ heap fs' =
                <[current_directory fs :=
                    set_children (children cur ++ [(dirname, length (heap fs))]) cur]>
                  (heap fs ++ [nd])
           /\ name nd = dirname /\ is_directory nd = true
           /\ parent nd = Some (current_directory fs) /\ children nd = []
           /\ stats fs' =
                mkStats (files_created (stats fs)) (files_deleted (stats fs))
                  (directories_created (stats fs) + 1)
                  (directories_deleted (stats fs))
                  (total_operations (stats fs) + 1)
       else fs' = fs.
Proof.
  intros Hwf. pose proof Hwf as [Hs (cur & Hcur & Hdir) Hm].
  unfold create_directory.
  destruct (validate_filename dirname) as [[] emsg] eqn:V; cbn [negb].
  2: { exists false, emsg, fs. unchanged. }
  run_node Hcur. rewrite Hdir. cbn.
  destruct (dict_mem dirname (children cur)) eqn:Hmem.
  { eexists false, _, fs. unchanged. }
  pose proof (lookup_lt_Some _ _ _ Hcur) as Hlt.
  cbn. rewrite lookup_app_l by done. rewrite Hcur. cbn.
  match goal with |- context [save_changes ?s] => set (fs1 := s) end.
  assert (wf fs1) as Hwf1.
  { subst fs1. split; cbn.
    - eapply store_ok_insert.
      + eapply store_ok_alloc; [exact Hs|exact Hlt|reflexivity|reflexivity].
      + rewrite lookup_app_l by done. exact Hcur.
      + done.
      + apply children_ok_link; try done. * apply Hs.
        * by eapply validate_filename_segment.
    - eapply cursor_ok_insert; [|rewrite lookup_app_l by done; exact Hcur|done].
      apply cursor_ok_alloc. by exists cur.
    - done. }
  destruct (save_changes_wf fs1 Hwf1) as (fs' & Hsave & Hwf' & Hh & Hr & Hcd & Hst).
  rewrite Hsave. cbn.
  eexists true, _, fs'. split; [reflexivity|]. split; [done|].
  split; [by rewrite Hr|]. split; [by rewrite Hcd|].
  eexists cur, _. split; [done|]. split; [done|]. split; [done|].
  split. { rewrite Hh. subst fs1. cbn. rewrite dict_set_new by done. reflexivity. }
  cbn. repeat split; try reflexivity. rewrite Hst. reflexivity.
Qed.

(** Rewriting the data of one object keeps the store well formed. *)
Lemma store_ok_touch h r a n n' :
  store_ok h r -> h !! a = Some n -> same_links n n' ->
  children n' = children n -> store_ok (<[a := n']> h) r.
Proof.
  intros Hs Ha Hl Hc. eapply store_ok_insert; try done.
  destruct (so_children _ _ Hs a n Ha) as (Hf & Hnd & Hch).
  destruct Hl as (_ & _ & Hd).
  unfold children_ok. rewrite Hc. split; [|done]. intros H. apply Hf. congruence.
Qed.

Lemma wf_touch fs a n n' t hf ft s :
  wf fs -> heap fs !! a = Some n -> same_links n n' ->
  children n' = children n ->
  wf (mkFileSystem (<[a := n']> (heap fs)) t hf ft (metadata fs) (root fs)
        (current_directory fs) s).
Proof.
  intros [Hs Hc Hm] Ha Hl Hch. split; cbn; [by eapply store_ok_touch| |done].
  eapply cursor_ok_insert; [done..|]. apply Hl.
Qed.

(** The child named [filename] of the current directory, if any. *)
Lemma child_lookup fs cur filename a :
  wf fs -> heap fs !! current_directory fs = Some cur ->
  dict_get filename (children cur) = Some a ->
  exists nd, heap fs !! a = Some nd /\ name nd = filename
             /\ parent nd = Some (current_directory fs)
             /\ (current_directory fs < a)%nat.
Proof.
  intros [Hs _ _] Hcur Hget.
  destruct (so_children _ _ Hs _ _ Hcur) as (_ & _ & Hc).
  destruct (Hc filename a (dict_get_In _ _ _ Hget)) as (? & _ & m & ? & ? & ?).
  eauto.
Qed.

Lemma read_file_spec filename fs cur :
  wf fs -> heap fs !! current_directory fs = Some cur ->
  exists ok msg res fs',
    read_file filename fs = Some ((ok, msg, res), fs')
    /\ wf fs' /\ root fs' = root fs
    /\ current_directory fs' = current_directory fs
    /\ match dict_get filename (children cur) with
       | None => ok = false /\ res = None /\ fs' = fs
       | Some a =>
           exists nd, heap fs !! a = Some nd
             /\ if is_directory nd then ok = false /\ res = None /\ fs' = fs
                else ok = true /\ res = Some (content nd)
                     /\ heap fs' =
                          <[a := set_access_count (access_count nd + 1) nd]>
                            (heap fs)
                     /\ stats fs' =
                          mkStats (files_created (stats fs))
                            (files_deleted (stats fs))
                            (directories_created (stats fs))
                            (directories_deleted (stats fs))
                            (total_operations (stats fs) + 1)
       end.
Proof.
  intros Hwf Hcur. pose proof Hwf as [Hs (cur' & Hcur' & Hdir) Hm].
  rewrite Hcur in Hcur'. injection Hcur' as <-.
  unfold read_file. run_node Hcur. rewrite Hdir. cbn.
  unfold dict_mem. destruct (dict_get filename (children cur)) as [a|] eqn:Hget; cbn.
  2: { eexists false, _, None, fs. repeat (split; [done|]). done. }
  destruct (child_lookup fs cur filename a Hwf Hcur Hget) as (nd & Hnd & _).
  rewrite Hnd. cbn. destruct (is_directory nd) eqn:Hd; cbn.
  { eexists false, _, None, fs. repeat (split; [done|]). exists nd. rewrite Hd. done. }
  rewrite Hnd. cbn.
  match goal with |- context [save_changes ?s] => set (fs1 := s) end.
  assert (wf fs1) as Hwf1 by (by apply (wf_touch fs a nd)).
  destruct (save_changes_wf fs1 Hwf1) as (fs' & Hsave & Hwf' & Hh & Hr & Hcd & Hst).
  rewrite Hsave. cbn. rewrite Hh. subst fs1. cbn.
  rewrite list_lookup_insert_eq by (by eapply lookup_lt_Some). cbn.
  eexists true, _, _, fs'. split; [reflexivity|]. split; [done|].
  split; [by rewrite Hr|]. split; [by rewrite Hcd|].
  exists nd. rewrite Hd. split; [done|]. repeat split; try done.
Qed.


Lemma update_file_spec filename text fs cur :
  wf fs -> heap fs !! current_directory fs = Some cur ->
  exists ok msg fs',
    update_file filename text fs = Some ((ok, msg), fs')
    /\ wf fs' /\ root fs' = root fs
    /\ current_directory fs' = current_directory fs
    /\ match dict_get filename (children cur) with
       | None => ok = false /\ fs' = fs
       | Some a =>
           exists nd, heap fs !! a = Some nd
             /\ if is_directory nd then ok = false /\ fs' = fs
                else exists nd',
                  ok = true /\ heap fs' = <[a := nd']> (heap fs)
                  /\ content nd' = text /\ size nd' = PyStr.utf8_len text
                  /\ same_links nd nd' /\ children nd' = children nd
                  /\ access_count nd' = access_count nd + 1
       end.
Proof.
  intros Hwf Hcur. pose proof Hwf as [Hs (cur' & Hcur' & Hdir) Hm].
  rewrite Hcur in Hcur'. injection Hcur' as <-.
  unfold update_file. run_node Hcur. rewrite Hdir. cbn.
  unfold dict_mem. destruct (dict_get filename (children cur)) as [a|] eqn:Hget; cbn.
  2: { eexists false, _, fs. repeat (split; [done|]). done. }
  destruct (child_lookup fs cur filename a Hwf Hcur Hget) as (nd & Hnd & _).
  pose proof (lookup_lt_Some _ _ _ Hnd) as Hlt.
  rewrite Hnd. cbn. destruct (is_directory nd) eqn:Hd; cbn.
  { eexists false, _, fs. repeat (split; [done|]). exists nd. rewrite Hd. done. }
  rewrite Hnd. cbn.
  repeat (rewrite list_lookup_insert_eq by (rewrite ?length_insert; done); cbn).
  rewrite !list_insert_insert_eq.
  match goal with |- context [save_changes ?s] => set (fs1 := s) end.
  assert (wf fs1) as Hwf1 by (by apply (wf_touch fs a nd)).
  destruct (save_changes_wf fs1 Hwf1) as (fs' & Hsave & Hwf' & Hh & Hr & Hcd & Hst).
  rewrite Hsave. cbn.
  eexists true, _, fs'. split; [reflexivity|]. split; [done|].
  split; [by rewrite Hr|]. split; [by rewrite Hcd|].
  exists nd. rewrite Hd. split; [done|]. eexists. split; [done|].
  split; [rewrite Hh; subst fs1; reflexivity|]. by cbn.
Qed.

Lemma children_ok_unlink h a cur k :
  children_ok h a cur ->
  children_ok h a (set_children (dict_del k (children cur)) cur).
Proof.
  intros (Hf & Hnd & Hc). unfold children_ok, set_children.
  cbn [children is_directory]. split; [|split].
  - intros H. rewrite (Hf H). done.
  - by apply dict_del_NoDup.
  - intros k' c Hin. apply (Hc k' c). by eapply dict_del_In.
Qed.

Lemma delete_file_spec filename fs cur :
  wf fs -> heap fs !! current_directory fs = Some cur ->
  exists ok msg fs',
    delete_file filename fs = Some ((ok, msg), fs')
    /\ wf fs' /\ root fs' = root fs
    /\ current_directory fs' = current_directory fs
    /\ match dict_get filename (children cur) with
       | None => ok = false /\ fs' = fs
       | Some a =>
           exists nd, heap fs !! a = Some nd
             /\ if is_directory nd
                   && match children nd with [] => false | _ => true end
                then ok = false /\ fs' = fs
                else
                  ok = true
                  /\ heap fs' =
                       <[current_directory fs :=
                           set_children (dict_del filename (children cur)) cur]>
                         (heap fs)
                  /\ stats fs' =
                       (if is_directory nd then
                          mkStats (files_created (stats fs))
                            (files_deleted (stats fs))
                            (directories_created (stats fs))
                            (directories_deleted (stats fs) + 1)
                            (total_operations (stats fs) + 1)
                        else
                          mkStats (files_created (stats fs))
                            (files_deleted (stats fs) + 1)
                            (directories_created (stats fs))
                            (directories_deleted (stats fs))
                            (total_operations (stats fs) + 1))
       end.
Proof.
  intros Hwf Hcur. pose proof Hwf as [Hs (cur' & Hcur' & Hdir) Hm].
  rewrite Hcur in Hcur'. injection Hcur' as <-.
  unfold delete_file. run_node Hcur. rewrite Hdir. cbn.
  unfold dict_mem. destruct (dict_get filename (children cur)) as [a|] eqn:Hget; cbn.
  2: { eexists false, _, fs. repeat (split; [done|]). done. }
  destruct (child_lookup fs cur filename a Hwf Hcur Hget) as (nd & Hnd & _).
  rewrite Hnd. cbn.
  assert (forall s,
    wf (mkFileSystem
          (<[current_directory fs :=
               set_children (dict_del filename (children cur)) cur]> (heap fs))
          (ticks fs) (host_file fs) (fat_table fs) (metadata fs) (root fs)
          (current_directory fs) s)) as Hwf1.
  { intros s. split; cbn; [| |done].
    - eapply store_ok_insert; [done..| |]; [done|].
      apply children_ok_unlink. by apply (so_children _ _ Hs).
    - eapply cursor_ok_insert; [by exists cur|done|done]. }
  destruct (is_directory nd) eqn:Hd; destruct (children nd) eqn:Hch; cbn.
  2: { eexists false, _, fs. repeat (split; [done|]). exists nd.
       rewrite Hd, Hch. done. }
  all: rewrite Hcur; cbn.
  all: match goal with |- context [save_changes ?s] => set (fs1 := s) end.
  all: destruct (save_changes_wf fs1 (Hwf1 _))
         as (fs' & Hsave & Hwf' & Hh & Hr & Hcd & Hst).
  all: rewrite Hsave; cbn.
  all: eexists true, _, fs'; split; [reflexivity|]; split; [done|].
  all: split; [by rewrite Hr|]; split; [by rewrite Hcd|].
  all: exists nd; rewrite Hd, Hch; split; [done|].
  all: split; [done|]; split; [by rewrite Hh|]; by rewrite Hst.
Qed.


(** Path resolution only reads the store, and yields a live object. *)
Lemma walk_spec fs parts :
  wf fs -> forall a, is_Some (heap fs !! a) ->
  exists r, walk parts a fs = Some (r, fs)
            /\ forall t, r = Some t -> is_Some (heap fs !! t).
Proof.
  intros [Hs _ _]. induction parts as [|part rest IH]; intros a [n Hn]; cbn.
  - exists (Some a). split; [done|]. intros t [= <-]. eauto.
  - run_node Hn. destruct (String.eqb part "..").
    { destruct (parent n) as [p|] eqn:Hp; [|by apply IH; eauto].
      apply IH. apply lookup_lt_is_Some.
      pose proof (so_parents _ _ Hs a n p Hn Hp).
      apply lookup_lt_Some in Hn. lia. }
    destruct (String.eqb part "."); [by apply IH; eauto|].
    destruct (is_directory n); cbn; [|by exists None].
    unfold dict_mem. destruct (dict_get part (children n)) as [c|] eqn:Hc; cbn;
      [|by exists None].
    apply IH. destruct (so_children _ _ Hs a n Hn) as (_ & _ & Hch).
    destruct (Hch part c (dict_get_In _ _ _ Hc)) as (_ & _ & m & Hm & _). eauto.
Qed.

Lemma get_node_by_path_spec fs path :
  wf fs ->
  exists r, get_node_by_path path fs = Some (r, fs)
            /\ forall t, r = Some t -> is_Some (heap fs !! t).
Proof.
  intros Hwf. pose proof Hwf as [Hs (cur & Hcur & _) _].
  destruct (so_root _ _ Hs) as (rn & Hrn & _).
  unfold get_node_by_path.
  destruct (negb (PyStr.nonempty path) || String.eqb path "/").
  { run. exists (Some (root fs)). split; [done|]. intros t [= <-]. eauto. }
  destruct (PyStr.startswith path "/"); run; apply walk_spec; eauto.
Qed.

Lemma change_directory_spec path fs :
  wf fs ->
  exists ok msg fs',
    change_directory path fs = Some ((ok, msg), fs')
    /\ wf fs' /\ root fs' = root fs
    /\ if ok then
         exists t tn,
           get_node_by_path path fs = Some (Some t, fs)
           /\ heap fs !! t = Some tn /\ is_directory tn = true
           /\ current_directory fs' = t
           /\ heap fs' =
                <[t := set_access_count (access_count tn + 1) tn]> (heap fs)
           /\ stats fs' =
                mkStats (files_created (stats fs)) (files_deleted (stats fs))
                  (directories_created (stats fs))
                  (directories_deleted (stats fs))
                  (total_operations (stats fs) + 1)
       else fs' = fs.
Proof.
  intros Hwf. pose proof Hwf as [Hs Hc Hm].
  destruct (get_node_by_path_spec fs path Hwf) as (r & Hr & Hlive).
  unfold change_directory. unfold bind at 1. rewrite Hr.
  destruct r as [t|];
    [|eexists false, _, fs; split; [reflexivity|]; by repeat (split; [done|])].
  destruct (Hlive t eq_refl) as [tn Htn]. run_node Htn.
  destruct (is_directory tn) eqn:Hd; cbn;
    [|eexists false, _, fs; split; [reflexivity|]; by repeat (split; [done|])].
  rewrite Htn. cbn.
  match goal with |- context [save_changes ?s] => set (fs1 := s) end.
  assert (wf fs1) as Hwf1.
  { subst fs1. split; cbn; [| |done].
    - by apply (store_ok_touch _ _ t tn).
    - exists (set_access_count (access_count tn + 1) tn).
      rewrite list_lookup_insert_eq by (by eapply lookup_lt_Some). done. }
  destruct (save_changes_wf fs1 Hwf1) as (fs' & Hsave & Hwf' & Hh & Hrt & Hcd & Hst).
  rewrite Hsave. cbn.
  destruct Hwf' as [Hs' Hc' Hm'].
  change (current_directory fs1) with t in Hcd.
  destruct (Hc') as (tn' & Htn' & _). rewrite Hcd in Htn'.
  destruct (get_full_path_Some (heap fs') (so_parents _ _ Hs')
              (depth_bound (heap fs')) t tn') as [full Hfull].
  { done. }
  { unfold depth_bound. apply lookup_lt_Some in Htn'. lia. }
  rewrite Hfull. cbn.
  eexists true, _, fs'. split; [reflexivity|]. split; [done|].
  split; [done|]. exists t, tn. repeat (split; [done|]). by rewrite Hst.
Qed.


Lemma copy_file_spec source destination fs :
  wf fs ->
  exists r fs',
    copy_file source destination fs = Some (r, fs')
    /\ wf fs' /\ root fs' = root fs
    /\ current_directory fs' = current_directory fs.
Proof.
  intros Hwf. pose proof Hwf as [_ (cur & Hcur & _) _].
  destruct (read_file_spec source fs cur Hwf Hcur)
    as (ok & msg & res & fs1 & Hread & Hwf1 & Hr1 & Hc1 & Hcase).
  unfold copy_file. unfold bind at 1. rewrite Hread.
  assert (ok = true -> exists text, res = Some text) as Hres.
  { intros ->. destruct (dict_get source (children cur)); [|by destruct Hcase].
    destruct Hcase as (nd & _ & Hcase).
    destruct (is_directory nd); [by destruct Hcase|].
    destruct Hcase as (_ & -> & _). eauto. }
  destruct ok.
  - destruct (Hres eq_refl) as [text ->].
    destruct (create_file_spec destination text fs1 Hwf1)
      as (ok & msg' & fs2 & Hcreate & Hwf2 & Hr2 & Hc2 & _).
    unfold bind at 1. rewrite Hcreate.
    destruct ok; eexists _, fs2; (split; [reflexivity|]);
      (split; [done|]); split; congruence.
  - eexists _, fs1. split; [reflexivity|]. done.
Qed.

(** Every public operation runs to completion on a well-formed engine,
    and leaves it well formed with the same root. *)
Lemma run_operation_spec o fs :
  wf fs ->
  exists fs', run_operation o fs = Some (tt, fs') /\ wf fs'
              /\ root fs' = root fs.
Proof.
  intros Hwf. pose proof Hwf as [_ (cur & Hcur & _) _].
  destruct o as [f c|f|f c|f|d|p|s d]; unfold run_operation, ignore.
  - destruct (create_file_spec f c fs Hwf) as (ok & msg & fs' & H & ? & ? & _).
    unfold bind. rewrite H. eauto.
  - destruct (read_file_spec f fs cur Hwf Hcur)
      as (ok & msg & res & fs' & H & ? & ? & _).
    unfold bind. rewrite H. eauto.
  - destruct (update_file_spec f c fs cur Hwf Hcur)
      as (ok & msg & fs' & H & ? & ? & _).
    unfold bind. rewrite H. eauto.
  - destruct (delete_file_spec f fs cur Hwf Hcur)
      as (ok & msg & fs' & H & ? & ? & _).
    unfold bind. rewrite H. eauto.
  - destruct (create_directory_spec d fs Hwf) as (ok & msg & fs' & H & ? & ? & _).
    unfold bind. rewrite H. eauto.
  - destruct (change_directory_spec p fs Hwf) as (ok & msg & fs' & H & ? & ? & _).
    unfold bind. rewrite H. eauto.
  - destruct (copy_file_spec s d fs Hwf) as (r & fs' & H & ? & ? & _).
    unfold bind. rewrite H. eauto.
Qed.

Lemma store_ok_singleton n :
  name n = "/" -> is_directory n = true -> parent n = None ->
  children n = [] -> store_ok [n] 0.
Proof.
  intros Hn Hd Hp Hc.
  assert (forall a m, [n] !! a = Some m -> a = 0%nat /\ m = n) as Hone.
  { intros [|a] m H; [by injection H as <-|]. by destruct a. }
  split.
  - intros a m [-> ->]%Hone. unfold children_ok. rewrite Hc.
    split; [done|]. split; [constructor|]. intros ? ? [].
  - intros a m p [-> ->]%Hone. congruence.
  - by exists n.
  - by intros a m [-> ->]%Hone.
Qed.

(** A fresh engine: one directory, the root, which is also the current
    directory, and counters at zero. *)
Lemma FileSystem_init_fresh t0 :
  exists fs, FileSystem_init Absent t0 = Some fs /\ wf fs
             /\ current_directory fs = root fs /\ stats fs = stats0
             /\ exists n, heap fs = [n].
Proof.
  unfold FileSystem_init, VirtualDisk_init, load_disk, create_empty_fat,
    save_disk, build_tree_from_fat, blank. run.
  unfold populate_node. run. unfold populate_dates_now. run.
  destruct (fromisoformat (isoformat (clock (S (S t0)))));
    [destruct (fromisoformat (isoformat (clock (S (S (S t0))))))|]; cbn.
  all: eexists; split; [reflexivity|]; cbn.
  all: split; [|by eauto].
  all: split; cbn; [by apply store_ok_singleton|by eexists|by eexists].
Qed.

Theorem reachable_wf fs : reachable fs -> wf fs.
Proof.
  induction 1 as [t0 fs Hinit|o fs fs' _ IH Hstep].
  - destruct (FileSystem_init_fresh t0) as (fs0 & H0 & Hwf & _).
    congruence.
  - destruct (run_operation_spec o fs IH) as (fs1 & H1 & Hwf & _).
    congruence.
Qed.

(** The root reference of an engine never changes. *)
Lemma run_operation_root o fs fs' :
  wf fs -> run_operation o fs = Some (tt, fs') -> root fs' = root fs.
Proof.
  intros Hwf H. destruct (run_operation_spec o fs Hwf) as (fs1 & H1 & _ & Hr).
  congruence.
Qed.


(** * The properties of the specification *)

(** C10: [file_exists] answers whether the name is a key of the current
    directory's [children], whatever the kind of the child; in particular it
    answers true for the name of a sub-directory. *)
Theorem file_exists_is_membership fs filename cur :
  heap fs !! current_directory fs = Some cur ->
  exists b,
    file_exists filename fs = Some (b, fs)
    /\ (b = true <-> In filename (keys (children cur)))
    /\ (forall a nd, dict_get filename (children cur) = Some a ->
          heap fs !! a = Some nd -> is_directory nd = true -> b = true).
Proof.
  intros Hcur. exists (dict_mem filename (children cur)).
  split; [|split].
  - unfold file_exists. run_node Hcur. done.
  - apply dict_mem_true.
  - intros a nd Hget _ _. unfold dict_mem. by rewrite Hget.
Qed.

(** C6: once [create_file name text] has succeeded, [read_file name] from the
    same current directory succeeds and returns exactly [text]. *)
Theorem read_after_create fs filename text msg fs1 :
  reachable fs ->
  create_file filename text fs = Some ((true, msg), fs1) ->
  exists msg' fs2, read_file filename fs1 = Some ((true, msg', Some text), fs2).
Proof.
  intros Hwf%reachable_wf Hcreate.
  destruct (create_file_spec filename text fs Hwf)
    as (ok & m & fs1' & H & Hwf1 & Hr & Hc & Hcase).
  rewrite Hcreate in H. injection H as <- <- <-.
  destruct Hcase as (cur & nd & Hcur & Hmem & _ & Hheap & Hn & Hd & Hp & Hch & Hct & _).
  pose proof (lookup_lt_Some _ _ _ Hcur) as Hlt.
  set (cur1 := set_children (children cur ++ [(filename, length (heap fs))]) cur).
  assert (heap fs1 !! current_directory fs1 = Some cur1) as Hcur1.
  { rewrite Hheap, Hc. apply list_lookup_insert_eq. rewrite length_app. lia. }
  destruct (read_file_spec filename fs1 cur1 Hwf1 Hcur1)
    as (ok & m' & res & fs2 & Hread & _ & _ & _ & Hcase).
  assert (dict_get filename (children cur1) = Some (length (heap fs))) as Hget.
  { apply In_dict_get.
    - destruct (wf_store _ Hwf1) as [Hok _ _ _].
      by destruct (Hok _ _ Hcur1) as (_ & ? & _).
    - subst cur1. cbn. apply in_or_app. right. by left. }
  rewrite Hget in Hcase. destruct Hcase as (nd' & Hnd' & Hcase).
  rewrite Hheap in Hnd'. rewrite list_lookup_insert_ne in Hnd' by lia.
  rewrite lookup_snoc in Hnd'. injection Hnd' as <-.
  rewrite Hd in Hcase. destruct Hcase as (-> & -> & _).
  rewrite Hct in Hread. eauto.
Qed.


(** C7: applying [update_file F text] twice in a row leaves [F] with the
    content and the size it had after the first application. *)
Theorem update_file_idempotent fs filename text cur a nd :
  reachable fs ->
  heap fs !! current_directory fs = Some cur ->
  dict_get filename (children cur) = Some a ->
  heap fs !! a = Some nd -> is_directory nd = false ->
  exists msg1 fs1 msg2 fs2 nd1 nd2,
    update_file filename text fs = Some ((true, msg1), fs1)
    /\ update_file filename text fs1 = Some ((true, msg2), fs2)
    /\ heap fs1 !! a = Some nd1 /\ heap fs2 !! a = Some nd2
    /\ content nd1 = text /\ size nd1 = PyStr.utf8_len text
    /\ content nd2 = content nd1 /\ size nd2 = size nd1.
Proof.
  intros Hwf%reachable_wf Hcur Hget Hnd Hd.
  pose proof (lookup_lt_Some _ _ _ Hnd) as Hlt.
  destruct (child_lookup fs cur filename a Hwf Hcur Hget) as (_ & _ & _ & _ & Hlt').
  destruct (update_file_spec filename text fs cur Hwf Hcur)
    as (ok1 & msg1 & fs1 & H1 & Hwf1 & _ & Hc1 & Hcase1).
  rewrite Hget in Hcase1. destruct Hcase1 as (nd0 & Hnd0 & Hcase1).
  rewrite Hnd in Hnd0. injection Hnd0 as <-. rewrite Hd in Hcase1.
  destruct Hcase1 as (nd1 & -> & Hh1 & Hct1 & Hsz1 & Hl1 & Hch1 & _).
  assert (heap fs1 !! a = Some nd1) as Hnd1.
  { rewrite Hh1. by apply list_lookup_insert_eq. }
  assert (heap fs1 !! current_directory fs1 = Some cur) as Hcur1.
  { rewrite Hh1, Hc1. rewrite list_lookup_insert_ne by lia. done. }
  destruct (update_file_spec filename text fs1 cur Hwf1 Hcur1)
    as (ok2 & msg2 & fs2 & H2 & _ & _ & _ & Hcase2).
  rewrite Hget in Hcase2. destruct Hcase2 as (nd1' & Hnd1' & Hcase2).
  rewrite Hnd1 in Hnd1'. injection Hnd1' as <-.
  destruct Hl1 as (_ & _ & Hd1). rewrite Hd1, Hd in Hcase2.
  destruct Hcase2 as (nd2 & -> & Hh2 & Hct2 & Hsz2 & _).
  exists msg1, fs1, msg2, fs2, nd1, nd2. repeat (split; [done|]).
  split; [|repeat split; congruence].
  rewrite Hh2. apply list_lookup_insert_eq. by eapply lookup_lt_Some.
Qed.

(** A dictionary of children holds an object under one key only. *)
Lemma child_key_unique h a n k k' c :
  heap_ok h -> h !! a = Some n ->
  In (k, c) (children n) -> In (k', c) (children n) -> k = k'.
Proof.
  intros Hok Ha H1 H2. destruct (Hok a n Ha) as (_ & _ & Hc).
  destruct (Hc k c H1) as (_ & _ & m & Hm & Hn & _).
  destruct (Hc k' c H2) as (_ & _ & m' & Hm' & Hn' & _). congruence.
Qed.

(** C4: deleting a sub-directory [D] of the current directory fails exactly
    when [D] has a child; a failed deletion changes nothing, and a
    successful one removes [D] from the [children] of its parent. *)
Theorem delete_directory_iff_empty fs dirname cur d D :
  reachable fs ->
  heap fs !! current_directory fs = Some cur ->
  dict_get dirname (children cur) = Some d ->
  heap fs !! d = Some D -> is_directory D = true ->
  exists ok msg fs',
    delete_file dirname fs = Some ((ok, msg), fs')
    /\ (ok = false <-> children D <> [])
    /\ (ok = false -> fs' = fs)
    /\ (ok = true ->
        exists cur',
          heap fs' !! current_directory fs = Some cur'
          /\ current_directory fs' = current_directory fs
          /\ dict_get dirname (children cur') = None
          /\ (forall k, ~ In (k, d) (children cur'))
          /\ (forall k c, In (k, c) (children cur') -> In (k, c) (children cur))).
Proof.
  intros Hwf%reachable_wf Hcur Hget HD Hd.
  destruct (delete_file_spec dirname fs cur Hwf Hcur)
    as (ok & msg & fs' & H & Hwf' & _ & Hc & Hcase).
  rewrite Hget in Hcase. destruct Hcase as (D' & HD' & Hcase).
  rewrite HD in HD'. injection HD' as <-. rewrite Hd in Hcase.
  exists ok, msg, fs'. split; [done|].
  destruct (children D) eqn:Hch; cbn in Hcase.
  - destruct Hcase as (-> & Hh & _). split; [done|]. split; [done|]. intros _.
    exists (set_children (dict_del dirname (children cur)) cur).
    pose proof (wf_store _ Hwf) as [Hok _ _ _].
    destruct (Hok _ _ Hcur) as (_ & Hnd & _).
    split. { rewrite Hh. apply list_lookup_insert_eq. by eapply lookup_lt_Some. }
    split; [done|]. cbn. split; [|split].
    + apply dict_get_None. by apply dict_del_gone.
    + intros k Hin. pose proof (dict_del_In _ _ _ _ Hin) as Hin'.
      pose proof (dict_get_In _ _ _ Hget) as Hin0.
      rewrite (child_key_unique _ _ _ _ _ _ Hok Hcur Hin' Hin0) in Hin.
      apply (dict_del_gone dirname (children cur) Hnd).
      unfold keys. apply in_map_iff. by exists (dirname, d).
    + intros k c. apply dict_del_In.
  - destruct Hcase as (-> & ->). done.
Qed.


(** C9: in every reachable state there is one root, a directory without a
    parent; every operation runs, keeps the root reference and leaves the
    root a parentless directory; and a successful deletion removes an
    object other than the root. *)
Theorem root_is_permanent fs :
  reachable fs ->
  root_ok (heap fs) (root fs)
  /\ one_root (heap fs) (root fs)
  /\ (forall o, exists fs',
        run_operation o fs = Some (tt, fs') /\ root fs' = root fs
        /\ root_ok (heap fs') (root fs') /\ one_root (heap fs') (root fs'))
  /\ (forall filename msg fs',
        delete_file filename fs = Some ((true, msg), fs') ->
        exists cur d,
          heap fs !! current_directory fs = Some cur
          /\ dict_get filename (children cur) = Some d
          /\ d <> root fs
          /\ heap fs' =
               <[current_directory fs :=
                   set_children (dict_del filename (children cur)) cur]>
                 (heap fs)).
Proof.
  intros Hwf%reachable_wf. pose proof Hwf as [Hs (cur & Hcur & _) _].
  split; [apply Hs|]. split; [apply Hs|]. split.
  - intros o. destruct (run_operation_spec o fs Hwf) as (fs' & H & [Hs' _ _] & Hr).
    exists fs'. split; [done|]. split; [done|]. split; apply Hs'.
  - intros filename msg fs' Hdel.
    destruct (delete_file_spec filename fs cur Hwf Hcur)
      as (ok & msg' & fs1 & H & _ & _ & _ & Hcase).
    rewrite Hdel in H. injection H as <- <- <-.
    exists cur. destruct (dict_get filename (children cur)) as [d|] eqn:Hget;
      [|by destruct Hcase].
    exists d. split; [done|]. split; [done|].
    destruct Hcase as (nd & Hnd & Hcase).
    destruct (child_lookup fs cur filename d Hwf Hcur Hget)
      as (nd' & Hnd' & _ & Hp & _).
    split.
    + intros ->. destruct (so_root _ _ Hs) as (rn & Hrn & _ & _ & Hrp). congruence.
    + destruct (is_directory nd && _); [by destruct Hcase|]. by destruct Hcase as (_ & ? & _).
Qed.

Lemma segment_name_inv a :
  segment_name a = true ->
  PyStr.nonempty a = true /\ PyStr.contains "/" a = false
  /\ String.eqb a "." = false /\ String.eqb a ".." = false.
Proof.
  unfold segment_name. intros H.
  apply andb_true_iff in H as [H H4]. apply andb_true_iff in H as [H H3].
  apply andb_true_iff in H as [H1 H2].
  apply negb_true_iff in H2, H3, H4. done.
Qed.

Lemma path_parts_segment a : segment_name a = true -> path_parts a = [a].
Proof.
  intros (Hne & Hsl & _)%segment_name_inv. unfold path_parts.
  rewrite PyStrFacts.split_no_sep by done. cbn. by rewrite Hne.
Qed.

Lemma path_parts_up_down a :
  segment_name a = true -> path_parts (a +:+ "/../" +:+ a) = [a; ".."; a].
Proof.
  intros (Hne & Hsl & _)%segment_name_inv. unfold path_parts.
  change (a +:+ "/../" +:+ a) with (a +:+ String "/" (".." +:+ String "/" a)).
  rewrite PyStrFacts.split_app by done.
  rewrite (PyStrFacts.split_app "/" ".." a) by done.
  rewrite PyStrFacts.split_no_sep by done. cbn. by rewrite Hne.
Qed.

Lemma relative_path a rest :
  segment_name a = true ->
  negb (PyStr.nonempty (a +:+ rest)) || String.eqb (a +:+ rest) "/" = false
  /\ PyStr.startswith (a +:+ rest) "/" = false.
Proof.
  intros (Hne & Hsl & _)%segment_name_inv.
  destruct a as [|x a]; [done|]. cbn [PyStr.contains] in Hsl.
  apply orb_false_iff in Hsl as [Hx _].
  change (String x a +:+ rest) with (String x (a +:+ rest)).
  cbn [PyStr.nonempty negb orb]. split.
  - cbn [String.eqb]. by rewrite (Ascii.eqb_sym x "/"), Hx.
  - unfold PyStr.startswith. cbn [String.prefix].
    destruct (ascii_dec "/" x) as [<-|]; [|done].
    by rewrite Ascii.eqb_refl in Hx.
Qed.

Lemma append_empty_r s : s +:+ EmptyString = s.
Proof. induction s; cbn; unfold String.append in *; cbn; [done|]. by f_equal. Qed.

(** C8: from a directory that has a child named [a], the paths [a/../a] and
    [a] resolve to the same object; and a [..] segment read at the root stays
    at the root. *)
Theorem resolve_up_down fs a cur c :
  reachable fs ->
  heap fs !! current_directory fs = Some cur ->
  dict_get a (children cur) = Some c ->
  get_node_by_path (a +:+ "/../" +:+ a) fs = Some (Some c, fs)
  /\ get_node_by_path a fs = Some (Some c, fs)
  /\ walk [".."] (root fs) fs = Some (Some (root fs), fs)
  /\ get_node_by_path "/.." fs = Some (Some (root fs), fs).
Proof.
  intros Hwf%reachable_wf Hcur Hget.
  pose proof Hwf as [Hs (cur' & Hcur' & Hdir) _].
  rewrite Hcur in Hcur'. injection Hcur' as <-.
  destruct (so_children _ _ Hs _ _ Hcur) as (_ & _ & Hch).
  destruct (Hch a c (dict_get_In _ _ _ Hget)) as (_ & Hseg & m & Hm & _ & Hp).
  pose proof (segment_name_inv a Hseg) as (_ & _ & Hdot & Hdots).
  destruct (so_root _ _ Hs) as (rn & Hrn & _ & _ & Hrp).
  assert (forall rest, walk (a :: rest) (current_directory fs) fs = walk rest c fs)
    as Hdown.
  { intros rest. cbn. run_node Hcur. rewrite Hdots, Hdot, Hdir. cbn.
    unfold dict_mem. rewrite Hget. cbn. done. }
  assert (forall rest,
            walk (".." :: rest) c fs = walk rest (current_directory fs) fs)
    as Hup.
  { intros rest. cbn. run_node Hm. by rewrite Hp. }
  assert (forall rest,
            walk (".." :: rest) (root fs) fs = walk rest (root fs) fs)
    as Hclamp.
  { intros rest. cbn. run_node Hrn. by rewrite Hrp. }
  split; [|split; [|split]].
  - unfold get_node_by_path.
    destruct (relative_path a ("/../" +:+ a) Hseg) as [-> ->].
    unfold bind, gets. cbv beta iota.
    rewrite path_parts_up_down by done. by rewrite Hdown, Hup, Hdown.
  - unfold get_node_by_path.
    destruct (relative_path a EmptyString Hseg) as [H1 H2].
    rewrite append_empty_r in H1, H2. rewrite H1, H2.
    unfold bind, gets. cbv beta iota.
    rewrite path_parts_segment by done. by rewrite Hdown.
  - by rewrite Hclamp.
  - unfold get_node_by_path.
    change (path_parts "/..") with [".."].
    change (negb (PyStr.nonempty "/..") || String.eqb "/.." "/") with false.
    change (PyStr.startswith "/.." "/") with true.
    unfold bind, gets. cbv beta iota. by rewrite Hclamp.
Qed.


(** [get_size_recursive] computes the sum of the sizes of the files below. *)
Lemma sum_children_concat (g : nat -> option Z) (f : nat -> option (list nat))
    h cs total :
  (forall c, g c = option_map (sum_of_sizes h) (f c)) ->
  sum_children g cs total =
  option_map (fun l => total + sum_of_sizes h l) (concat_children f cs).
Proof.
  intros Hg. revert total.
  induction cs as [|[k c] cs IH]; intros total; cbn; [f_equal; lia|].
  rewrite Hg. destruct (f c) as [l|]; cbn; [|done].
  rewrite IH. destruct (concat_children f cs) as [l'|]; cbn; [|done].
  f_equal. unfold sum_of_sizes. rewrite fold_right_app.
  induction l as [|x l IHl]; cbn; lia.
Qed.

Lemma get_size_recursive_files h f a :
  get_size_recursive h f a = option_map (sum_of_sizes h) (files_below h f a).
Proof.
  revert a. induction f as [|f IH]; intros a; [done|].
  cbn [files_below]. unfold get_size_recursive. fold (get_size_recursive h f).
  destruct (h !! a) as [n|] eqn:Ha; [|done].
  destruct (is_directory n); cbn.
  - rewrite (sum_children_concat _ (files_below h f) h) by apply IH.
    destruct (concat_children _ _); cbn; [f_equal; lia|done].
  - unfold sum_of_sizes, stored_size. cbn. rewrite Ha. f_equal. lia.
Qed.

(** C5, as the code has it: for a sub-directory, [get_file_info] reports the
    sum of the sizes of the files below it in [size_recursive], computed at
    the call; [size] is the size stored in the directory object. *)
Theorem get_file_info_directory fs dirname cur a nd :
  reachable fs ->
  heap fs !! current_directory fs = Some cur ->
  dict_get dirname (children cur) = Some a ->
  heap fs !! a = Some nd -> is_directory nd = true ->
  exists msg info files,
    get_file_info dirname fs = Some ((true, msg, Some info), fs)
    /\ info_type info = "directory"
    /\ files_below (heap fs) (depth_bound (heap fs)) a = Some files
    /\ info_size_recursive info = sum_of_sizes (heap fs) files
    /\ info_size info = size nd.
Proof.
  intros Hwf%reachable_wf Hcur Hget Hnd Hd.
  pose proof Hwf as [Hs _ _].
  pose proof (lookup_lt_Some _ _ _ Hnd) as Hlt.
  destruct (get_full_path_Some (heap fs) (so_parents _ _ Hs)
              (depth_bound (heap fs)) a nd Hnd) as [full Hfull];
    [unfold depth_bound; lia|].
  destruct (get_size_recursive_Some (heap fs) (so_children _ _ Hs)
              (depth_bound (heap fs)) a nd Hnd) as [total Htotal];
    [unfold depth_bound; lia|].
  pose proof Htotal as Hfiles. rewrite get_size_recursive_files in Hfiles.
  destruct (files_below (heap fs) (depth_bound (heap fs)) a) as [files|];
    [|done].
  injection Hfiles as Hfiles.
  unfold get_file_info. run_node Hcur. unfold dict_mem. rewrite Hget. cbn.
  rewrite Hnd. cbn. rewrite Hfull. cbn. rewrite Htotal. cbn. rewrite Hd.
  eexists _, _, files. split; [reflexivity|]. cbn. done.
Qed.

(** C2, as the code has it: the snapshot written by a save holds the node
    graph and the disk metadata, and is the same whatever the current
    directory and the counters are; a new engine built from it starts at the
    root with its counters at zero. *)
Theorem snapshot_holds_graph_only fs fs1 t fs2 :
  reachable fs ->
  save_changes fs = Some (tt, fs1) ->
  FileSystem_init (host_file fs1) t = Some fs2 ->
  (exists j md,
     node_to_dict (heap fs) (depth_bound (heap fs)) (root fs) = Some j
     /\ host_file fs1 =
          Stored (JObj [("fat_table", JObj [("/", j)]); ("metadata", JObj md)]))
  /\ (forall c s,
        option_map (fun r => host_file (snd r))
          (save_changes (set_current_directory c (set_stats s fs)))
        = Some (host_file fs1))
  /\ current_directory fs2 = root fs2
  /\ stats fs2 = stats0.
Proof.
  intros Hwf%reachable_wf Hsave Hinit. pose proof Hwf as [Hs _ Hm].
  destruct (save_changes_spec fs) as (j & md & fs1' & H & Hj & _ & _ & _ & _ & _ & Hhost & _).
  { apply Hs. }
  { destruct (so_root _ _ Hs) as (n & Hn & _). eauto. }
  { done. }
  rewrite Hsave in H. injection H as <-.
  split; [by exists j, md|]. split.
  - intros c s. revert Hsave.
    unfold save_changes, update_fat_from_tree, save_disk. run.
    destruct (node_to_dict _ _ _); cbn; [|done].
    destruct (metadata fs); cbn; try done. by intros [= <-].
  - revert Hinit. unfold FileSystem_init. run.
    repeat case_match; try done. intros [= <-]. by simplify_eq/=.
Qed.


(** ** The persistence codec *)

(** With distinct keys, the serialised children are the children in order,
    each with its own serialisation. *)
Lemma children_to_dict_spec (g : nat -> option json) cs acc items :
  NoDup (keys acc ++ keys cs) ->
  children_to_dict g cs acc = Some items ->
  exists items',
    items = acc ++ items'
    /\ Forall2 (fun kc it => fst it = fst kc /\ g (snd kc) = Some (snd it))
         cs items'.
Proof.
  revert acc. induction cs as [|[k c] cs IH]; intros acc Hnd; cbn.
  - intros [= <-]. exists []. by rewrite app_nil_r.
  - destruct (g c) as [j|] eqn:Hg; [|done]. intros H.
    assert (dict_mem k acc = false) as Hk.
    { apply dict_mem_false. intros Hin. cbn in Hnd.
      apply NoDup_app in Hnd as (_ & Hdis & _).
      apply (Hdis k); [by apply list_elem_of_In|]. by left. }
    rewrite (dict_set_new k j acc Hk) in H.
    destruct (IH (acc ++ [(k, j)])) with (2 := H) as (items' & -> & HF).
    { rewrite keys_app. cbn. rewrite <- app_assoc. exact Hnd. }
    exists ((k, j) :: items'). split; [by rewrite <- app_assoc|].
    by constructor.
Qed.

Lemma node_to_dict_inv h f a j :
  heap_ok h -> node_to_dict h f a = Some j ->
  exists f' n cs,
    f = S f' /\ h !! a = Some n /\ j = node_dict n cs
    /\ Forall2 (fun kc it =>
                  fst it = fst kc /\ node_to_dict h f' (snd kc) = Some (snd it))
         (children n) cs.
Proof.
  intros Hok. destruct f as [|f']; [done|].
  unfold node_to_dict. fold (node_to_dict h f').
  destruct (h !! a) as [n|] eqn:Ha; [|done].
  destruct (Hok a n Ha) as (Hfile & Hnd & _).
  destruct (is_directory n) eqn:Hd.
  - destruct (children_to_dict _ _ _) as [cs|] eqn:Hcs; [|done].
    intros [= <-]. exists f', n, cs. split; [done|]. split; [done|].
    split; [unfold node_dict; by rewrite Hd|].
    apply children_to_dict_spec in Hcs as (items' & -> & HF); done.
  - intros [= <-]. exists f', n, []. split; [done|]. split; [done|].
    split; [unfold node_dict; by rewrite Hd|]. rewrite (Hfile eq_refl). constructor.
Qed.

Lemma json_depth_child n cs k jc pf :
  In (k, jc) cs -> (json_depth (node_dict n cs) <= S pf)%nat ->
  (json_depth jc <= pf)%nat.
Proof.
  intros Hin Hd.
  assert (json_depth jc <= list_max (map (fun kv => json_depth (snd kv)) cs))%nat.
  { assert (Forall (fun x => x <= list_max (map (fun kv => json_depth (snd kv)) cs))%nat
              (map (fun kv => json_depth (snd kv)) cs)) as HF
      by (by apply list_max_le).
    rewrite Forall_forall in HF. apply HF. apply list_elem_of_In.
    apply in_map_iff. by exists (k, jc). }
  unfold node_dict in Hd. cbn [json_depth map snd list_max fold_right] in Hd.
  lia.
Qed.

(** ** Isomorphism *)

Lemma iso_at_frame f h h1 h2 lo p p' a a' :
  iso_at f h h1 lo p p' a a' ->
  (forall b, (lo <= b)%nat -> (b < length h1)%nat -> h2 !! b = h1 !! b) ->
  iso_at f h h2 lo p p' a a'.
Proof.
  revert p p' a a'. induction f as [|f IH]; intros p p' a a'; [done|].
  intros (n & n' & Hn & Hn' & Hsame & Hp & Hp' & Hlo & Hch) Hagree.
  exists n, n'. repeat (split; [done|]). split.
  { rewrite Hagree; [done..|]. by eapply lookup_lt_Some. }
  repeat (split; [done|]).
  eapply Forall2_impl; [exact Hch|]. intros kc kc' [Hk Hiso].
  split; [done|]. by apply IH.
Qed.

Lemma iso_at_lower f h h' lo lo' p p' a a' :
  iso_at f h h' lo p p' a a' -> (lo' <= lo)%nat ->
  iso_at f h h' lo' p p' a a'.
Proof.
  revert p p' a a'. induction f as [|f IH]; intros p p' a a'; [done|].
  intros (n & n' & Hn & Hn' & Hsame & Hp & Hp' & Hlo & Hch) Hle.
  exists n, n'. repeat (split; [done|]). split; [lia|].
  eapply Forall2_impl; [exact Hch|]. intros kc kc' [Hk Hiso].
  split; [done|]. by apply IH.
Qed.

Lemma iso_at_isomorphic f h h' lo p p' a a' :
  iso_at f h h' lo p p' a a' -> isomorphic h h' p p' a a'.
Proof.
  revert p p' a a'. induction f as [|f IH]; intros p p' a a'; [done|].
  intros (n & n' & Hn & Hn' & Hsame & Hp & Hp' & Hlo & Hch).
  eapply iso_node; try done.
  eapply Forall2_impl; [exact Hch|]. intros kc kc' [Hk Hiso].
  split; [done|]. by apply IH.
Qed.


Section RoundTrip.

Variable h : list FileNode.
Hypothesis Hok : heap_ok h.
Hypothesis iso_roundtrip : forall d, fromisoformat (isoformat d) = Some d.

Lemma populate_child_spec f pf a a' k c m jc fs ncur :
  populates h f ->
  h !! c = Some m -> name m = k -> parent m = Some a ->
  node_to_dict h f c = Some jc -> (json_depth jc <= pf)%nat ->
  heap fs !! a' = Some ncur -> dict_mem k (children ncur) = false ->
  exists fs',
    populate_child (populate_node pf) a' (k, jc) fs = Some (tt, fs')
    /\ heap fs' !! a' =
         Some (set_children (children ncur ++ [(k, length (heap fs))]) ncur)
    /\ iso_at f h (heap fs') (length (heap fs)) (Some a) (Some a')
         c (length (heap fs))
    /\ (length (heap fs) < length (heap fs'))%nat
    /\ forall b, (b < length (heap fs))%nat -> b <> a' ->
         heap fs' !! b = heap fs !! b.
Proof.
  intros IH Hm Hname Hpar Hjc Hdepth Hcur Hfresh.
  pose proof (lookup_lt_Some _ _ _ Hcur) as Hlt.
  destruct (node_to_dict_inv h f c jc Hok Hjc) as (f' & m' & cs & -> & Hm' & Ejc & _).
  rewrite Hm in Hm'. injection Hm' as <-.
  assert (exists child,
            populate_child (populate_node pf) a' (k, jc) fs =
            populate_node pf (length (heap fs)) jc
              (mkFileSystem
                 (<[a' := set_children (children ncur ++ [(k, length (heap fs))])
                            ncur]> (heap fs ++ [child]))
                 (S (S (ticks fs))) (host_file fs) (fat_table fs) (metadata fs)
                 (root fs) (current_directory fs) (stats fs))
            /\ name child = k /\ is_directory child = is_directory m
            /\ parent child = Some a' /\ children child = [])
    as (child & -> & Hcn & Hcd & Hcp & Hcc).
  { unfold populate_child. cbn [fst snd].
    assert (as_dict jc = Some
              [("name", JStr (name m));
               ("type", JStr (if is_directory m then "directory" else "file"));
               ("size", JInt (size m));
               ("created_at", JStr (isoformat (created_at m)));
               ("modified_at", JStr (isoformat (modified_at m)));
               ("permissions", JStr (permissions m));
               ("access_count", JInt (access_count m));
               ("content", JStr (content m));
               ("children", JObj cs)]) as -> by (by rewrite Ejc).
    run. rewrite lookup_app_l by done. rewrite Hcur. cbn.
    rewrite (dict_set_new k _ _ Hfresh).
    eexists. split; [reflexivity|]. cbn. by destruct (is_directory m). }
  match goal with |- context [populate_node pf _ jc ?s] => set (fs1 := s) end.
  assert (heap fs1 !! length (heap fs) = Some child) as Hchild.
  { subst fs1. cbn. rewrite list_lookup_insert_ne by lia. apply lookup_snoc. }
  destruct (IH c m jc pf fs1 (length (heap fs)) child Hm Hjc Hdepth Hchild)
    as (fs' & Hpop & Hiso & Hlen & Hframe).
  { done. }
  { congruence. }
  { done. }
  assert (length (heap fs1) = S (length (heap fs))) as Hlen1.
  { subst fs1. cbn. rewrite length_insert, length_app. cbn. lia. }
  exists fs'. split; [done|]. split; [|split; [|split]].
  - rewrite Hframe by lia. subst fs1. cbn.
    apply list_lookup_insert_eq. rewrite length_app. lia.
  - rewrite Hpar, Hcp in Hiso. exact Hiso.
  - lia.
  - intros b Hb Hne. rewrite Hframe by lia. subst fs1. cbn.
    rewrite list_lookup_insert_ne by done. by apply lookup_app_l.
Qed.

Lemma set_children_same (n : FileNode) : set_children (children n) n = n.
Proof. by destruct n. Qed.

Lemma populate_children_spec f pf a a' :
  populates h f ->
  forall cs items, 
  Forall2 (fun kc it =>
             fst it = fst kc /\ node_to_dict h f (snd kc) = Some (snd it))
    cs items ->
  forall done fs ncur,
  (forall k c, In (k, c) cs ->
     exists m, h !! c = Some m /\ name m = k /\ parent m = Some a) ->
  (forall k jc, In (k, jc) items -> (json_depth jc <= pf)%nat) ->
  heap fs !! a' = Some ncur ->
  NoDup (keys done ++ keys cs) ->
  Forall2 (fun kc kc' =>
             fst kc = fst kc' /\ (a' < snd kc')%nat
             /\ iso_at f h (heap fs) (snd kc') (Some a) (Some a')
                  (snd kc) (snd kc'))
    done (children ncur) ->
  exists fs' kids,
    for_each items (populate_child (populate_node pf) a') fs = Some (tt, fs')
    /\ heap fs' !! a' = Some (set_children kids ncur)
    /\ Forall2 (fun kc kc' =>
                  fst kc = fst kc' /\ (a' < snd kc')%nat
                  /\ iso_at f h (heap fs') (snd kc') (Some a) (Some a')
                       (snd kc) (snd kc'))
         (done ++ cs) kids
    /\ (length (heap fs) <= length (heap fs'))%nat
    /\ forall b, (b < length (heap fs))%nat -> b <> a' ->
         heap fs' !! b = heap fs !! b.
Proof.
  intros IH cs items HF.
  induction HF as [|[k c] [k' jc] cs items [Hk Hjc] HF IHF];
    intros done fs ncur Hsrc Hdepth Hcur Hnd Hdone.
  - exists fs, (children ncur). split; [done|].
    rewrite set_children_same, app_nil_r. done.
  - cbn in Hk, Hjc. subst k'.
    pose proof (lookup_lt_Some _ _ _ Hcur) as Hlt.
    destruct (Hsrc k c) as (m & Hm & Hname & Hpar); [by left|].
    assert (keys (children ncur) = keys done) as Hkeys.
    { clear -Hdone. induction Hdone as [|? ? ? ? [E _]]; cbn; [done|].
      rewrite E. by f_equal. }
    assert (dict_mem k (children ncur) = false) as Hfresh.
    { apply dict_mem_false. rewrite Hkeys. intros Hin. cbn in Hnd.
      apply NoDup_app in Hnd as (_ & Hdis & _).
      apply (Hdis k); [by apply list_elem_of_In|]. by left. }
    destruct (populate_child_spec f pf a a' k c m jc fs ncur IH Hm Hname Hpar
                Hjc) as (fs1 & Hstep & Hcur1 & Hiso1 & Hlen1 & Hframe1);
      [by apply (Hdepth k); left|done|done|].
    destruct (IHF (done ++ [(k, c)]) fs1
                (set_children (children ncur ++ [(k, length (heap fs))]) ncur))
      as (fs' & kids & Hrun & Hcur' & HF' & Hlen' & Hframe').
    + intros k0 c0 Hin. apply Hsrc. by right.
    + intros k0 j0 Hin. apply (Hdepth k0). by right.
    + done.
    + rewrite keys_app. cbn. rewrite <- app_assoc. exact Hnd.
    + cbn [children set_children]. apply Forall2_app.
      * eapply Forall2_impl; [exact Hdone|]. intros kc kc' (? & Hgt & Hiso).
        split; [done|]. split; [done|].
        eapply iso_at_frame; [exact Hiso|]. intros b Hb1 Hb2.
        apply Hframe1; lia.
      * constructor; [|constructor]. cbn. done.
    + exists fs', kids. split.
      { cbn [for_each]. unfold bind. by rewrite Hstep. }
      split; [done|]. split; [by rewrite <- app_assoc in HF'|].
      split; [lia|]. intros b Hb Hne.
      rewrite Hframe' by lia. by apply Hframe1.
Qed.

Lemma populates_all f : populates h f.
Proof.
  induction f as [|f IH];
    intros a n j pf fs a' n' Hn Hj Hdepth Hn' Hkids Hname Hdir; [done|].
  destruct (node_to_dict_inv h (S f) a j Hok Hj)
    as (f' & n0 & cs & [= <-] & Hn0 & -> & HF).
  rewrite Hn in Hn0. injection Hn0 as <-.
  destruct (Hok a n Hn) as (Hfile & Hnd & Hch).
  pose proof (lookup_lt_Some _ _ _ Hn') as Hlt.
  destruct pf as [|pf]; [cbn in Hdepth; lia|].
  set (nm := mkFileNode (name n') (is_directory n') (parent n') []
               (content n) (size n) (created_at n) (modified_at n)
               (permissions n) (access_count n)).
  assert (exists t,
    populate_node (S pf) a' (node_dict n cs) fs =
    (if is_directory n
     then for_each cs (populate_child (populate_node pf) a')
     else ret tt)
      (mkFileSystem (<[a' := nm]> (heap fs)) t (host_file fs) (fat_table fs)
         (metadata fs) (root fs) (current_directory fs) (stats fs))) as [t ->].
  { unfold populate_node. fold (populate_node pf). unfold node_dict.
    run. rewrite Hn'. cbn.
    repeat (rewrite list_lookup_insert_eq by (rewrite ?length_insert; done); cbn).
    rewrite !iso_roundtrip. cbn.
    repeat (rewrite list_lookup_insert_eq by (rewrite ?length_insert; done); cbn).
    rewrite !list_insert_insert_eq, andb_true_r, Hdir.
    exists (S (S (ticks fs))). subst nm.
    destruct n'; cbn in Hkids |- *; subst.
    destruct (is_directory n); reflexivity. }
  match goal with |- context [_ ?s = Some _] => set (fs1 := s) end.
  assert (heap fs1 !! a' = Some nm) as Hnm.
  { subst fs1. cbn. by apply list_lookup_insert_eq. }
  assert (same_data n nm) as Hsame.
  { subst nm. unfold same_data. cbn. repeat split; congruence. }
  assert (length (heap fs1) = length (heap fs)) as Hlen1.
  { subst fs1. cbn. apply length_insert. }
  assert (forall b, b <> a' -> heap fs1 !! b = heap fs !! b) as Hframe1.
  { intros b Hb. subst fs1. cbn. by apply list_lookup_insert_ne. }
  destruct (is_directory n) eqn:Hd.
  - destruct (populate_children_spec f pf a a' IH (children n) cs HF [] fs1 nm)
      as (fs' & kids & Hrun & Hcur' & HF' & Hlen' & Hframe').
    + intros k c Hin. destruct (Hch k c Hin) as (_ & _ & m & ? & ? & ?). eauto.
    + intros k jc Hin. by eapply json_depth_child.
    + done.
    + done.
    + subst nm. cbn. constructor.
    + exists fs'. split; [done|]. split; [|split].
      * exists n, (set_children kids nm).
        split; [done|]. split; [done|]. split; [exact Hsame|].
        split; [done|]. split; [done|]. split; [lia|].
        cbn [children set_children].
        eapply Forall2_impl; [exact HF'|]. intros kc kc' (? & Hgt & Hiso).
        split; [done|]. eapply iso_at_lower; [exact Hiso|lia].
      * lia.
      * intros b Hb Hne. rewrite Hframe' by lia. by apply Hframe1.
  - exists fs1. split; [done|]. split; [|split].
    + exists n, nm.
      split; [done|]. split; [done|]. split; [exact Hsame|].
      split; [done|]. split; [done|]. split; [lia|].
      rewrite (Hfile eq_refl). subst nm. cbn. constructor.
    + lia.
    + intros b _ Hne. by apply Hframe1.
Qed.

End RoundTrip.


(** C1: the tree of a reachable engine, written to the disk and read back
    by a new engine, is rebuilt as an isomorphic graph: same shape, names,
    kinds, contents, sizes, permissions, access counts and timestamps, the
    root without a parent and every other object referring to the object it
    hangs from. *)
Theorem save_load_roundtrip fs t :
  (forall d, fromisoformat (isoformat d) = Some d) ->
  reachable fs ->
  exists fs1 fs2,
    bind update_fat_from_tree (fun _ => save_disk) fs = Some (true, fs1)
    /\ FileSystem_init (host_file fs1) t = Some fs2
    /\ isomorphic (heap fs) (heap fs2) None None (root fs) (root fs2).
Proof.
  intros RT Hwf%reachable_wf. pose proof Hwf as [Hs _ [md Hmd]].
  destruct (so_root _ _ Hs) as (rn & Hrn & Hrname & Hrdir & Hrpar).
  destruct (node_to_dict_Some (heap fs) (so_children _ _ Hs)
              (depth_bound (heap fs)) (root fs) rn Hrn) as [j Hj];
    [unfold depth_bound; lia|].
  assert (exists md' t',
    bind update_fat_from_tree (fun _ => save_disk) fs =
    Some (true,
          mkFileSystem (heap fs) t'
            (Stored (JObj [("fat_table", JObj [("/", j)]);
                           ("metadata", JObj md')]))
            (JObj [("/", j)]) (JObj md') (root fs) (current_directory fs)
            (stats fs))) as (md' & t' & Hsave).
  { unfold update_fat_from_tree, save_disk. run. rewrite Hj. cbn.
    rewrite Hmd. cbn. by eexists _, _. }
  eexists. rewrite Hsave. cbn [host_file].
  set (fresh_root := mkFileNode "/" true None [] EmptyString 0
                       (clock (S (S t))) (clock (S (S (S t)))) "rwx" 0).
  set (fs0 := mkFileSystem [fresh_root] (S (S (S (S t))))
                (Stored (JObj [("fat_table", JObj [("/", j)]);
                               ("metadata", JObj md')]))
                (JObj [("/", j)]) (JObj md') 0%nat 0%nat stats0).
  destruct (populates_all (heap fs) (so_children _ _ Hs) RT
              (depth_bound (heap fs)) (root fs) rn j (json_depth j) fs0
              0%nat fresh_root) as (fs' & Hpop & Hiso & _); try done.
  exists (set_stats stats0 (set_current_directory 0%nat (set_root 0%nat fs'))).
  split; [done|]. split.
  - unfold FileSystem_init, VirtualDisk_init, load_disk, build_tree_from_fat,
      blank. run. fold fresh_root. fold fs0. rewrite Hpop. done.
  - cbn. rewrite Hrpar in Hiso. by eapply iso_at_isomorphic.
Qed.

(** * Further properties of the engine *)

(** ** Objects keep their identity *)

Lemma evolves_refl h : evolves h h.
Proof.
  split; [lia|]. intros a n Hn. exists n. repeat split; first [done|lia].
Qed.

Lemma evolves_trans h1 h2 h3 : evolves h1 h2 -> evolves h2 h3 -> evolves h1 h3.
Proof.
  intros [L1 E1] [L2 E2]. split; [lia|]. intros a n Hn.
  destruct (E1 a n Hn) as (n2 & Hn2 & (? & ? & ?) & ? & ?).
  destruct (E2 a n2 Hn2) as (n3 & Hn3 & (? & ? & ?) & ? & ?).
  exists n3. split; [done|]. split; [repeat split; congruence|].
  split; [congruence|lia].
Qed.

Lemma evolves_app h l : evolves h (h ++ l).
Proof.
  split; [rewrite length_app; lia|]. intros a n Hn. exists n.
  split; [rewrite lookup_app_l; [done|by eapply lookup_lt_Some]|].
  repeat split; first [done|lia].
Qed.

Lemma evolves_insert h a n n' :
  h !! a = Some n -> same_links n n' -> created_at n' = created_at n ->
  access_count n <= access_count n' -> evolves h (<[a := n']> h).
Proof.
  intros Ha Hl Hc Hacc. split; [by rewrite length_insert|]. intros b m Hm.
  destruct (decide (a = b)) as [->|Hne].
  - rewrite Ha in Hm. injection Hm as <-. exists n'.
    split; [apply list_lookup_insert_eq; by eapply lookup_lt_Some|done].
  - exists m. rewrite list_lookup_insert_ne by done.
    repeat split; first [done|lia].
Qed.

(** ** What a save leaves behind *)

Lemma save_changes_inv fs1 fs2 :
  save_changes fs1 = Some (tt, fs2) ->
  heap fs2 = heap fs1 /\ root fs2 = root fs1
  /\ current_directory fs2 = current_directory fs1
  /\ stats fs2 = inc_total_operations (stats fs1)
  /\ saved fs2.
Proof.
  unfold save_changes, update_fat_from_tree, save_disk. run.
  destruct (node_to_dict _ _ _) as [j|] eqn:Hj; cbn; [|done].
  destruct (metadata fs1) as [| |md]; cbn; try done.
  intros [= <-]. cbn. repeat (split; [done|]).
  exists j. eexists. cbn. done.
Qed.

(** The end of every operation that changes the tree. *)
Lemma save_and_return {A} (x y : A) fs1 fs' :
  bind save_changes (fun _ => ret x) fs1 = Some (y, fs') ->
  y = x /\ save_changes fs1 = Some (tt, fs').
Proof.
  unfold bind, ret. destruct (save_changes fs1) as [[[] fs2]|]; [|done].
  by intros [= <- <-].
Qed.

(** *** The exact effect of each operation that succeeds *)

Lemma create_file_exact filename text fs msg fs' :
  create_file filename text fs = Some ((true, msg), fs') ->
  exists cur,
    heap fs !! current_directory fs = Some cur
    /\ fst (validate_filename filename) = true
    /\ is_directory cur = true
    /\ dict_mem filename (children cur) = false
    /\ heap fs' =
         <[current_directory fs :=
             set_children (children cur ++ [(filename, length (heap fs))]) cur]>
           (heap fs ++
            [mkFileNode filename false (Some (current_directory fs)) [] text
               (PyStr.utf8_len text) (clock (ticks fs))
               (clock (S (S (ticks fs)))) "rw-" 0])
    /\ root fs' = root fs /\ current_directory fs' = current_directory fs
    /\ stats fs' = inc_total_operations (inc_files_created (stats fs))
    /\ saved fs'.
Proof.
  unfold create_file.
  destruct (validate_filename filename) as [[] emsg] eqn:V; cbn [negb];
    [|by intros [= ]].
  run. destruct (heap fs !! current_directory fs) as [cur|] eqn:Hcur; cbn;
    [|done].
  pose proof (lookup_lt_Some _ _ _ Hcur) as Hlt.
  destruct (is_directory cur) eqn:Hd; cbn; [|done].
  destruct (dict_mem filename (children cur)) eqn:Hmem; cbn; [done|].
  repeat (rewrite ?lookup_snoc, ?insert_snoc; cbn).
  rewrite lookup_app_l by done. rewrite Hcur. cbn.
  rewrite (dict_set_new _ _ _ Hmem).
  destruct (save_changes _) as [[[] fs2]|] eqn:Hsave; [|done].
  intros [= _ <-].
  apply save_changes_inv in Hsave as (Hh & Hr & Hc & Hst & Hsaved).
  cbn in Hh, Hr, Hc, Hst. by exists cur.
Qed.

Lemma create_directory_exact dirname fs msg fs' :
  create_directory dirname fs = Some ((true, msg), fs') ->
  exists cur,
    heap fs !! current_directory fs = Some cur
    /\ fst (validate_filename dirname) = true
    /\ is_directory cur = true
    /\ dict_mem dirname (children cur) = false
    /\ heap fs' =
         <[current_directory fs :=
             set_children (children cur ++ [(dirname, length (heap fs))]) cur]>
           (heap fs ++
            [mkFileNode dirname true (Some (current_directory fs)) []
               EmptyString 0 (clock (ticks fs)) (clock (S (ticks fs)))
               "rwx" 0])
    /\ root fs' = root fs /\ current_directory fs' = current_directory fs
    /\ stats fs' = inc_total_operations (inc_directories_created (stats fs))
    /\ saved fs'.
Proof.
  unfold create_directory.
  destruct (validate_filename dirname) as [[] emsg] eqn:V; cbn [negb];
    [|by intros [= ]].
  run. destruct (heap fs !! current_directory fs) as [cur|] eqn:Hcur; cbn;
    [|done].
  pose proof (lookup_lt_Some _ _ _ Hcur) as Hlt.
  destruct (is_directory cur) eqn:Hd; cbn; [|done].
  destruct (dict_mem dirname (children cur)) eqn:Hmem; cbn; [done|].
  rewrite lookup_app_l by done. rewrite Hcur. cbn.
  rewrite (dict_set_new _ _ _ Hmem).
  destruct (save_changes _) as [[[] fs2]|] eqn:Hsave; [|done].
  intros [= _ <-].
  apply save_changes_inv in Hsave as (Hh & Hr & Hc & Hst & Hsaved).
  cbn in Hh, Hr, Hc, Hst. by exists cur.
Qed.

Lemma read_file_exact filename fs msg res fs' :
  read_file filename fs = Some ((true, msg, res), fs') ->
  exists cur a nd,
    heap fs !! current_directory fs = Some cur
    /\ is_directory cur = true
    /\ dict_get filename (children cur) = Some a
    /\ heap fs !! a = Some nd /\ is_directory nd = false
    /\ res = Some (content nd)
    /\ heap fs' = <[a := set_access_count (access_count nd + 1) nd]> (heap fs)
    /\ root fs' = root fs /\ current_directory fs' = current_directory fs
    /\ stats fs' = inc_total_operations (stats fs)
    /\ saved fs'.
Proof.
  unfold read_file. run.
  destruct (heap fs !! current_directory fs) as [cur|] eqn:Hcur; cbn; [|done].
  destruct (is_directory cur) eqn:Hd; cbn; [|done].
  unfold dict_mem.
  destruct (dict_get filename (children cur)) as [a|] eqn:Hget; cbn; [|done].
  destruct (heap fs !! a) as [nd|] eqn:Hnd; cbn; [|done].
  pose proof (lookup_lt_Some _ _ _ Hnd) as Hlt.
  destruct (is_directory nd) eqn:Hdn; cbn; [done|].
  rewrite Hnd. cbn.
  destruct (save_changes _) as [[[] fs2]|] eqn:Hsave; [|done]. cbn.
  apply save_changes_inv in Hsave as (Hh & Hr & Hc & Hst & Hsaved).
  cbn in Hh, Hr, Hc, Hst. rewrite Hh.
  rewrite list_lookup_insert_eq by done. cbn.
  intros [= _ <- <-]. by exists cur, a, nd.
Qed.

Lemma update_file_exact filename text fs msg fs' :
  update_file filename text fs = Some ((true, msg), fs') ->
  exists cur a nd,
    heap fs !! current_directory fs = Some cur
    /\ is_directory cur = true
    /\ dict_get filename (children cur) = Some a
    /\ heap fs !! a = Some nd /\ is_directory nd = false
    /\ heap fs' =
         <[a := set_access_count (access_count nd + 1)
                  (set_modified_at (clock (ticks fs))
                     (set_size (PyStr.utf8_len text) (set_content text nd)))]>
           (heap fs)
    /\ root fs' = root fs /\ current_directory fs' = current_directory fs
    /\ stats fs' = inc_total_operations (stats fs)
    /\ saved fs'.
Proof.
  unfold update_file. run.
  destruct (heap fs !! current_directory fs) as [cur|] eqn:Hcur; cbn; [|done].
  destruct (is_directory cur) eqn:Hd; cbn; [|done].
  unfold dict_mem.
  destruct (dict_get filename (children cur)) as [a|] eqn:Hget; cbn; [|done].
  destruct (heap fs !! a) as [nd|] eqn:Hnd; cbn; [|done].
  pose proof (lookup_lt_Some _ _ _ Hnd) as Hlt.
  destruct (is_directory nd) eqn:Hdn; cbn; [done|].
  rewrite Hnd. cbn.
  repeat (rewrite list_lookup_insert_eq by (rewrite ?length_insert; done); cbn).
  rewrite !list_insert_insert_eq.
  destruct (save_changes _) as [[[] fs2]|] eqn:Hsave; [|done].
  intros [= _ <-].
  apply save_changes_inv in Hsave as (Hh & Hr & Hc & Hst & Hsaved).
  cbn in Hh, Hr, Hc, Hst. by exists cur, a, nd.
Qed.

Lemma delete_file_exact filename fs msg fs' :
  delete_file filename fs = Some ((true, msg), fs') ->
  exists cur a nd,
    heap fs !! current_directory fs = Some cur
    /\ is_directory cur = true
    /\ dict_get filename (children cur) = Some a
    /\ heap fs !! a = Some nd
    /\ (is_directory nd = true -> children nd = [])
    /\ heap fs' =
         <[current_directory fs :=
             set_children (dict_del filename (children cur)) cur]> (heap fs)
    /\ root fs' = root fs /\ current_directory fs' = current_directory fs
    /\ stats fs' =
         inc_total_operations
           ((if is_directory nd then inc_directories_deleted
             else inc_files_deleted) (stats fs))
    /\ saved fs'.
Proof.
  unfold delete_file. run.
  destruct (heap fs !! current_directory fs) as [cur|] eqn:Hcur; cbn; [|done].
  destruct (is_directory cur) eqn:Hd; cbn; [|done].
  unfold dict_mem.
  destruct (dict_get filename (children cur)) as [a|] eqn:Hget; cbn; [|done].
  destruct (heap fs !! a) as [nd|] eqn:Hnd; cbn; [|done].
  destruct (is_directory nd) eqn:Hdn; destruct (children nd) eqn:Hch; cbn;
    try done.
  all: rewrite Hcur; cbn.
  all: destruct (save_changes _) as [[[] fs2]|] eqn:Hsave; [|done].
  all: intros [= _ <-].
  all: apply save_changes_inv in Hsave as (Hh & Hr & Hc & Hst & Hsaved).
  all: cbn in Hh, Hr, Hc, Hst; exists cur, a, nd; rewrite Hdn; try done.
Qed.


Lemma walk_readonly parts : forall a fs r fs1,
  walk parts a fs = Some (r, fs1) -> fs1 = fs.
Proof.
  induction parts as [|part rest IH]; intros a fs r fs1; cbn.
  - by intros [= _ <-].
  - run. destruct (heap fs !! a) as [n|]; cbn; [|done].
    destruct (String.eqb part "..").
    { destruct (parent n); apply IH. }
    destruct (String.eqb part "."); [apply IH|].
    destruct (is_directory n && dict_mem part (children n)); cbn;
      [|by intros [= _ <-]].
    destruct (dict_get part (children n)); cbn; [apply IH|done].
Qed.

Lemma get_node_by_path_readonly path fs r fs1 :
  get_node_by_path path fs = Some (r, fs1) -> fs1 = fs.
Proof.
  unfold get_node_by_path.
  destruct (negb (PyStr.nonempty path) || String.eqb path "/").
  { run. by intros [= _ <-]. }
  destruct (PyStr.startswith path "/"); run; apply walk_readonly.
Qed.

Lemma change_directory_exact path fs msg fs' :
  change_directory path fs = Some ((true, msg), fs') ->
  exists t tn full,
    get_node_by_path path fs = Some (Some t, fs)
    /\ heap fs !! t = Some tn /\ is_directory tn = true
    /\ heap fs' = <[t := set_access_count (access_count tn + 1) tn]> (heap fs)
    /\ root fs' = root fs /\ current_directory fs' = t
    /\ stats fs' = inc_total_operations (stats fs)
    /\ saved fs'
    /\ get_full_path (heap fs') (depth_bound (heap fs')) t = Some full
    /\ msg = "Directorio cambiado a " +:+ quoted full.
Proof.
  unfold change_directory. unfold bind at 1.
  destruct (get_node_by_path path fs) as [[r fs1]|] eqn:Hpath; [|done].
  pose proof (get_node_by_path_readonly _ _ _ _ Hpath) as ->.
  destruct r as [t|]; [|done]. run.
  destruct (heap fs !! t) as [tn|] eqn:Htn; cbn; [|done].
  destruct (is_directory tn) eqn:Hd; cbn; [|done].
  rewrite Htn. cbn.
  destruct (save_changes _) as [[[] fs2]|] eqn:Hsave; [|done]. cbn.
  apply save_changes_inv in Hsave as (Hh & Hr & Hc & Hst & Hsaved).
  cbn in Hh, Hr, Hc, Hst.
  destruct (get_full_path (heap fs2) (depth_bound (heap fs2)) t) as [full|]
    eqn:Hfull; cbn; [|done].
  intros [= <- <-]. by exists t, tn, full.
Qed.

(** *** An operation that fails changes nothing *)

Lemma create_file_failed filename text fs msg fs' :
  create_file filename text fs = Some ((false, msg), fs') -> fs' = fs.
Proof.
  unfold create_file.
  destruct (validate_filename filename) as [[] emsg]; cbn [negb];
    [|by intros [= _ <-]].
  run. destruct (heap fs !! current_directory fs) as [cur|] eqn:Hcur; cbn;
    [|done].
  destruct (is_directory cur); cbn; [|by intros [= _ <-]].
  destruct (dict_mem filename (children cur)); cbn; [by intros [= _ <-]|].
  repeat (rewrite ?lookup_snoc, ?insert_snoc; cbn).
  clear Hcur. destruct (_ !! current_directory fs); cbn; [|done].
  destruct (save_changes _) as [[[] fs2]|]; done.
Qed.

Lemma create_directory_failed dirname fs msg fs' :
  create_directory dirname fs = Some ((false, msg), fs') -> fs' = fs.
Proof.
  unfold create_directory.
  destruct (validate_filename dirname) as [[] emsg]; cbn [negb];
    [|by intros [= _ <-]].
  run. destruct (heap fs !! current_directory fs) as [cur|] eqn:Hcur; cbn;
    [|done].
  destruct (is_directory cur); cbn; [|by intros [= _ <-]].
  destruct (dict_mem dirname (children cur)); cbn; [by intros [= _ <-]|].
  clear Hcur. destruct (_ !! current_directory fs); cbn; [|done].
  destruct (save_changes _) as [[[] fs2]|]; done.
Qed.

Lemma read_file_failed filename fs msg res fs' :
  read_file filename fs = Some ((false, msg, res), fs') -> fs' = fs.
Proof.
  unfold read_file. run.
  destruct (heap fs !! current_directory fs) as [cur|] eqn:Hcur; cbn; [|done].
  destruct (is_directory cur); cbn; [|by intros [= _ _ <-]].
  destruct (dict_mem filename (children cur)); cbn; [|by intros [= _ _ <-]].
  destruct (dict_get filename (children cur)) as [a|]; cbn; [|done].
  destruct (heap fs !! a) as [nd|] eqn:Hnd; cbn; [|done].
  destruct (is_directory nd); cbn; [by intros [= _ _ <-]|].
  rewrite Hnd. cbn.
  destruct (save_changes _) as [[[] fs2]|]; cbn; [|done].
  destruct (heap fs2 !! a); cbn; done.
Qed.

Lemma update_file_failed filename text fs msg fs' :
  update_file filename text fs = Some ((false, msg), fs') -> fs' = fs.
Proof.
  unfold update_file. run.
  destruct (heap fs !! current_directory fs) as [cur|] eqn:Hcur; cbn; [|done].
  destruct (is_directory cur); cbn; [|by intros [= _ <-]].
  destruct (dict_mem filename (children cur)); cbn; [|by intros [= _ <-]].
  destruct (dict_get filename (children cur)) as [a|]; cbn; [|done].
  destruct (heap fs !! a) as [nd|] eqn:Hnd; cbn; [|done].
  pose proof (lookup_lt_Some _ _ _ Hnd) as Hlt.
  destruct (is_directory nd); cbn; [by intros [= _ <-]|].
  rewrite Hnd. cbn.
  repeat (rewrite list_lookup_insert_eq by (rewrite ?length_insert; done); cbn).
  destruct (save_changes _) as [[[] fs2]|]; done.
Qed.

Lemma delete_file_failed filename fs msg fs' :
  delete_file filename fs = Some ((false, msg), fs') -> fs' = fs.
Proof.
  unfold delete_file. run.
  destruct (heap fs !! current_directory fs) as [cur|] eqn:Hcur; cbn; [|done].
  destruct (is_directory cur); cbn; [|by intros [= _ <-]].
  destruct (dict_mem filename (children cur)); cbn; [|by intros [= _ <-]].
  destruct (dict_get filename (children cur)) as [a|]; cbn; [|done].
  destruct (heap fs !! a) as [nd|] eqn:Hnd; cbn; [|done].
  destruct (is_directory nd); destruct (children nd); cbn;
    try (by intros [= _ <-]).
  all: rewrite Hcur; cbn.
  all: destruct (save_changes _) as [[[] fs2]|]; done.
Qed.

Lemma change_directory_failed path fs msg fs' :
  change_directory path fs = Some ((false, msg), fs') -> fs' = fs.
Proof.
  unfold change_directory. unfold bind at 1.
  destruct (get_node_by_path path fs) as [[r fs1]|] eqn:Hpath; [|done].
  pose proof (get_node_by_path_readonly _ _ _ _ Hpath) as ->.
  destruct r as [t|]; [|by intros [= _ <-]]. run.
  destruct (heap fs !! t) as [tn|] eqn:Htn; cbn; [|done].
  destruct (is_directory tn); cbn; [|by intros [= _ <-]].
  rewrite Htn. cbn.
  destruct (save_changes _) as [[[] fs2]|]; cbn; [|done].
  destruct (get_full_path _ _ _); cbn; done.
Qed.


Lemma copy_file_inv source destination fs ok msg fs' :
  copy_file source destination fs = Some ((ok, msg), fs') ->
  exists rok rmsg rres fs1,
    read_file source fs = Some ((rok, rmsg, rres), fs1)
    /\ if rok then
         exists text cmsg,
           rres = Some text
           /\ create_file destination text fs1 = Some ((ok, cmsg), fs')
       else ok = false /\ fs' = fs1.
Proof.
  unfold copy_file. unfold bind at 1.
  destruct (read_file source fs) as [[[[rok rmsg] rres] fs1]|] eqn:Hread;
    [|done].
  exists rok, rmsg, rres, fs1. split; [done|]. destruct rok.
  - destruct (read_file_exact _ _ _ _ _ Hread) as (? & ? & nd & _ & _ & _ & _ & _ & -> & _).
    unfold bind in H.
    destruct (create_file destination (content nd) fs1)
      as [[[cok cmsg] fs2]|] eqn:Hcreate; [|done].
    exists (content nd), cmsg. split; [done|].
    destruct cok; cbn in H; by injection H as <- _ <-.
  - cbn in H. by injection H as <- _ <-.
Qed.

(** X1: an operation other than a copy that reports a failure leaves the
    engine exactly as it was: tree, current directory, counters, clock and
    host file. *)
Theorem failed_operation_changes_nothing o fs fs' :
  (forall s d, o <> CopyFile s d) ->
  flag_of o fs = Some (false, fs') -> fs' = fs.
Proof.
  intros Hnc. destruct o as [f c|f|f c|f|d|p|s d]; cbn; unfold bind.
  - destruct (create_file f c fs) as [[[[] m] fs1]|] eqn:H; cbn; try done.
    intros [= <-]. by eapply create_file_failed.
  - destruct (read_file f fs) as [[[[[] m] r] fs1]|] eqn:H; cbn; try done.
    intros [= <-]. by eapply read_file_failed.
  - destruct (update_file f c fs) as [[[[] m] fs1]|] eqn:H; cbn; try done.
    intros [= <-]. by eapply update_file_failed.
  - destruct (delete_file f fs) as [[[[] m] fs1]|] eqn:H; cbn; try done.
    intros [= <-]. by eapply delete_file_failed.
  - destruct (create_directory d fs) as [[[[] m] fs1]|] eqn:H; cbn; try done.
    intros [= <-]. by eapply create_directory_failed.
  - destruct (change_directory p fs) as [[[[] m] fs1]|] eqn:H; cbn; try done.
    intros [= <-]. by eapply change_directory_failed.
  - by destruct (Hnc s d).
Qed.

(** X2: a copy that reports a failure has either changed nothing, or done
    exactly what reading the source does (the access count of the source
    and the operation counter are one higher, and the snapshot is
    rewritten): the read is not undone when the creation fails. *)
Theorem failed_copy_keeps_the_read source destination fs msg fs' :
  copy_file source destination fs = Some ((false, msg), fs') ->
  fs' = fs
  \/ exists rmsg text cmsg a nd,
       read_file source fs = Some ((true, rmsg, Some text), fs')
       /\ create_file destination text fs' = Some ((false, cmsg), fs')
       /\ heap fs !! a = Some nd
       /\ heap fs' = <[a := set_access_count (access_count nd + 1) nd]> (heap fs)
       /\ stats fs' = inc_total_operations (stats fs).
Proof.
  intros H.
  destruct (copy_file_inv _ _ _ _ _ _ H) as (rok & rmsg & rres & fs1 & Hread & Hcase).
  destruct rok.
  - right. destruct Hcase as (text & cmsg & -> & Hcreate).
    pose proof (create_file_failed _ _ _ _ _ Hcreate) as ->.
    destruct (read_file_exact _ _ _ _ _ Hread)
      as (cur & a & nd & _ & _ & _ & Hnd & _ & _ & Hh & _ & _ & Hst & _).
    by exists rmsg, text, cmsg, a, nd.
  - left. destruct Hcase as [_ ->]. by eapply read_file_failed.
Qed.


Lemma create_file_evolves filename text fs r fs' :
  create_file filename text fs = Some (r, fs') -> evolves (heap fs) (heap fs').
Proof.
  destruct r as [[] msg]; intros H.
  - destruct (create_file_exact _ _ _ _ _ H) as (cur & Hcur & _ & _ & _ & -> & _).
    eapply evolves_trans; [apply evolves_app|].
    eapply evolves_insert.
    + rewrite lookup_app_l; [done|by eapply lookup_lt_Some].
    + done.
    + done.
    + cbn. lia.
  - rewrite (create_file_failed _ _ _ _ _ H). apply evolves_refl.
Qed.

Lemma create_directory_evolves dirname fs r fs' :
  create_directory dirname fs = Some (r, fs') ->
  evolves (heap fs) (heap fs').
Proof.
  destruct r as [[] msg]; intros H.
  - destruct (create_directory_exact _ _ _ _ H) as (cur & Hcur & _ & _ & _ & -> & _).
    eapply evolves_trans; [apply evolves_app|].
    eapply evolves_insert.
    + rewrite lookup_app_l; [done|by eapply lookup_lt_Some].
    + done.
    + done.
    + cbn. lia.
  - rewrite (create_directory_failed _ _ _ _ H). apply evolves_refl.
Qed.

Lemma read_file_evolves filename fs r fs' :
  read_file filename fs = Some (r, fs') -> evolves (heap fs) (heap fs').
Proof.
  destruct r as [[[] msg] res]; intros H.
  - destruct (read_file_exact _ _ _ _ _ H)
      as (cur & a & nd & _ & _ & _ & Hnd & _ & _ & -> & _).
    eapply evolves_insert; [done|done|done|]. cbn. lia.
  - rewrite (read_file_failed _ _ _ _ _ H). apply evolves_refl.
Qed.

Lemma update_file_evolves filename text fs r fs' :
  update_file filename text fs = Some (r, fs') -> evolves (heap fs) (heap fs').
Proof.
  destruct r as [[] msg]; intros H.
  - destruct (update_file_exact _ _ _ _ _ H)
      as (cur & a & nd & _ & _ & _ & Hnd & _ & -> & _).
    eapply evolves_insert; [done|done|done|]. cbn. lia.
  - rewrite (update_file_failed _ _ _ _ _ H). apply evolves_refl.
Qed.

Lemma delete_file_evolves filename fs r fs' :
  delete_file filename fs = Some (r, fs') -> evolves (heap fs) (heap fs').
Proof.
  destruct r as [[] msg]; intros H.
  - destruct (delete_file_exact _ _ _ _ H)
      as (cur & a & nd & Hcur & _ & _ & _ & _ & -> & _).
    eapply evolves_insert; [done|done|done|]. cbn. lia.
  - rewrite (delete_file_failed _ _ _ _ H). apply evolves_refl.
Qed.

Lemma change_directory_evolves path fs r fs' :
  change_directory path fs = Some (r, fs') -> evolves (heap fs) (heap fs').
Proof.
  destruct r as [[] msg]; intros H.
  - destruct (change_directory_exact _ _ _ _ H)
      as (t & tn & full & _ & Htn & _ & -> & _).
    eapply evolves_insert; [done|done|done|]. cbn. lia.
  - rewrite (change_directory_failed _ _ _ _ H). apply evolves_refl.
Qed.

(** X4: no operation renames, re-parents or changes the kind or the creation
    time of an object, removes an object from the store, or lowers an
    access count. *)
Theorem operation_keeps_identities o fs fs' :
  run_operation o fs = Some (tt, fs') -> evolves (heap fs) (heap fs').
Proof.
  destruct o as [f c|f|f c|f|d|p|s d]; cbn; unfold ignore, bind, ret.
  - destruct (create_file f c fs) as [[r fs1]|] eqn:H; [|done].
    intros [= <-]. by eapply create_file_evolves.
  - destruct (read_file f fs) as [[r fs1]|] eqn:H; [|done].
    intros [= <-]. by eapply read_file_evolves.
  - destruct (update_file f c fs) as [[r fs1]|] eqn:H; [|done].
    intros [= <-]. by eapply update_file_evolves.
  - destruct (delete_file f fs) as [[r fs1]|] eqn:H; [|done].
    intros [= <-]. by eapply delete_file_evolves.
  - destruct (create_directory d fs) as [[r fs1]|] eqn:H; [|done].
    intros [= <-]. by eapply create_directory_evolves.
  - destruct (change_directory p fs) as [[r fs1]|] eqn:H; [|done].
    intros [= <-]. by eapply change_directory_evolves.
  - destruct (copy_file s d fs) as [[[ok m] fs1]|] eqn:H; [|done].
    intros [= <-].
    destruct (copy_file_inv _ _ _ _ _ _ H) as (rok & rmsg & rres & fs2 & Hread & Hcase).
    apply read_file_evolves in Hread. destruct rok.
    + destruct Hcase as (text & cmsg & -> & Hcreate).
      eapply evolves_trans; [exact Hread|]. by eapply create_file_evolves.
    + by destruct Hcase as [_ ->].
Qed.


(** *** Counters and cursor *)

Lemma create_file_cursor filename text fs r fs' :
  create_file filename text fs = Some (r, fs') ->
  current_directory fs' = current_directory fs.
Proof.
  destruct r as [[] msg]; intros H.
  - by destruct (create_file_exact _ _ _ _ _ H)
      as (? & ? & ? & ? & ? & ? & ? & ? & ?).
  - by rewrite (create_file_failed _ _ _ _ _ H).
Qed.

Lemma read_file_cursor filename fs r fs' :
  read_file filename fs = Some (r, fs') ->
  current_directory fs' = current_directory fs.
Proof.
  destruct r as [[[] msg] res]; intros H.
  - by destruct (read_file_exact _ _ _ _ _ H)
      as (? & ? & ? & ? & ? & ? & ? & ? & ? & ? & ? & ? & ?).
  - by rewrite (read_file_failed _ _ _ _ _ H).
Qed.


(** X6: the current directory is moved by [change_directory] alone. *)
Theorem only_change_directory_moves_the_cursor o fs fs' :
  (forall path, o <> ChangeDirectory path) ->
  run_operation o fs = Some (tt, fs') ->
  current_directory fs' = current_directory fs.
Proof.
  intros Hcd.
  destruct o as [f c|f|f c|f|d|p|s d]; cbn; unfold ignore, bind, ret.
  - destruct (create_file f c fs) as [[r fs1]|] eqn:H; [|done].
    intros [= <-]. by eapply create_file_cursor.
  - destruct (read_file f fs) as [[r fs1]|] eqn:H; [|done].
    intros [= <-]. by eapply read_file_cursor.
  - destruct (update_file f c fs) as [[[[] m] fs1]|] eqn:H; [| |done];
      intros [= <-].
    + by destruct (update_file_exact _ _ _ _ _ H)
        as (? & ? & ? & ? & ? & ? & ? & ? & ? & ? & ? & ?).
    + by rewrite (update_file_failed _ _ _ _ _ H).
  - destruct (delete_file f fs) as [[[[] m] fs1]|] eqn:H; [| |done];
      intros [= <-].
    + by destruct (delete_file_exact _ _ _ _ H)
        as (? & ? & ? & ? & ? & ? & ? & ? & ? & ? & ? & ?).
    + by rewrite (delete_file_failed _ _ _ _ H).
  - destruct (create_directory d fs) as [[[[] m] fs1]|] eqn:H; [| |done];
      intros [= <-].
    + by destruct (create_directory_exact _ _ _ _ H)
        as (? & ? & ? & ? & ? & ? & ? & ? & ?).
    + by rewrite (create_directory_failed _ _ _ _ H).
  - by destruct (Hcd p).
  - destruct (copy_file s d fs) as [[[ok m] fs1]|] eqn:H; [|done].
    intros [= <-].
    destruct (copy_file_inv _ _ _ _ _ _ H) as (rok & rmsg & rres & fs2 & Hread & Hcase).
    apply read_file_cursor in Hread. destruct rok.
    + destruct Hcase as (text & cmsg & -> & Hcreate).
      apply create_file_cursor in Hcreate. congruence.
    + by destruct Hcase as [_ ->].
Qed.

(** *** Names *)

(** X7: the validation of a name looks at the stripped name only: a name
    and the same name without its surrounding white space get the same
    verdict and the same message. *)
Theorem validate_filename_strip filename :
  validate_filename (PyStr.strip filename) = validate_filename filename.
Proof.
  unfold validate_filename. rewrite PyStrFacts.strip_strip.
  destruct (String.eqb (PyStr.strip filename) EmptyString) eqn:E.
  - by rewrite !orb_true_r.
  - rewrite !orb_false_r.
    assert (PyStr.nonempty (PyStr.strip filename) = true) as ->.
    { destruct (PyStr.strip filename); [|done]. by rewrite String.eqb_refl in E. }
    assert (PyStr.nonempty filename = true) as ->; [|done].
    destruct filename; [|done]. by rewrite PyStrFacts.strip_empty in E.
Qed.

(** X8: a name that contains one of the characters of [invalid_chars] is
    refused by [create_file] and by [create_directory], whatever the state
    of the engine, which is left as it was. *)
Theorem invalid_character_is_rejected c filename text fs :
  In c invalid_chars -> PyStr.contains c filename = true ->
  fst (validate_filename filename) = false
  /\ (exists msg, create_file filename text fs = Some ((false, msg), fs))
  /\ (exists msg, create_directory filename fs = Some ((false, msg), fs)).
Proof.
  intros Hin Hc.
  assert (fst (validate_filename filename) = false) as Hv.
  { destruct (validate_filename filename) as [[] m] eqn:V; [|done].
    apply validate_filename_true in V as (_ & Hf & _).
    pose proof (first_invalid_char_None _ _ _ Hf Hin) as Hn.
    assert (PyStr.isspace c = false) as Hs.
    { cbn in Hin. by repeat destruct Hin as [<-|Hin]. }
    by rewrite (PyStrFacts.contains_strip _ _ Hs Hc) in Hn. }
  split; [done|]. unfold create_file, create_directory.
  destruct (validate_filename filename) as [[] m]; [done|].
  cbn. eauto.
Qed.

(** X9: creation never overwrites: when the current directory has an entry
    of that name, file or directory, [create_file] and [create_directory]
    fail and the engine is left as it was. *)
Theorem create_never_overwrites filename text fs fs1 :
  file_exists filename fs = Some (true, fs1) ->
  (exists msg, create_file filename text fs = Some ((false, msg), fs))
  /\ (exists msg, create_directory filename fs = Some ((false, msg), fs)).
Proof.
  unfold file_exists, create_file, create_directory. run.
  destruct (heap fs !! current_directory fs) as [cur|] eqn:Hcur; cbn; [|done].
  intros [= Hmem _].
  destruct (validate_filename filename) as [[] m]; cbn; eauto.
  run. rewrite Hcur. cbn. rewrite Hmem.
  destruct (is_directory cur); cbn; eauto.
Qed.


(** *** Deleting and copying *)

Lemma dict_get_del_other {V} (k k' : string) (d : list (string * V)) :
  k' <> k -> dict_get k' (dict_del k d) = dict_get k' d.
Proof.
  intros Hne. induction d as [|[k0 v] d IH]; cbn; [done|].
  destruct (String.eqb k k0) eqn:E.
  - apply String.eqb_eq in E. subst k0.
    destruct (String.eqb k' k) eqn:E'; [|done].
    by apply String.eqb_eq in E'.
  - cbn. by rewrite IH.
Qed.

Lemma dict_get_app_l {V} (k : string) (v : V) (d d' : list (string * V)) :
  dict_get k d = Some v -> dict_get k (d ++ d') = Some v.
Proof.
  induction d as [|[k0 v0] d IH]; cbn; [done|].
  by destruct (String.eqb k k0).
Qed.

Lemma dict_get_app_new {V} (k : string) (v : V) (d : list (string * V)) :
  dict_mem k d = false -> dict_get k (d ++ [(k, v)]) = Some v.
Proof.
  unfold dict_mem. induction d as [|[k0 v0] d IH]; cbn.
  - by rewrite String.eqb_refl.
  - by destruct (String.eqb k k0).
Qed.

(** X10: after a successful [delete_file] the name is gone from the current
    directory ([file_exists] answers no and [read_file] fails without
    touching the engine), and every other name is there or not as before. *)
Theorem deleted_name_is_gone filename fs msg fs' :
  reachable fs ->
  delete_file filename fs = Some ((true, msg), fs') ->
  file_exists filename fs' = Some (false, fs')
  /\ (exists m, read_file filename fs' = Some ((false, m, None), fs'))
  /\ forall other, other <> filename ->
       exists b, file_exists other fs = Some (b, fs)
                 /\ file_exists other fs' = Some (b, fs').
Proof.
  intros Hre H. pose proof (reachable_wf _ Hre) as Hwf.
  destruct (delete_file_exact _ _ _ _ H)
    as (cur & a & nd & Hcur & Hdir & Hget & Hnd & _ & Hh & _ & Hc & _).
  assert (heap fs' !! current_directory fs'
          = Some (set_children (dict_del filename (children cur)) cur)) as Hcur'.
  { rewrite Hh, Hc. apply list_lookup_insert_eq. by eapply lookup_lt_Some. }
  destruct (so_children _ _ (wf_store _ Hwf) _ _ Hcur) as (_ & Hnodup & _).
  assert (dict_mem filename (dict_del filename (children cur)) = false) as Hgone.
  { apply dict_mem_false. by apply dict_del_gone. }
  split; [|split].
  - unfold file_exists. run. rewrite Hcur'. cbn. by rewrite Hgone.
  - unfold read_file. run. rewrite Hcur'. cbn. rewrite Hdir, Hgone. cbn. eauto.
  - intros other Hne. exists (dict_mem other (children cur)).
    unfold file_exists. run. rewrite Hcur, Hcur'. cbn.
    split; [done|]. unfold dict_mem. by rewrite dict_get_del_other.
Qed.

(** X11: after a successful [copy_file], reading the destination gives the
    text that reading the source gave, the source still reads the same,
    and the two names differ. *)
Theorem copy_gives_the_same_text source destination fs msg fs' :
  reachable fs ->
  copy_file source destination fs = Some ((true, msg), fs') ->
  source <> destination
  /\ exists text,
       (exists m fs1, read_file source fs = Some ((true, m, Some text), fs1))
       /\ (exists m fs2,
             read_file destination fs' = Some ((true, m, Some text), fs2))
       /\ (exists m fs3,
             read_file source fs' = Some ((true, m, Some text), fs3)).
Proof.
  intros Hre H.
  assert (reachable fs') as Hre'.
  { apply (reachable_step (CopyFile source destination) fs); [done|].
    cbn. unfold ignore, bind. by rewrite H. }
  pose proof (reachable_wf _ Hre) as Hwf.
  pose proof (reachable_wf _ Hre') as Hwf'.
  destruct (copy_file_inv _ _ _ _ _ _ H)
    as (rok & rmsg & rres & fs1 & Hread & Hcase).
  destruct rok; [|by destruct Hcase].
  destruct Hcase as (text & cmsg & -> & Hcreate).
  destruct (read_file_exact _ _ _ _ _ Hread)
    as (cur & a & nd & Hcur & Hdir & Hget & Hnd & Hfile & [= ->] & Hh1 & _ & Hc1 & _).
  destruct (create_file_exact _ _ _ _ _ Hcreate)
    as (cur1 & Hcur1 & _ & _ & Hnew & Hh' & _ & Hc' & _).
  destruct (child_lookup _ _ _ _ Hwf Hcur Hget) as (nd0 & Hnd0 & _ & _ & Hlt).
  rewrite Hc1 in *.
  assert (cur1 = cur) as ->.
  { rewrite Hh1, list_lookup_insert_ne in Hcur1 by lia. congruence. }
  assert (length (heap fs1) = length (heap fs)) as Hlen
    by (by rewrite Hh1, length_insert).
  pose proof (lookup_lt_Some _ _ _ Hcur) as Hltc.
  pose proof (lookup_lt_Some _ _ _ Hnd) as Hlta.
  assert (heap fs' !! current_directory fs'
          = Some (set_children
                    (children cur ++ [(destination, length (heap fs1))]) cur))
    as Hcur'.
  { rewrite Hh', Hc'. apply list_lookup_insert_eq.
    rewrite length_app, Hlen. lia. }
  assert (source <> destination) as Hne.
  { intros <-. unfold dict_mem in Hnew. by rewrite Hget in Hnew. }
  split; [done|]. exists (content nd). split; [eauto|].
  split.
  - destruct (read_file_spec destination _ _ Hwf' Hcur')
      as (ok & m & res & fs2 & Hr & _ & _ & _ & Hcase).
    cbn [children set_children] in Hcase.
    rewrite (dict_get_app_new _ _ _ Hnew) in Hcase.
    destruct Hcase as (nd' & Hnd' & Hcase).
    rewrite Hh', list_lookup_insert_ne, lookup_snoc in Hnd'
      by (rewrite Hlen; lia).
    injection Hnd' as <-. cbn in Hcase.
    destruct Hcase as (-> & -> & _). eauto.
  - destruct (read_file_spec source _ _ Hwf' Hcur')
      as (ok & m & res & fs3 & Hr & _ & _ & _ & Hcase).
    cbn [children set_children] in Hcase.
    rewrite (dict_get_app_l _ _ _ [(destination, length (heap fs1))] Hget)
      in Hcase.
    destruct Hcase as (nd' & Hnd' & Hcase).
    rewrite Hh', list_lookup_insert_ne, lookup_app_l, Hh1,
      list_lookup_insert_eq in Hnd' by (rewrite ?length_insert; lia).
    injection Hnd' as <-. cbn in Hcase. rewrite Hfile in Hcase.
    destruct Hcase as (-> & -> & _). eauto.
Qed.

(** *** Changing directory *)

Lemma path_parts_head path :
  PyStr.nonempty path = true -> PyStr.startswith path "/" = false ->
  path_parts path <> [].
Proof.
  destruct path as [|c s]; [done|]. intros _ Hs.
  assert (Ascii.eqb c "/" = false) as Hc.
  { destruct (Ascii.eqb c "/") eqn:E; [|done].
    apply Ascii.eqb_eq in E. subst c. by destruct s. }
  destruct (PyStrFacts.split_head "/" c s Hc) as (w & ws & Hsplit).
  unfold path_parts. by rewrite Hsplit.
Qed.

Lemma get_node_by_path_no_segments path fs :
  path_parts path = [] ->
  get_node_by_path path fs = Some (Some (root fs), fs).
Proof.
  intros Hparts. unfold get_node_by_path.
  destruct (PyStr.nonempty path) eqn:Hne; cbn [negb orb]; [|done].
  destruct (String.eqb path "/"); [done|].
  destruct (PyStr.startswith path "/") eqn:Hs.
  - run. by rewrite Hparts.
  - by destruct (path_parts_head _ Hne Hs).
Qed.

Lemma change_directory_ok path fs t tn r fs' :
  get_node_by_path path fs = Some (Some t, fs) ->
  heap fs !! t = Some tn -> is_directory tn = true ->
  change_directory path fs = Some (r, fs') -> fst r = true.
Proof.
  intros Hpath Htn Hd. unfold change_directory. unfold bind at 1.
  rewrite Hpath. run. rewrite Htn. cbn. rewrite Hd. cbn. rewrite Htn. cbn.
  destruct (save_changes _) as [[[] fs2]|]; [|done]. cbn.
  destruct (get_full_path _ _ _); cbn; [|done]. by intros [= <- _].
Qed.

(** X12: a path without a segment (the empty path, or slashes only) names
    the root: [change_directory] on it succeeds, from anywhere, and the
    current directory is the root afterwards. *)
Theorem change_directory_without_segments path fs :
  reachable fs -> path_parts path = [] ->
  exists fs',
    change_directory path fs
    = Some ((true, "Directorio cambiado a '/'"), fs')
    /\ current_directory fs' = root fs.
Proof.
  intros Hre Hparts. pose proof (reachable_wf _ Hre) as Hwf.
  pose proof (get_node_by_path_no_segments path fs Hparts) as Hpath.
  destruct (so_root _ _ (wf_store _ Hwf)) as (rn & Hrn & _ & Hrd & Hrp).
  destruct (change_directory_spec path fs Hwf) as (ok & msg & fs' & Hcd & _).
  pose proof (change_directory_ok _ _ _ _ _ _ Hpath Hrn Hrd Hcd) as Hok.
  cbn in Hok. subst ok.
  destruct (change_directory_exact _ _ _ _ Hcd)
    as (t & tn & full & Hpath' & Htn & _ & Hh & _ & Hc & _ & _ & Hfull & ->).
  rewrite Hpath in Hpath'. injection Hpath' as <-.
  rewrite Hrn in Htn. injection Htn as <-.
  exists fs'. split; [|done]. do 3 f_equal.
  unfold get_full_path, depth_bound in Hfull.
  rewrite Hh, list_lookup_insert_eq in Hfull by (by eapply lookup_lt_Some).
  cbn in Hfull. rewrite Hrp in Hfull. by injection Hfull as <-.
Qed.


(** *** Starting without a snapshot *)

Lemma FileSystem_init_exact hf t0 :
  hf = Absent \/ hf = Corrupt ->
  exists fs r,
    FileSystem_init hf t0 = Some fs
    /\ heap fs = [r] /\ root fs = 0%nat /\ current_directory fs = 0%nat
    /\ name r = "/" /\ is_directory r = true /\ parent r = None
    /\ children r = [] /\ content r = EmptyString /\ size r = 0
    /\ permissions r = "rwx" /\ access_count r = 0
    /\ stats fs = stats0
    /\ host_file fs =
         match hf with
         | Absent =>
             Stored (JObj [("fat_table", fat_table fs);
                           ("metadata", metadata fs)])
         | _ => hf
         end.
Proof.
  intros [-> | ->].
  all: unfold FileSystem_init, VirtualDisk_init, load_disk, create_empty_fat,
    save_disk, build_tree_from_fat, blank; run.
  all: unfold populate_node; run; unfold populate_dates_now; run.
  all: destruct (fromisoformat (isoformat (clock (S (S t0)))));
    [destruct (fromisoformat (isoformat (clock (S (S (S t0))))))|]; cbn.
  all: eexists _, _; split; [reflexivity|]; cbn.
  all: repeat (split; [reflexivity|]); reflexivity.
Qed.


(** *** The data the engine stores *)

Lemma data_ok_insert (h : list FileNode) a n :
  (forall b m, h !! b = Some m -> data_ok m) -> data_ok n ->
  forall b m, <[a := n]> h !! b = Some m -> data_ok m.
Proof.
  intros Hh Hn b m Hm. destruct (decide (a = b)) as [->|Hne].
  - destruct (decide (b < length h)%nat).
    + rewrite list_lookup_insert_eq in Hm by done. by injection Hm as <-.
    + rewrite list_insert_ge in Hm by lia. by eapply Hh.
  - rewrite list_lookup_insert_ne in Hm by done. by eapply Hh.
Qed.

Lemma data_ok_snoc (h : list FileNode) n :
  (forall b m, h !! b = Some m -> data_ok m) -> data_ok n ->
  forall b m, (h ++ [n]) !! b = Some m -> data_ok m.
Proof.
  intros Hh Hn b m Hm. destruct (decide (b < length h)%nat).
  - rewrite lookup_app_l in Hm by done. by eapply Hh.
  - rewrite lookup_app_r in Hm by lia.
    destruct (b - length h)%nat; [by injection Hm as <-|done].
Qed.

Lemma create_file_data filename text fs r fs' :
  (forall b m, heap fs !! b = Some m -> data_ok m) ->
  create_file filename text fs = Some (r, fs') ->
  forall b m, heap fs' !! b = Some m -> data_ok m.
Proof.
  intros Hok H. destruct r as [[] msg].
  - destruct (create_file_exact _ _ _ _ _ H)
      as (cur & Hcur & _ & Hd & _ & -> & _).
    apply data_ok_insert.
    + by apply data_ok_snoc.
    + pose proof (Hok _ _ Hcur) as Hc. unfold data_ok in *. cbn.
      by rewrite Hd in *.
  - by rewrite (create_file_failed _ _ _ _ _ H).
Qed.

Lemma read_file_data filename fs r fs' :
  (forall b m, heap fs !! b = Some m -> data_ok m) ->
  read_file filename fs = Some (r, fs') ->
  forall b m, heap fs' !! b = Some m -> data_ok m.
Proof.
  intros Hok H. destruct r as [[[] msg] res].
  - destruct (read_file_exact _ _ _ _ _ H)
      as (cur & a & nd & _ & _ & _ & Hnd & _ & _ & -> & _).
    apply data_ok_insert; [done|].
    destruct (Hok _ _ Hnd) as [Hacc Hrest]. split; [cbn; lia|done].
  - by rewrite (read_file_failed _ _ _ _ _ H).
Qed.

(** X14: in every state reached from a fresh engine, the stored size of
    every file is the byte length of its content and its permissions are
    [rw-]; every directory has no content, the stored size 0 and the
    permissions [rwx]; no access count is negative. *)
Theorem reachable_data_ok fs :
  reachable fs -> forall a n, heap fs !! a = Some n -> data_ok n.
Proof.
  induction 1 as [t0 fs Hinit|o fs fs' _ IH Hstep].
  - destruct (FileSystem_init_exact Absent t0 (or_introl eq_refl))
      as (fs0 & r & H0 & Hh & _ & _ & _ & Hd & _ & _ & Hc & Hs & Hp & Ha & _).
    assert (fs0 = fs) as -> by congruence.
    rewrite Hh. intros [|a] n Hn; [|by destruct a].
    injection Hn as <-. unfold data_ok. rewrite Hd, Ha. by split; [lia|].
  - revert Hstep.
    destruct o as [f c|f|f c|f|d|p|s d]; cbn; unfold ignore, bind, ret.
    + destruct (create_file f c fs) as [[r fs1]|] eqn:H; [|done].
      intros [= <-]. by eapply create_file_data.
    + destruct (read_file f fs) as [[r fs1]|] eqn:H; [|done].
      intros [= <-]. by eapply read_file_data.
    + destruct (update_file f c fs) as [[[[] m] fs1]|] eqn:H; [| |done];
        intros [= <-].
      * destruct (update_file_exact _ _ _ _ _ H)
          as (cur & a & nd & _ & _ & _ & Hnd & Hfile & -> & _).
        apply data_ok_insert; [done|].
        destruct (IH _ _ Hnd) as [Hacc Hrest]. rewrite Hfile in Hrest.
        destruct Hrest as (_ & Hperm & Hch).
        split; [cbn; lia|]. cbn. by rewrite Hfile.
      * by rewrite (update_file_failed _ _ _ _ _ H).
    + destruct (delete_file f fs) as [[[[] m] fs1]|] eqn:H; [| |done];
        intros [= <-].
      * destruct (delete_file_exact _ _ _ _ H)
          as (cur & a & nd & Hcur & Hd & _ & _ & _ & -> & _).
        apply data_ok_insert; [done|].
        pose proof (IH _ _ Hcur) as Hc. unfold data_ok in *. cbn.
        by rewrite Hd in *.
      * by rewrite (delete_file_failed _ _ _ _ H).
    + destruct (create_directory d fs) as [[[[] m] fs1]|] eqn:H; [| |done];
        intros [= <-].
      * destruct (create_directory_exact _ _ _ _ H)
          as (cur & Hcur & _ & Hd & _ & -> & _).
        apply data_ok_insert.
        -- apply data_ok_snoc; [done|]. by split; [cbn; lia|].
        -- pose proof (IH _ _ Hcur) as Hc. unfold data_ok in *. cbn.
           by rewrite Hd in *.
      * by rewrite (create_directory_failed _ _ _ _ H).
    + destruct (change_directory p fs) as [[[[] m] fs1]|] eqn:H; [| |done];
        intros [= <-].
      * destruct (change_directory_exact _ _ _ _ H)
          as (t & tn & full & _ & Htn & _ & -> & _).
        apply data_ok_insert; [done|].
        destruct (IH _ _ Htn) as [Hacc Hrest]. split; [cbn; lia|done].
      * by rewrite (change_directory_failed _ _ _ _ H).
    + destruct (copy_file s d fs) as [[[ok m] fs1]|] eqn:H; [|done].
      intros [= <-].
      destruct (copy_file_inv _ _ _ _ _ _ H)
        as (rok & rmsg & rres & fs2 & Hread & Hcase).
      pose proof (read_file_data _ _ _ _ IH Hread) as IH2. destruct rok.
      * destruct Hcase as (text & cmsg & -> & Hcreate).
        by eapply create_file_data.
      * by destruct Hcase as [_ ->].
Qed.


(** *** The current directory stays in the tree *)

Lemma attached_keep h h' r a :
  heap_ok h -> attached h r a ->
  (forall p pn k b, h !! p = Some pn -> In (k, b) (children pn) ->
     (b <= a)%nat ->
     exists pn', h' !! p = Some pn' /\ In (k, b) (children pn')) ->
  attached h' r a.
Proof.
  intros Hok Hatt. induction Hatt as [|p pn k a Hp IH Hpn Hin]; intros Hkeep.
  - constructor.
  - destruct (Hok _ _ Hpn) as (_ & _ & Hch).
    destruct (Hch _ _ Hin) as (Hlt & _).
    destruct (Hkeep _ _ _ _ Hpn Hin) as (pn' & Hpn' & Hin'); [lia|].
    eapply attached_child; [|exact Hpn'|exact Hin'].
    apply IH. intros q qn k' b Hq Hin2 Hle.
    apply (Hkeep _ _ _ _ Hq Hin2). lia.
Qed.

Lemma attached_insert h r a c n n' :
  heap_ok h -> h !! c = Some n ->
  (forall k b, In (k, b) (children n) -> In (k, b) (children n')) ->
  attached h r a -> attached (<[c := n']> h) r a.
Proof.
  intros Hok Hc Hsub Hatt. apply (attached_keep h _ r a Hok Hatt).
  intros p pn k b Hp Hin _. destruct (decide (c = p)) as [->|Hne].
  - exists n'. rewrite list_lookup_insert_eq by (by eapply lookup_lt_Some).
    split; [done|]. apply Hsub. congruence.
  - exists pn. by rewrite list_lookup_insert_ne.
Qed.

Lemma attached_app h r a l :
  heap_ok h -> attached h r a -> attached (h ++ l) r a.
Proof.
  intros Hok Hatt. apply (attached_keep h _ r a Hok Hatt).
  intros p pn k b Hp Hin _. exists pn. split; [|done].
  rewrite lookup_app_l; [done|by eapply lookup_lt_Some].
Qed.

Lemma dict_del_In_other {V} (k : string) (x : V) (e : string * V) d :
  dict_get k d = Some x -> In e d -> e <> (k, x) -> In e (dict_del k d).
Proof.
  induction d as [|[k0 v0] d IH]; cbn; [done|].
  destruct (String.eqb k k0) eqn:E.
  - apply String.eqb_eq in E. subst k0. intros [= ->] [<-|Hin] Hne; done.
  - intros Hget [<-|Hin] Hne; [by left|]. right. by apply IH.
Qed.

Lemma attached_unlink h r a c cur k x :
  heap_ok h -> h !! c = Some cur -> dict_get k (children cur) = Some x ->
  (a < x)%nat -> attached h r a ->
  attached (<[c := set_children (dict_del k (children cur)) cur]> h) r a.
Proof.
  intros Hok Hc Hget Hlt Hatt. apply (attached_keep h _ r a Hok Hatt).
  intros p pn k' b Hp Hin Hle. destruct (decide (c = p)) as [->|Hne].
  - eexists. rewrite list_lookup_insert_eq by (by eapply lookup_lt_Some).
    split; [done|]. cbn. assert (pn = cur) as -> by congruence.
    eapply dict_del_In_other; [done..|]. intros [= _ ->]. lia.
  - exists pn. by rewrite list_lookup_insert_ne.
Qed.

Lemma attached_parent h r a n p :
  store_ok h r -> attached h r a -> h !! a = Some n -> parent n = Some p ->
  attached h r p.
Proof.
  intros Hs Hatt Hn Hp. destruct Hatt as [|q qn k a Hq Hqn Hin].
  - destruct (so_root _ _ Hs) as (rn & Hrn & _ & _ & Hrp). congruence.
  - destruct (so_children _ _ Hs _ _ Hqn) as (_ & _ & Hch).
    destruct (Hch _ _ Hin) as (_ & _ & m & Hm & _ & Hmp).
    assert (q = p) as <- by congruence. done.
Qed.

Lemma walk_attached fs parts : forall a t fs1,
  store_ok (heap fs) (root fs) -> attached (heap fs) (root fs) a ->
  walk parts a fs = Some (Some t, fs1) -> attached (heap fs) (root fs) t.
Proof.
  induction parts as [|part rest IH]; intros a t fs1 Hs Hatt; cbn.
  - by intros [= <- _].
  - run. destruct (heap fs !! a) as [n|] eqn:Hn; cbn; [|done].
    destruct (String.eqb part "..").
    { destruct (parent n) as [p|] eqn:Hp; apply IH; try done.
      by eapply attached_parent. }
    destruct (String.eqb part "."); [by apply IH|].
    destruct (is_directory n && dict_mem part (children n)); cbn; [|done].
    destruct (dict_get part (children n)) as [c|] eqn:Hget; cbn; [|done].
    apply IH; [done|]. eapply attached_child; [done..|].
    by apply dict_get_In.
Qed.

Lemma get_node_by_path_attached fs path t fs1 :
  store_ok (heap fs) (root fs) ->
  attached (heap fs) (root fs) (current_directory fs) ->
  get_node_by_path path fs = Some (Some t, fs1) ->
  attached (heap fs) (root fs) t.
Proof.
  intros Hs Hatt. unfold get_node_by_path.
  destruct (negb (PyStr.nonempty path) || String.eqb path "/").
  { run. intros [= <- _]. constructor. }
  destruct (PyStr.startswith path "/"); run.
  - apply walk_attached; [done|constructor].
  - by apply walk_attached.
Qed.

Lemma create_file_attached filename text fs r fs' :
  wf fs -> attached (heap fs) (root fs) (current_directory fs) ->
  create_file filename text fs = Some (r, fs') ->
  attached (heap fs') (root fs') (current_directory fs').
Proof.
  intros Hwf Hatt H. destruct r as [[] msg].
  - destruct (create_file_exact _ _ _ _ _ H)
      as (cur & Hcur & _ & _ & _ & -> & -> & -> & _).
    pose proof (so_children _ _ (wf_store _ Hwf)) as Hok.
    apply (attached_keep (heap fs) _ _ _ Hok Hatt).
    intros p pn k b Hp Hin _.
    pose proof (lookup_lt_Some _ _ _ Hp) as Hlt.
    destruct (decide (current_directory fs = p)) as [Heq|Hne].
    + eexists. rewrite Heq, list_lookup_insert_eq by (rewrite length_app; lia).
      split; [done|]. cbn. apply in_or_app. left.
      rewrite Heq in Hcur. congruence.
    + exists pn. by rewrite list_lookup_insert_ne, lookup_app_l.
  - by rewrite (create_file_failed _ _ _ _ _ H).
Qed.

Lemma read_file_attached filename fs r fs' :
  wf fs -> attached (heap fs) (root fs) (current_directory fs) ->
  read_file filename fs = Some (r, fs') ->
  attached (heap fs') (root fs') (current_directory fs').
Proof.
  intros Hwf Hatt H. destruct r as [[[] msg] res].
  - destruct (read_file_exact _ _ _ _ _ H)
      as (cur & a & nd & _ & _ & _ & Hnd & _ & _ & -> & -> & -> & _).
    eapply attached_insert; [apply Hwf|done|done|done].
  - by rewrite (read_file_failed _ _ _ _ _ H).
Qed.

Lemma cursor_attached fs :
  reachable fs -> attached (heap fs) (root fs) (current_directory fs).
Proof.
  induction 1 as [t0 fs Hinit|o fs fs' Hre IH Hstep].
  - destruct (FileSystem_init_exact Absent t0 (or_introl eq_refl))
      as (fs0 & r & H0 & _ & Hr & Hc & _).
    assert (fs0 = fs) as -> by congruence.
    rewrite Hr, Hc. constructor.
  - pose proof (reachable_wf _ Hre) as Hwf.
    pose proof (so_children _ _ (wf_store _ Hwf)) as Hok.
    revert Hstep.
    destruct o as [f c|f|f c|f|d|p|s d]; cbn; unfold ignore, bind, ret.
    + destruct (create_file f c fs) as [[r fs1]|] eqn:H; [|done].
      intros [= <-]. by eapply create_file_attached.
    + destruct (read_file f fs) as [[r fs1]|] eqn:H; [|done].
      intros [= <-]. by eapply read_file_attached.
    + destruct (update_file f c fs) as [[[[] m] fs1]|] eqn:H; [| |done];
        intros [= <-].
      * destruct (update_file_exact _ _ _ _ _ H)
          as (cur & a & nd & _ & _ & _ & Hnd & _ & -> & -> & -> & _).
        eapply attached_insert; [done|done|done|done].
      * by rewrite (update_file_failed _ _ _ _ _ H).
    + destruct (delete_file f fs) as [[[[] m] fs1]|] eqn:H; [| |done];
        intros [= <-].
      * destruct (delete_file_exact _ _ _ _ H)
          as (cur & a & nd & Hcur & _ & Hget & _ & _ & -> & -> & -> & _).
        destruct (child_lookup _ _ _ _ Hwf Hcur Hget) as (_ & _ & _ & _ & Hlt).
        by eapply attached_unlink.
      * by rewrite (delete_file_failed _ _ _ _ H).
    + destruct (create_directory d fs) as [[[[] m] fs1]|] eqn:H; [| |done];
        intros [= <-].
      * destruct (create_directory_exact _ _ _ _ H)
          as (cur & Hcur & _ & _ & _ & -> & -> & -> & _).
        apply (attached_keep (heap fs) _ _ _ Hok IH).
        intros q qn k b Hq Hin _.
        pose proof (lookup_lt_Some _ _ _ Hq) as Hlt.
        destruct (decide (current_directory fs = q)) as [Heq|Hne].
        -- eexists.
           rewrite Heq, list_lookup_insert_eq by (rewrite length_app; lia).
           split; [done|]. cbn. apply in_or_app. left.
           rewrite Heq in Hcur. congruence.
        -- exists qn. by rewrite list_lookup_insert_ne, lookup_app_l.
      * by rewrite (create_directory_failed _ _ _ _ H).
    + destruct (change_directory p fs) as [[[[] m] fs1]|] eqn:H; [| |done];
        intros [= <-].
      * destruct (change_directory_exact _ _ _ _ H)
          as (t & tn & full & Hpath & Htn & _ & -> & -> & -> & _).
        eapply attached_insert; [done|done|done|].
        eapply get_node_by_path_attached; [apply Hwf|done|done].
      * by rewrite (change_directory_failed _ _ _ _ H).
    + destruct (copy_file s d fs) as [[[ok m] fs1]|] eqn:H; [|done].
      intros [= <-].
      destruct (copy_file_inv _ _ _ _ _ _ H)
        as (rok & rmsg & rres & fs2 & Hread & Hcase).
      pose proof (read_file_attached _ _ _ _ Hwf IH Hread) as IH2.
      destruct rok.
      * destruct Hcase as (text & cmsg & -> & Hcreate).
        eapply create_file_attached; [|done|done].
        apply reachable_wf.
        apply (reachable_step (ReadFile s) fs); [done|].
        cbn. unfold ignore, bind. by rewrite Hread.
      * by destruct Hcase as [_ ->].
Qed.

(** X15: the current directory is always in the tree: in every state
    reached from a fresh engine it is the root or hangs, entry by entry,
    under the root; no operation detaches it or one of its ancestors. *)
Theorem current_directory_stays_in_tree fs :
  reachable fs -> attached (heap fs) (root fs) (current_directory fs).
Proof. exact (cursor_attached fs). Qed.

(** *** The path of an object leads back to it *)

Lemma get_full_path_eq h fuel a :
  get_full_path h (S fuel) a =
  match h !! a with
  | None => None
  | Some n =>
      match parent n with
      | None => Some "/"
      | Some p =>
          match h !! p with
          | None => None
          | Some pn =>
              match parent pn with
              | None => Some ("/" +:+ name n)
              | Some _ =>
                  match get_full_path h fuel p with
                  | Some s => Some (s +:+ "/" +:+ name n)
                  | None => None
                  end
              end
          end
      end
  end.
Proof. reflexivity. Qed.

Lemma path_parts_app s k :
  segment_name k = true ->
  path_parts (s +:+ String "/" k) = path_parts s ++ [k].
Proof.
  intros Hk. unfold path_parts.
  rewrite PyStrFacts.split_app_sep, List.filter_app. f_equal.
  exact (path_parts_segment k Hk).
Qed.

Lemma walk_app fs l1 l2 : forall a t,
  walk l1 a fs = Some (Some t, fs) -> walk (l1 ++ l2) a fs = walk l2 t fs.
Proof.
  induction l1 as [|part rest IH]; intros a t; cbn.
  - by intros [= <-].
  - run. destruct (heap fs !! a) as [n|]; cbn; [|done].
    destruct (String.eqb part "..").
    { destruct (parent n); apply IH. }
    destruct (String.eqb part "."); [apply IH|].
    destruct (is_directory n && dict_mem part (children n)); cbn; [|done].
    destruct (dict_get part (children n)); cbn; [apply IH|done].
Qed.

Lemma walk_child fs p pn k a rest :
  heap_ok (heap fs) -> heap fs !! p = Some pn -> In (k, a) (children pn) ->
  walk (k :: rest) p fs = walk rest a fs.
Proof.
  intros Hok Hpn Hin. destruct (Hok _ _ Hpn) as (Hfile & Hnodup & Hch).
  destruct (Hch _ _ Hin) as (_ & Hseg & _).
  pose proof (segment_name_inv k Hseg) as (_ & _ & Hdot & Hdots).
  assert (is_directory pn = true) as Hd.
  { destruct (is_directory pn); [done|]. rewrite Hfile in Hin; done. }
  cbn. run_node Hpn. rewrite Hdots, Hdot, Hd. cbn.
  unfold dict_mem. by rewrite (In_dict_get _ _ _ Hnodup Hin).
Qed.

Lemma full_path_resolves fs a :
  store_ok (heap fs) (root fs) -> attached (heap fs) (root fs) a ->
  a <> root fs ->
  forall fuel s, get_full_path (heap fs) fuel a = Some s ->
    exists t, s = String "/" t /\ PyStr.nonempty t = true
              /\ walk (path_parts s) (root fs) fs = Some (Some a, fs).
Proof.
  intros Hs Hatt. pose proof (so_children _ _ Hs) as Hok.
  destruct (so_root _ _ Hs) as (rn & Hrn & _ & _ & Hrp).
  induction Hatt as [|p pn k a Hp IH Hpn Hin]; intros Hne fuel s; [done|].
  destruct (Hok _ _ Hpn) as (_ & _ & Hch).
  destruct (Hch _ _ Hin) as (_ & Hseg & m & Hm & Hname & Hparent).
  pose proof (segment_name_inv k Hseg) as (Hkne & Hksl & _).
  destruct fuel as [|fuel]; [done|].
  rewrite get_full_path_eq, Hm, Hparent, Hpn, Hname.
  destruct (parent pn) as [gp|] eqn:Hgp.
  - assert (p <> root fs) as Hpne by (intros ->; congruence).
    destruct (get_full_path (heap fs) fuel p) as [sp|] eqn:Hsp; [|done].
    destruct (IH Hpne _ _ Hsp) as (t & -> & Ht & Hwalk).
    intros [= <-]. exists (t +:+ String "/" k).
    split; [done|]. split; [by destruct t|].
    change (String "/" t +:+ "/" +:+ k) with (String "/" t +:+ String "/" k).
    rewrite (path_parts_app _ _ Hseg), (walk_app _ _ _ _ _ Hwalk).
    by rewrite (walk_child _ _ _ _ _ _ Hok Hpn Hin).
  - assert (p = root fs) as -> by (by eapply (so_one_root _ _ Hs)).
    intros [= <-]. exists k. split; [done|]. split; [done|].
    change ("/" +:+ k) with (EmptyString +:+ String "/" k).
    rewrite (path_parts_app _ _ Hseg).
    change (path_parts EmptyString) with (@nil string). cbn [app].
    by rewrite (walk_child _ _ _ _ _ _ Hok Hpn Hin).
Qed.

(** X16: the path that [get_current_directory] returns is absolute and
    leads back to the current directory: [_get_node_by_path] resolves it to
    the current directory, and [change_directory] to it succeeds and stays
    where it is. *)
Theorem current_directory_path_resolves fs :
  reachable fs ->
  exists path,
    get_current_directory fs = Some (path, fs)
    /\ PyStr.startswith path "/" = true
    /\ get_node_by_path path fs = Some (Some (current_directory fs), fs)
    /\ exists msg fs',
         change_directory path fs = Some ((true, msg), fs')
         /\ current_directory fs' = current_directory fs.
Proof.
  intros Hre. pose proof (reachable_wf _ Hre) as Hwf.
  pose proof (cursor_attached _ Hre) as Hatt.
  destruct (wf_cursor _ Hwf) as (cn & Hcn & Hcd).
  destruct (get_full_path_Some (heap fs) (so_parents _ _ (wf_store _ Hwf))
              (depth_bound (heap fs)) _ _ Hcn) as [path Hpath].
  { unfold depth_bound. apply lookup_lt_Some in Hcn. lia. }
  exists path.
  assert (PyStr.startswith path "/" = true
          /\ get_node_by_path path fs = Some (Some (current_directory fs), fs))
    as [Hstart Hres].
  { destruct (decide (current_directory fs = root fs)) as [Heq|Hne].
    - destruct (so_root _ _ (wf_store _ Hwf)) as (rn & Hrn & _ & _ & Hrp).
      unfold depth_bound in Hpath.
      rewrite get_full_path_eq, Heq, Hrn, Hrp in Hpath.
      injection Hpath as <-. rewrite Heq. done.
    - destruct (full_path_resolves fs _ (wf_store _ Hwf) Hatt Hne _ _ Hpath)
        as (t & -> & Ht & Hwalk).
      assert (PyStr.startswith (String "/" t) "/" = true) as Hstart.
      { unfold PyStr.startswith. cbn [String.prefix].
        destruct (ascii_dec "/" "/"); [by destruct t|done]. }
      split; [done|]. unfold get_node_by_path. rewrite Hstart.
      destruct t as [|c t]; [done|]. cbn [PyStr.nonempty negb orb String.eqb].
      rewrite Ascii.eqb_refl. run. exact Hwalk. }
  split; [unfold get_current_directory; run; by rewrite Hpath|].
  split; [done|]. split; [done|].
  destruct (change_directory_spec path fs Hwf) as (ok & msg & fs' & Hcd' & _).
  pose proof (change_directory_ok _ _ _ _ _ _ Hres Hcn Hcd Hcd') as Hok.
  cbn in Hok. subst ok. exists msg, fs'. split; [done|].
  destruct (change_directory_exact _ _ _ _ Hcd')
    as (t & tn & full & Hres' & _ & _ & _ & _ & -> & _).
  congruence.
Qed.


(** *** Listing a directory *)

Lemma ltb_le a b : String.ltb a b = true <-> String.le a b /\ a <> b.
Proof.
  unfold String.le, String.leb, String.ltb. split.
  - intros H. destruct (String.compare a b) eqn:E; try done.
    split; [done|]. intros ->.
    pose proof (String.compare_antisym b b) as Ha. rewrite E in Ha. done.
  - intros [H Hne]. destruct (String.compare a b) eqn:E; try done.
    by apply String.compare_eq_iff in E.
Qed.

Lemma ltb_false_le a b : String.ltb a b = false -> String.le b a.
Proof.
  unfold String.le, String.leb, String.ltb.
  rewrite (String.compare_antisym b a).
  by destruct (String.compare a b).
Qed.

Lemma insert_by_name_perm x l : Permutation (insert_by_name x l) (x :: l).
Proof.
  induction l as [|y r IH]; cbn; [done|].
  destruct (String.ltb (item_name y) (item_name x)); [|done].
  rewrite IH. apply perm_swap.
Qed.

Lemma sort_by_name_perm l : Permutation (sort_by_name l) l.
Proof.
  induction l as [|x l IH]; cbn; [done|].
  rewrite insert_by_name_perm. by constructor.
Qed.

Lemma insert_by_name_sorted x l :
  StronglySorted (fun a b => String.le (item_name a) (item_name b)) l ->
  StronglySorted (fun a b => String.le (item_name a) (item_name b))
    (insert_by_name x l).
Proof.
  induction 1 as [|y r Hr IH Hy]; cbn; [by repeat constructor|].
  destruct (String.ltb (item_name y) (item_name x)) eqn:E.
  - constructor; [done|]. rewrite insert_by_name_perm. constructor; [|done].
    by apply ltb_le in E as [? _].
  - apply ltb_false_le in E. constructor; [by constructor|].
    constructor; [done|]. eapply Forall_impl; [exact Hy|].
    intros z Hz. cbn in Hz. by etrans.
Qed.

Lemma sort_by_name_sorted l :
  StronglySorted (fun a b => String.le (item_name a) (item_name b))
    (sort_by_name l).
Proof.
  induction l as [|x l IH]; cbn; [constructor|].
  by apply insert_by_name_sorted.
Qed.

Lemma sorted_names l :
  NoDup (map item_name l) ->
  StronglySorted (fun a b => String.le (item_name a) (item_name b)) l ->
  StronglySorted (fun a b => String.ltb a b = true) (map item_name l).
Proof.
  induction 2 as [|y r Hr IH Hy]; cbn; [constructor|].
  cbn in H. apply NoDup_cons in H as [Hnotin Hnd].
  constructor; [by apply IH|].
  apply Forall_forall. intros k Hk.
  apply list_elem_of_In, in_map_iff in Hk as (z & <- & Hz).
  apply ltb_le. split.
  - rewrite Forall_forall in Hy. by apply Hy, list_elem_of_In.
  - intros Heq. apply Hnotin. rewrite Heq.
    apply list_elem_of_In, in_map. done.
Qed.

Lemma list_items_names h cs items :
  list_items h cs = Some items -> map item_name items = keys cs.
Proof.
  revert items. induction cs as [|[k c] r IH]; intros items; cbn.
  - by intros [= <-].
  - destruct (h !! c) as [n|]; [|done].
    destruct (if is_directory n then _ else _) as [sz|]; [|done].
    destruct (list_items h r) as [rest|]; [|done].
    intros [= <-]. cbn. f_equal. by apply IH.
Qed.

Lemma list_items_Some h cs :
  heap_ok h ->
  (forall k c, In (k, c) cs -> is_Some (h !! c)) ->
  is_Some (list_items h cs).
Proof.
  intros Hok. induction cs as [|[k c] r IH]; intros Hin; cbn; [done|].
  destruct (Hin k c) as [n Hn]; [by left|]. rewrite Hn.
  destruct IH as [rest ->]; [intros; eapply Hin; by right|].
  destruct (is_directory n); [|done].
  destruct (get_size_recursive_Some h Hok (depth_bound h) c n Hn) as [sz ->];
    [unfold depth_bound; lia|done].
Qed.

Lemma list_items_In h cs items it :
  list_items h cs = Some items -> In it items ->
  exists c n,
    In (item_name it, c) cs /\ h !! c = Some n
    /\ item_type it = (if is_directory n then "directory" else "file")
    /\ (if is_directory n
        then get_size_recursive h (depth_bound h) c
        else Some (size n)) = Some (item_size it)
    /\ item_created it = created_at n /\ item_modified it = modified_at n
    /\ item_permissions it = permissions n
    /\ item_access_count it = access_count n.
Proof.
  revert items. induction cs as [|[k c] r IH]; intros items; cbn.
  - by intros [= <-].
  - destruct (h !! c) as [n|] eqn:Hn; [|done].
    destruct (if is_directory n then _ else _) as [sz|] eqn:Hsz; [|done].
    destruct (list_items h r) as [rest|]; [|done].
    intros [= <-] [<-|Hin]; cbn.
    + exists c, n. by repeat split; auto.
    + destruct (IH _ eq_refl Hin) as (c' & n' & ? & ?).
      exists c', n'. by split; [right|].
Qed.

Lemma list_target_spec path fs :
  wf fs ->
  exists r, list_target path fs = Some (r, fs)
            /\ forall t, r = Some t -> is_Some (heap fs !! t).
Proof.
  intros Hwf. destruct (wf_cursor _ Hwf) as (cn & Hcn & _).
  assert (exists r, bind get_current_node (fun c => ret (Some c)) fs
                    = Some (r, fs)
                    /\ forall t, r = Some t -> is_Some (heap fs !! t)) as Hcur.
  { eexists. split; [reflexivity|]. intros t [= <-]. by eexists. }
  unfold list_target. destruct path as [p|]; [|done].
  destruct (PyStr.nonempty p); [|done]. by apply get_node_by_path_spec.
Qed.

(** X17: in every state reached from a fresh engine [list_directory]
    returns, and leaves the engine as it was.  A failure comes with the
    empty list.  On success the names listed are the keys of the
    [children] of the directory listed, each once, in strictly ascending
    order. *)
Theorem list_directory_sorted_children path fs :
  reachable fs ->
  exists ok msg items,
    list_directory path fs = Some ((ok, msg, items), fs)
    /\ (ok = false -> items = [])
    /\ (ok = true ->
        exists t tn,
          list_target path fs = Some (Some t, fs)
          /\ heap fs !! t = Some tn /\ is_directory tn = true
          /\ Permutation (map item_name items) (keys (children tn))
          /\ StronglySorted (fun a b => String.ltb a b = true)
               (map item_name items)).
Proof.
  intros Hwf%reachable_wf.
  destruct (list_target_spec path fs Hwf) as (r & Htarget & Hr).
  unfold list_directory. unfold bind at 1. rewrite Htarget.
  destruct r as [t|]; [|by eexists _, _, _].
  destruct (Hr t eq_refl) as [tn Htn]. run. rewrite Htn. cbn.
  destruct (is_directory tn) eqn:Hd; cbn; [|by eexists _, _, _].
  pose proof (so_children _ _ (wf_store _ Hwf)) as Hok.
  destruct (Hok _ _ Htn) as (_ & Hnodup & Hch).
  destruct (list_items_Some (heap fs) (children tn) Hok) as [items Hitems].
  { intros k c Hin. destruct (Hch k c Hin) as (_ & _ & m & Hm & _). by eexists. }
  rewrite Hitems. cbn. eexists _, _, _. split; [reflexivity|].
  split; [done|]. intros _. exists t, tn.
  pose proof (list_items_names _ _ _ Hitems) as Hnames.
  assert (Permutation (map item_name (sort_by_name items))
            (keys (children tn))) as Hperm.
  { rewrite <- Hnames. apply Permutation_map, sort_by_name_perm. }
  split; [done|]. split; [done|]. split; [done|]. split; [done|].
  apply sorted_names; [|apply sort_by_name_sorted].
  by rewrite Hperm.
Qed.

(** X18: [list_directory] of the current directory and [get_file_info]
    agree: for every element listed, [get_file_info] on its name succeeds
    and reports the same type, dates, permissions and access count; the
    size listed for a directory is what [get_file_info] calls
    [size_recursive], the size listed for a file is its [size]. *)
Theorem list_directory_agrees_with_get_file_info fs msg items fs' :
  reachable fs ->
  list_directory None fs = Some ((true, msg, items), fs') ->
  forall it, In it items ->
    exists m info,
      get_file_info (item_name it) fs = Some ((true, m, Some info), fs)
      /\ info_name info = item_name it
      /\ info_type info = item_type it
      /\ (if String.eqb (item_type it) "directory"
          then info_size_recursive info
          else info_size info) = item_size it
      /\ info_created info = item_created it
      /\ info_modified info = item_modified it
      /\ info_permissions info = item_permissions it
      /\ info_access_count info = item_access_count it.
Proof.
  intros Hwf%reachable_wf. pose proof Hwf as [Hs (cn & Hcn & Hcd) _].
  unfold list_directory, list_target. run. rewrite Hcn. cbn. rewrite Hcd. cbn.
  destruct (list_items (heap fs) (children cn)) as [l|] eqn:Hl; cbn; [|done].
  intros [= _ <- _] it Hin.
  assert (In it l) as Hin'.
  { eapply Permutation_in; [apply sort_by_name_perm|done]. }
  destruct (list_items_In _ _ _ _ Hl Hin')
    as (c & n & Hc & Hn & Htype & Hsize & Hcr & Hmo & Hpe & Hac).
  destruct (so_children _ _ Hs _ _ Hcn) as (_ & Hnodup & Hch).
  destruct (Hch _ _ Hc) as (_ & _ & m & Hm & Hname & _).
  assert (m = n) as -> by congruence.
  pose proof (In_dict_get _ _ _ Hnodup Hc) as Hget.
  destruct (get_full_path_Some (heap fs) (so_parents _ _ Hs)
              (depth_bound (heap fs)) c n Hn) as [full Hfull].
  { unfold depth_bound. apply lookup_lt_Some in Hn. lia. }
  destruct (get_size_recursive_Some (heap fs) (so_children _ _ Hs)
              (depth_bound (heap fs)) c n Hn) as [rec Hrec].
  { unfold depth_bound. lia. }
  unfold get_file_info. run. rewrite Hcn. cbn.
  unfold dict_mem. rewrite Hget. cbn. rewrite Hn. cbn.
  rewrite Hfull. cbn. rewrite Hrec. cbn.
  eexists _, _. split; [reflexivity|]. cbn.
  rewrite Htype, Hcr, Hmo, Hpe, Hac.
  repeat split; try done.
  destruct (is_directory n) eqn:Hd; cbn.
  - congruence.
  - congruence.
Qed.


(** *** The disk statistics *)

Lemma keeps_ret Q {A} (x : A) : keeps Q (ret x).
Proof. by intros fs y fs' HQ [= _ <-]. Qed.

Lemma keeps_bind Q {A B} (m : M A) (k : A -> M B) :
  keeps Q m -> (forall x, keeps Q (k x)) -> keeps Q (bind m k).
Proof.
  intros Hm Hk fs y fs' HQ. unfold bind.
  destruct (m fs) as [[x fs1]|] eqn:E; [|done].
  intros H. eapply Hk; [|exact H]. by eapply Hm.
Qed.

Lemma keeps_same Q {A} (m : M A) :
  (forall fs x fs', m fs = Some (x, fs') -> fs' = fs) -> keeps Q m.
Proof. intros Hm fs x fs' HQ H. by rewrite (Hm _ _ _ H). Qed.

Lemma keeps_gets Q {A} (f : FileSystem -> A) : keeps Q (gets f).
Proof. apply keeps_same. by intros fs x fs' [= _ <-]. Qed.

Lemma keeps_lift Q {A} (o : option A) : keeps Q (lift o).
Proof. apply keeps_same. intros fs x fs'. unfold lift. by destruct o; intros [= _ <-]. Qed.

Lemma keeps_node Q a : keeps Q (node a).
Proof. apply keeps_same. intros fs x fs' H. by apply node_inv in H as [_ ->]. Qed.

Lemma keeps_metadata {A} (m : M A) :
  (forall fs x fs', m fs = Some (x, fs') -> metadata fs' = metadata fs) ->
  keeps metadata_ok m.
Proof.
  intros Hm fs x fs' (c & l & HQ) H. exists c, l. by rewrite (Hm _ _ _ H).
Qed.

Lemma now_keeps_metadata : keeps metadata_ok now.
Proof. apply keeps_metadata. by intros fs x fs' [= _ <-]. Qed.

Lemma update_node_keeps_metadata a f : keeps metadata_ok (update_node a f).
Proof.
  apply keeps_metadata. intros fs x fs'. unfold update_node.
  by destruct (heap fs !! a); intros [= _ <-].
Qed.

Lemma modify_keeps_metadata f :
  (forall fs, metadata (f fs) = metadata fs) -> keeps metadata_ok (modify f).
Proof. intros Hf. apply keeps_metadata. intros fs x fs' [= _ <-]. apply Hf. Qed.

Lemma FileNode_init_keeps_metadata nm d p :
  keeps metadata_ok (FileNode_init nm d p).
Proof. apply keeps_metadata. by intros fs x fs' [= _ <-]. Qed.

Lemma save_changes_keeps_metadata : keeps metadata_ok save_changes.
Proof.
  intros fs x fs' (c & l & HQ). unfold save_changes, update_fat_from_tree,
    save_disk. run.
  destruct (node_to_dict _ _ _); cbn; [|done]. rewrite HQ. cbn.
  intros [= _ <-]. cbn. by eexists _, _.
Qed.

Lemma get_node_by_path_keeps Q path : keeps Q (get_node_by_path path).
Proof. apply keeps_same. apply get_node_by_path_readonly. Qed.

(** Invariance through the code of an operation, statement by statement. *)
Ltac keeps_step :=
  first
    [ apply keeps_ret
    | apply keeps_gets
    | apply keeps_lift
    | apply keeps_node
    | apply now_keeps_metadata
    | apply update_node_keeps_metadata
    | apply FileNode_init_keeps_metadata
    | apply save_changes_keeps_metadata
    | apply get_node_by_path_keeps
    | apply modify_keeps_metadata; reflexivity
    | apply keeps_bind; [|intros ?]
    | match goal with
      | |- keeps _ (if ?b then _ else _) => destruct b
      | |- keeps _ (match ?x with _ => _ end) => destruct x
      end ].
Ltac keeps_all :=
  unfold get_current_node, update_access_time, bump; repeat keeps_step.

Lemma create_file_keeps_metadata f c : keeps metadata_ok (create_file f c).
Proof.
  unfold create_file. destruct (validate_filename f) as [[] m]; cbn [negb];
    keeps_all.
Qed.

Lemma read_file_keeps_metadata f : keeps metadata_ok (read_file f).
Proof. unfold read_file. keeps_all. Qed.

Lemma run_operation_keeps_metadata o : keeps metadata_ok (run_operation o).
Proof.
  destruct o; cbn; unfold ignore; apply keeps_bind;
    try (intros; apply keeps_ret).
  - apply create_file_keeps_metadata.
  - apply read_file_keeps_metadata.
  - unfold update_file. keeps_all.
  - unfold delete_file. keeps_all.
  - unfold create_directory.
    destruct (validate_filename dirname) as [[] m]; cbn [negb]; keeps_all.
  - unfold change_directory. keeps_all.
  - unfold copy_file. apply keeps_bind; [apply read_file_keeps_metadata|].
    intros [[[] m] [text|]]; try apply keeps_ret.
    apply keeps_bind; [apply create_file_keeps_metadata|].
    intros [[] m']; apply keeps_ret.
Qed.

Lemma FileSystem_init_metadata t0 fs :
  FileSystem_init Absent t0 = Some fs -> metadata_ok fs.
Proof.
  unfold FileSystem_init, VirtualDisk_init, load_disk, create_empty_fat,
    save_disk, build_tree_from_fat, blank; run.
  unfold populate_node; run; unfold populate_dates_now; run.
  destruct (fromisoformat (isoformat (clock (S (S t0)))));
    [destruct (fromisoformat (isoformat (clock (S (S (S t0))))))|]; cbn.
  all: intros [= <-]; by eexists _, _.
Qed.

Lemma reachable_metadata fs : reachable fs -> metadata_ok fs.
Proof.
  induction 1 as [t0 fs Hinit|o fs fs' _ IH Hstep].
  - by eapply FileSystem_init_metadata.
  - by eapply run_operation_keeps_metadata.
Qed.

(** X19: the disk statistics never move: in every state reached from a
    fresh engine, whatever has been stored, [get_disk_stats] reports 1000
    blocks of 512 bytes, none of them used, 1000 free. *)
Theorem disk_stats_never_change fs :
  reachable fs ->
  get_disk_stats fs = Some (mkDiskStats 1000 0 1000 512, fs).
Proof.
  intros (c & l & Hmd)%reachable_metadata.
  unfold get_disk_stats, metadata_int. run.
  repeat (rewrite Hmd; cbn). reflexivity.
Qed.


(** *** Counting the tree *)

Lemma count_nodes_eq h fuel a :
  count_nodes h (S fuel) a =
  match h !! a with
  | None => None
  | Some n =>
      if is_directory n
      then count_children (count_nodes h fuel) (children n) 0 (0 + 1)
      else Some (0 + 1, 0)
  end.
Proof. reflexivity. Qed.

Lemma count_children_acc f cs : forall F D,
  count_children f cs F D
  = option_map (fun v => (F + fst v, D + snd v)) (count_children f cs 0 0).
Proof.
  induction cs as [|[k c] r IH]; intros F D; cbn.
  - do 2 f_equal; lia.
  - destruct (f c) as [[cf cd]|]; [|done].
    rewrite (IH (F + cf) (D + cd)).
    first [rewrite (IH (0 + cf) (0 + cd))|rewrite (IH cf cd)].
    destruct (count_children f r 0 0) as [[x y]|]; cbn; [|done].
    do 2 f_equal; lia.
Qed.

Lemma count_children_app f cs cs' F D :
  count_children f (cs ++ cs') F D =
  match count_children f cs F D with
  | Some (F', D') => count_children f cs' F' D'
  | None => None
  end.
Proof.
  revert F D. induction cs as [|[k c] r IH]; intros F D; cbn; [done|].
  destruct (f c) as [[cf cd]|]; [|done]. apply IH.
Qed.

Lemma count_children_ext f f' cs :
  (forall k c, In (k, c) cs -> f' c = f c) ->
  forall F D, count_children f' cs F D = count_children f cs F D.
Proof.
  induction cs as [|[k c] r IH]; intros Hf F D; cbn; [done|].
  rewrite (Hf k c) by (by left).
  destruct (f c) as [[cf cd]|]; [|done]. apply IH.
  intros k' c' Hin. apply (Hf k'). by right.
Qed.

Lemma count_children_weaken f f' cs :
  (forall k c v, In (k, c) cs -> f c = Some v -> f' c = Some v) ->
  forall F D v,
    count_children f cs F D = Some v -> count_children f' cs F D = Some v.
Proof.
  induction cs as [|[k c] r IH]; intros Hf F D v; cbn; [done|].
  destruct (f c) as [[cf cd]|] eqn:E; [|done].
  rewrite (Hf k c _ (or_introl eq_refl) E). apply IH.
  intros k' c' v' Hin. apply (Hf k'). by right.
Qed.

Lemma count_nodes_mono h f : forall a v,
  count_nodes h f a = Some v -> count_nodes h (S f) a = Some v.
Proof.
  induction f as [|f IH]; intros a v; [done|].
  rewrite (count_nodes_eq h f a), (count_nodes_eq h (S f) a).
  destruct (h !! a) as [n|]; [|done]. destruct (is_directory n); [|done].
  apply count_children_weaken. intros k c v' _. apply IH.
Qed.

Lemma count_children_Some (g : nat -> option (Z * Z)) cs F D :
  (forall k c, In (k, c) cs -> is_Some (g c)) ->
  is_Some (count_children g cs F D).
Proof.
  revert F D. induction cs as [|[k c] cs IH]; intros F D H; simpl; [eauto|].
  destruct (H k c) as [[cf cd] Hj]; [by left|]. rewrite Hj.
  apply IH. intros k' c' Hin. apply (H k' c'). by right.
Qed.

Lemma count_nodes_Some h : heap_ok h ->
  forall f a n, h !! a = Some n -> (length h - a < f)%nat ->
    is_Some (count_nodes h f a).
Proof.
  intros Hok f. induction f as [|f IH]; intros a n Ha Hf; [lia|].
  rewrite count_nodes_eq, Ha. destruct (is_directory n); [|eauto].
  apply count_children_Some. intros k c Hin.
  destruct (Hok a n Ha) as (_ & _ & Hc).
  destruct (Hc k c Hin) as (Hlt & _ & m & Hm & _).
  apply (IH c m Hm). apply lookup_lt_Some in Hm. lia.
Qed.

Lemma attached_le h a b : heap_ok h -> attached h a b -> (a <= b)%nat.
Proof.
  intros Hok. induction 1 as [|p pn k b Hp IH Hpn Hin]; [done|].
  destruct (Hok _ _ Hpn) as (_ & _ & Hch).
  destruct (Hch _ _ Hin) as (Hlt & _). lia.
Qed.

Lemma attached_exists h a b :
  heap_ok h -> is_Some (h !! a) -> attached h a b -> is_Some (h !! b).
Proof.
  intros Hok Ha. induction 1 as [|p pn k b Hp IH Hpn Hin]; [done|].
  destruct (Hok _ _ Hpn) as (_ & _ & Hch).
  destruct (Hch _ _ Hin) as (_ & _ & m & Hm & _). by eexists.
Qed.

Lemma attached_prepend h a n k c b :
  h !! a = Some n -> In (k, c) (children n) -> attached h c b ->
  attached h a b.
Proof.
  intros Ha Hin. induction 1 as [|p pn k' b Hp IH Hpn Hin'].
  - eapply attached_child; [constructor|done|done].
  - eapply attached_child; [exact IH|done|done].
Qed.

Lemma attached_first h a c :
  attached h a c ->
  a = c \/ exists n k x,
             h !! a = Some n /\ In (k, x) (children n) /\ attached h x c.
Proof.
  induction 1 as [|p pn k c Hp IH Hpn Hin]; [by left|]. right.
  destruct IH as [->|(n & k' & x & Hn & Hin' & Hx)].
  - exists pn, k, c. split; [done|]. split; [done|]. constructor.
  - exists n, k', x. split; [done|]. split; [done|].
    by eapply attached_child.
Qed.

Lemma attached_up h a c n p :
  heap_ok h -> attached h a c -> a <> c -> h !! c = Some n ->
  parent n = Some p -> attached h a p.
Proof.
  intros Hok Hatt Hne Hn Hp. destruct Hatt as [|q qn k c Hq Hqn Hin]; [done|].
  destruct (Hok _ _ Hqn) as (_ & _ & Hch).
  destruct (Hch _ _ Hin) as (_ & _ & m & Hm & _ & Hmp).
  assert (q = p) as <- by congruence. done.
Qed.

Lemma attached_sibling h a n k x k' y c :
  heap_ok h -> h !! a = Some n ->
  In (k, x) (children n) -> In (k', y) (children n) ->
  attached h x c -> attached h y c -> x = y.
Proof.
  intros Hok Hn Hx Hy Hxc. destruct (Hok _ _ Hn) as (_ & _ & Hch).
  destruct (Hch _ _ Hx) as (Hax & _ & mx & Hmx & _ & Hpx).
  destruct (Hch _ _ Hy) as (Hay & _ & my & Hmy & _ & Hpy).
  induction Hxc as [|p pn k0 c Hp IH Hpn Hin]; intros Hyc.
  - destruct (decide (y = x)) as [->|Hne]; [done|].
    pose proof (attached_up _ _ _ _ _ Hok Hyc Hne Hmx Hpx) as Hya.
    apply (attached_le _ _ _ Hok) in Hya. lia.
  - destruct (decide (y = c)) as [->|Hne].
    + destruct (Hok _ _ Hpn) as (_ & _ & Hch').
      destruct (Hch' _ _ Hin) as (_ & _ & m & Hm & _ & Hmp).
      assert (p = a) as -> by congruence.
      apply (attached_le _ _ _ Hok) in Hp. lia.
    + apply IH. destruct (Hok _ _ Hpn) as (_ & _ & Hch').
      destruct (Hch' _ _ Hin) as (_ & _ & m & Hm & _ & Hmp).
      by eapply attached_up.
Qed.

Lemma children_addresses_NoDup h a n :
  heap_ok h -> h !! a = Some n -> NoDup (map snd (children n)).
Proof.
  intros Hok Hn. destruct (Hok _ _ Hn) as (_ & Hnd & _).
  pose proof (child_key_unique h a n) as Hinj.
  specialize (fun k k' c => Hinj k k' c Hok Hn).
  induction (children n) as [|[k c] r IH]; cbn in *; [constructor|].
  apply NoDup_cons in Hnd as [Hnotin Hnd]. apply NoDup_cons. split.
  - intros Hc. apply list_elem_of_In, in_map_iff in Hc as ([k' c'] & Heq & Hin).
    cbn in Heq. subst c'. apply Hnotin.
    rewrite (Hinj k k' c); [|by left|by right].
    apply list_elem_of_In, in_map_iff. by exists (k', c).
  - apply IH; [done|]. intros k1 k2 c' H1 H2. apply (Hinj k1 k2 c'); by right.
Qed.

Lemma count_nodes_frame h h' : forall f a,
  (forall b, attached h a b ->
     exists n n', h !! b = Some n /\ h' !! b = Some n'
                  /\ children n' = children n
                  /\ is_directory n' = is_directory n) ->
  count_nodes h' f a = count_nodes h f a.
Proof.
  induction f as [|f IH]; intros a Hsame; [done|].
  destruct (Hsame a (attached_root _ _)) as (n & n' & Hn & Hn' & Hc & Hd).
  rewrite !count_nodes_eq, Hn, Hn', Hc, Hd. destruct (is_directory n); [|done].
  apply count_children_ext. intros k c Hin. apply IH.
  intros b Hb. apply Hsame. by eapply attached_prepend.
Qed.

Lemma count_children_shift f f' cs x d1 d2 :
  NoDup (map snd cs) -> In x (map snd cs) ->
  (forall k y v, In (k, y) cs -> f y = Some v ->
     f' y = Some (if decide (y = x) then (fst v + d1, snd v + d2) else v)) ->
  forall F D v, count_children f cs F D = Some v ->
    count_children f' cs F D = Some (fst v + d1, snd v + d2).
Proof.
  induction cs as [|[k y] r IH]; intros Hnd Hin Hf F D v; cbn in *; [done|].
  apply NoDup_cons in Hnd as [Hnotin Hnd].
  destruct (f y) as [[cf cd]|] eqn:E; [|done].
  rewrite (Hf k y _ (or_introl eq_refl) E).
  destruct (decide (y = x)) as [->|Hne]; cbn.
  - intros H. rewrite count_children_acc in H.
    destruct (count_children f r 0 0) as [[a b]|] eqn:Hr; [|done].
    rewrite count_children_acc.
    rewrite (count_children_weaken f f' r) with (v := (a, b)); [| |done].
    + cbn in *. injection H as <-. cbn. do 2 f_equal; lia.
    + intros k' y' v' Hin' Hy'.
      rewrite (Hf k' y' v' (or_intror Hin') Hy').
      destruct (decide (y' = x)) as [->|]; [|done].
      destruct Hnotin. apply list_elem_of_In, in_map_iff. by exists (k', x).
  - destruct Hin as [?|Hin]; [done|].
    apply IH; [done|done|]. intros k' y' v' Hin'. apply (Hf k'). by right.
Qed.

Lemma count_nodes_shift h h' c d1 d2 :
  heap_ok h ->
  (forall b n, b <> c -> h !! b = Some n -> h' !! b = Some n) ->
  (forall f v, count_nodes h f c = Some v ->
     count_nodes h' (S f) c = Some (fst v + d1, snd v + d2)) ->
  forall f a v, attached h a c -> count_nodes h f a = Some v ->
    count_nodes h' (S f) a = Some (fst v + d1, snd v + d2).
Proof.
  intros Hok Hother Hc. induction f as [|f IH]; intros a v Hatt; [done|].
  destruct (decide (a = c)) as [->|Hne]; [apply Hc|].
  destruct (attached_first _ _ _ Hatt) as [?|(n & k & x & Hn & Hin & Hx)];
    [done|].
  rewrite (count_nodes_eq h f a), (count_nodes_eq h' (S f) a), Hn,
    (Hother _ _ Hne Hn).
  destruct (Hok _ _ Hn) as (Hfile & _ & Hch).
  destruct (is_directory n) eqn:Hd; [|by rewrite Hfile in Hin].
  apply (count_children_shift _ _ _ x).
  - by eapply children_addresses_NoDup.
  - apply in_map_iff. by exists (k, x).
  - intros k' y vy Hin' Hy. destruct (decide (y = x)) as [->|Hyx].
    + by apply IH.
    + apply count_nodes_mono. rewrite <- Hy. apply count_nodes_frame.
      intros b Hb.
      assert (b <> c) as Hbc.
      { intros ->. apply Hyx. symmetry. by eapply attached_sibling. }
      destruct (Hch _ _ Hin') as (_ & _ & m & Hm & _).
      destruct (attached_exists h y b Hok) as [nb Hnb]; [by eexists|done|].
      exists nb, nb. by rewrite (Hother _ _ Hbc Hnb).
Qed.

Lemma count_nodes_link h c cur k leaf :
  heap_ok h -> h !! c = Some cur -> is_directory cur = true ->
  children leaf = [] ->
  forall f v, count_nodes h f c = Some v ->
    count_nodes
      (<[c := set_children (children cur ++ [(k, length h)]) cur]>
         (h ++ [leaf])) (S f) c
    = Some (fst v + (if is_directory leaf then 0 else 1),
            snd v + (if is_directory leaf then 1 else 0)).
Proof.
  intros Hok Hc Hd Hleaf f v. pose proof (lookup_lt_Some _ _ _ Hc) as Hlt.
  destruct f as [|f]; [done|].
  rewrite (count_nodes_eq h f c), (count_nodes_eq _ (S f) c), Hc, Hd.
  rewrite list_lookup_insert_eq by (rewrite length_app; lia).
  cbn [is_directory set_children children]. rewrite Hd.
  intros H. rewrite count_children_app.
  assert (forall k' y vy, In (k', y) (children cur) ->
            count_nodes h f y = Some vy ->
            count_nodes
              (<[c := set_children (children cur ++ [(k, length h)]) cur]>
                 (h ++ [leaf])) (S f) y = Some vy) as Hw.
  { intros k' y vy Hin Hy. apply count_nodes_mono. rewrite <- Hy.
    apply count_nodes_frame. intros b Hb.
    destruct (Hok _ _ Hc) as (_ & _ & Hch).
    destruct (Hch _ _ Hin) as (Hcy & _ & m & Hm & _).
    pose proof (attached_le _ _ _ Hok Hb) as Hle.
    destruct (attached_exists h y b Hok) as [nb Hnb]; [by eexists|done|].
    exists nb, nb. split; [done|]. split; [|done].
    rewrite list_lookup_insert_ne, lookup_app_l by
      (first [lia|by eapply lookup_lt_Some]). done. }
  rewrite (count_children_weaken _ _ _ Hw _ _ _ H).
  destruct v as [F D]. cbn [count_children].
  rewrite count_nodes_eq, list_lookup_insert_ne, lookup_snoc by lia.
  rewrite Hleaf. destruct (is_directory leaf); cbn; do 2 f_equal; lia.
Qed.

Lemma count_children_del f f' k x cs :
  dict_get k cs = Some x ->
  (forall k' y v, In (k', y) (dict_del k cs) -> f y = Some v ->
     f' y = Some v) ->
  forall F D v, count_children f cs F D = Some v ->
    exists x1 x2,
      f x = Some (x1, x2)
      /\ count_children f' (dict_del k cs) F D = Some (fst v - x1, snd v - x2).
Proof.
  induction cs as [|[k0 y] r IH]; intros Hget Hf F D v; cbn in *; [done|].
  destruct (String.eqb k k0) eqn:E.
  - injection Hget as ->. destruct (f x) as [[x1 x2]|]; [|done].
    intros H. exists x1, x2. split; [done|].
    rewrite count_children_acc in H.
    destruct (count_children f r 0 0) as [[a b]|] eqn:Hr; [|done].
    rewrite count_children_acc.
    rewrite (count_children_weaken f f' r) with (v := (a, b)); [| |done].
    + cbn in *. injection H as <-. cbn. do 2 f_equal; lia.
    + done.
  - cbn in *. destruct (f y) as [[cf cd]|] eqn:Ey; [|done].
    rewrite (Hf k0 y _ (or_introl eq_refl) Ey).
    apply IH; [done|]. intros k' y' v' Hin'. apply (Hf k'). by right.
Qed.

Lemma count_nodes_unlink h c cur k x nd :
  heap_ok h -> h !! c = Some cur -> is_directory cur = true ->
  dict_get k (children cur) = Some x -> h !! x = Some nd ->
  children nd = [] ->
  forall f v, count_nodes h f c = Some v ->
    count_nodes (<[c := set_children (dict_del k (children cur)) cur]> h)
      (S f) c
    = Some (fst v + (if is_directory nd then 0 else -1),
            snd v + (if is_directory nd then -1 else 0)).
Proof.
  intros Hok Hc Hd Hget Hx Hleaf f v.
  pose proof (lookup_lt_Some _ _ _ Hc) as Hlt.
  destruct f as [|f]; [done|].
  rewrite (count_nodes_eq h f c), (count_nodes_eq _ (S f) c), Hc, Hd.
  rewrite list_lookup_insert_eq by done.
  cbn [is_directory set_children children]. rewrite Hd. intros H.
  destruct (count_children_del (count_nodes h f)
              (count_nodes
                 (<[c := set_children (dict_del k (children cur)) cur]> h)
                 (S f)) k x (children cur) Hget) with (F := 0) (D := 0 + 1)
              (v := v) as (x1 & x2 & Hcx & ->); [|done|].
  - intros k' y vy Hin Hy. apply count_nodes_mono. rewrite <- Hy.
    apply count_nodes_frame. intros b Hb.
    destruct (Hok _ _ Hc) as (_ & _ & Hch).
    destruct (Hch _ _ (dict_del_In _ _ _ _ Hin)) as (Hcy & _ & m & Hm & _).
    pose proof (attached_le _ _ _ Hok Hb) as Hle.
    destruct (attached_exists h y b Hok) as [nb Hnb]; [by eexists|done|].
    exists nb, nb. split; [done|]. split; [|done].
    by rewrite list_lookup_insert_ne by lia.
  - destruct f as [|f]; [done|].
    rewrite count_nodes_eq, Hx, Hleaf in Hcx.
    destruct (is_directory nd); cbn in Hcx; injection Hcx as <- <-;
      do 2 f_equal; lia.
Qed.

Lemma count_nodes_touch h a n n' f r :
  heap_ok h -> h !! a = Some n -> children n' = children n ->
  is_directory n' = is_directory n -> is_Some (h !! r) ->
  count_nodes (<[a := n']> h) f r = count_nodes h f r.
Proof.
  intros Hok Ha Hc Hd Hr. apply count_nodes_frame. intros b Hb.
  destruct (attached_exists h r b Hok Hr Hb) as [nb Hnb].
  destruct (decide (b = a)) as [->|Hne].
  - exists n, n'. rewrite list_lookup_insert_eq by (by eapply lookup_lt_Some).
    split; [congruence|done].
  - exists nb, nb. by rewrite list_lookup_insert_ne.
Qed.


Lemma counters_match_link fs cur k leaf st :
  wf fs -> attached (heap fs) (root fs) (current_directory fs) ->
  heap fs !! current_directory fs = Some cur -> is_directory cur = true ->
  children leaf = [] ->
  forall files dirs,
    count_nodes (heap fs) (depth_bound (heap fs)) (root fs)
    = Some (files, dirs) ->
    count_nodes
      (<[current_directory fs :=
           set_children (children cur ++ [(k, length (heap fs))]) cur]>
         (heap fs ++ [leaf]))
      (depth_bound
         (<[current_directory fs := st]> (heap fs ++ [leaf])))
      (root fs)
    = Some (files + (if is_directory leaf then 0 else 1),
            dirs + (if is_directory leaf then 1 else 0)).
Proof.
  intros Hwf Hatt Hcur Hd Hleaf files dirs Hcount.
  pose proof (so_children _ _ (wf_store _ Hwf)) as Hok.
  assert (depth_bound (<[current_directory fs := st]> (heap fs ++ [leaf]))
          = S (depth_bound (heap fs))) as ->.
  { unfold depth_bound. rewrite length_insert, length_app. cbn. lia. }
  apply (count_nodes_shift (heap fs) _ (current_directory fs) _ _ Hok)
    with (v := (files, dirs)); [| |done|done].
  - intros b n Hne Hb.
    rewrite list_lookup_insert_ne, lookup_app_l by
      (first [done|by eapply lookup_lt_Some]). done.
  - by apply count_nodes_link.
Qed.

Lemma counters_match_touch fs a n n' files dirs :
  wf fs -> heap fs !! a = Some n -> children n' = children n ->
  is_directory n' = is_directory n ->
  count_nodes (heap fs) (depth_bound (heap fs)) (root fs)
  = Some (files, dirs) ->
  count_nodes (<[a := n']> (heap fs))
    (depth_bound (<[a := n']> (heap fs))) (root fs)
  = Some (files, dirs).
Proof.
  intros Hwf Ha Hc Hd Hcount.
  assert (depth_bound (<[a := n']> (heap fs)) = depth_bound (heap fs)) as ->.
  { unfold depth_bound. by rewrite length_insert. }
  rewrite <- Hcount. apply (count_nodes_touch _ _ n); [apply Hwf|done..|].
  destruct (so_root _ _ (wf_store _ Hwf)) as (rn & Hrn & _). by eexists.
Qed.

Lemma create_file_counters filename text fs r fs' :
  reachable fs -> counters_match fs ->
  create_file filename text fs = Some (r, fs') -> counters_match fs'.
Proof.
  intros Hre (files & dirs & Hcount & Hf & Hd) H. destruct r as [[] msg].
  - destruct (create_file_exact _ _ _ _ _ H)
      as (cur & Hcur & _ & Hdir & _ & Hh & Hr & _ & Hst & _).
    eexists _, _. rewrite Hh, Hr, Hst. split.
    + apply (counters_match_link fs cur); try done.
      * by apply reachable_wf.
      * by apply cursor_attached.
    + cbn. lia.
  - rewrite (create_file_failed _ _ _ _ _ H). by exists files, dirs.
Qed.

Lemma read_file_counters filename fs r fs' :
  reachable fs -> counters_match fs ->
  read_file filename fs = Some (r, fs') -> counters_match fs'.
Proof.
  intros Hre (files & dirs & Hcount & Hf & Hd) H. destruct r as [[[] msg] res].
  - destruct (read_file_exact _ _ _ _ _ H)
      as (cur & a & nd & _ & _ & _ & Hnd & _ & _ & Hh & Hr & _ & Hst & _).
    exists files, dirs. rewrite Hh, Hr, Hst. split; [|done].
    apply (counters_match_touch fs a nd); try done. by apply reachable_wf.
  - rewrite (read_file_failed _ _ _ _ _ H). by exists files, dirs.
Qed.

Lemma reachable_counters fs : reachable fs -> counters_match fs.
Proof.
  induction 1 as [t0 fs Hinit|o fs fs' Hre IH Hstep].
  - destruct (FileSystem_init_exact Absent t0 (or_introl eq_refl))
      as (fs0 & r & H0 & Hh & Hr & _ & _ & Hd & _ & Hc & _ & _ & _ & _ & Hst & _).
    assert (fs0 = fs) as -> by congruence.
    exists 0, 1. rewrite Hh, Hr, Hst. split; [|done].
    unfold depth_bound. cbn [length]. rewrite count_nodes_eq. cbn.
    by rewrite Hd, Hc.
  - pose proof (reachable_wf _ Hre) as Hwf.
    pose proof (reachable_step _ _ _ Hre Hstep) as Hre'.
    pose proof (reachable_wf _ Hre') as Hwf'.
    revert Hstep.
    destruct o as [f c|f|f c|f|d|p|s d]; cbn; unfold ignore, bind, ret.
    + destruct (create_file f c fs) as [[r fs1]|] eqn:H; [|done].
      intros [= <-]. exact (create_file_counters _ _ _ _ _ Hre IH H).
    + destruct (read_file f fs) as [[r fs1]|] eqn:H; [|done].
      intros [= <-]. exact (read_file_counters _ _ _ _ Hre IH H).
    + destruct IH as (files & dirs & Hcount & Hf & Hd).
      destruct (update_file f c fs) as [[[[] m] fs1]|] eqn:H; [| |done];
        intros [= <-].
      * destruct (update_file_exact _ _ _ _ _ H)
          as (cur & a & nd & _ & _ & _ & Hnd & _ & Hh & Hr & _ & Hst & _).
        exists files, dirs. rewrite Hh, Hr, Hst. split; [|done].
        by apply (counters_match_touch fs a nd).
      * rewrite (update_file_failed _ _ _ _ _ H). by exists files, dirs.
    + destruct IH as (files & dirs & Hcount & Hf & Hd).
      destruct (delete_file f fs) as [[[[] m] fs1]|] eqn:H; [| |done];
        intros [= <-].
      * destruct (delete_file_exact _ _ _ _ H)
          as (cur & a & nd & Hcur & Hdir & Hget & Hnd & Hempty & Hh & Hr & _
              & Hst & _).
        pose proof (so_children _ _ (wf_store _ Hwf)) as Hok.
        assert (children nd = []) as Hleaf.
        { destruct (is_directory nd) eqn:E; [by apply Hempty|].
          by destruct (Hok _ _ Hnd) as (Hfile & _); apply Hfile. }
        pose proof (count_nodes_shift (heap fs) (heap fs1)
                      (current_directory fs)
                      (if is_directory nd then 0 else -1)
                      (if is_directory nd then -1 else 0) Hok) as Hshift.
        rewrite Hh in Hshift.
        specialize (Hshift
          (fun b n Hne Hb =>
             eq_trans (list_lookup_insert_ne _ _ _ _
                         (not_eq_sym Hne)) Hb)
          (count_nodes_unlink _ _ _ _ _ _ Hok Hcur Hdir Hget Hnd Hleaf)
          _ _ _ (cursor_attached _ Hre) Hcount).
        rewrite <- Hh in Hshift.
        destruct (so_root _ _ (wf_store _ Hwf')) as (rn & Hrn & _).
        destruct (count_nodes_Some (heap fs1) (so_children _ _ (wf_store _ Hwf'))
                    (depth_bound (heap fs1)) _ _ Hrn) as [[files' dirs'] Hc'].
        { unfold depth_bound. lia. }
        exists files', dirs'. split; [done|].
        assert (depth_bound (heap fs1) = depth_bound (heap fs)) as Hdb.
        { unfold depth_bound. by rewrite Hh, length_insert. }
        rewrite Hdb, Hr in Hc'. apply count_nodes_mono in Hc'.
        rewrite Hc' in Hshift. injection Hshift as -> ->.
        rewrite Hst. cbn in *. destruct (is_directory nd); cbn; lia.
      * rewrite (delete_file_failed _ _ _ _ H). by exists files, dirs.
    + destruct IH as (files & dirs & Hcount & Hf & Hd).
      destruct (create_directory d fs) as [[[[] m] fs1]|] eqn:H; [| |done];
        intros [= <-].
      * destruct (create_directory_exact _ _ _ _ H)
          as (cur & Hcur & _ & Hdir & _ & Hh & Hr & _ & Hst & _).
        eexists _, _. rewrite Hh, Hr, Hst. split.
        -- apply (counters_match_link fs cur); try done.
           by apply cursor_attached.
        -- cbn. lia.
      * rewrite (create_directory_failed _ _ _ _ H). by exists files, dirs.
    + destruct IH as (files & dirs & Hcount & Hf & Hd).
      destruct (change_directory p fs) as [[[[] m] fs1]|] eqn:H; [| |done];
        intros [= <-].
      * destruct (change_directory_exact _ _ _ _ H)
          as (t & tn & full & _ & Htn & _ & Hh & Hr & _ & Hst & _).
        exists files, dirs. rewrite Hh, Hr, Hst. split; [|done].
        by apply (counters_match_touch fs t tn).
      * rewrite (change_directory_failed _ _ _ _ H). by exists files, dirs.
    + destruct (copy_file s d fs) as [[[ok m] fs1]|] eqn:H; [|done].
      intros [= <-].
      destruct (copy_file_inv _ _ _ _ _ _ H)
        as (rok & rmsg & rres & fs2 & Hread & Hcase).
      pose proof (read_file_counters _ _ _ _ Hre IH Hread) as IH2.
      destruct rok.
      * destruct Hcase as (text & cmsg & -> & Hcreate).
        eapply create_file_counters; [|done|done].
        apply (reachable_step (ReadFile s) fs); [done|].
        cbn. unfold ignore, bind. by rewrite Hread.
      * by destruct Hcase as [_ ->].
Qed.

Lemma count_children_ge (f : nat -> option (Z * Z)) cs :
  (forall k c v, In (k, c) cs -> f c = Some v -> 0 <= fst v /\ 0 <= snd v) ->
  forall F D v, count_children f cs F D = Some v -> F <= fst v /\ D <= snd v.
Proof.
  induction cs as [|[k c] r IH]; intros Hf F D v; cbn.
  - intros [= <-]. cbn. lia.
  - destruct (f c) as [[cf cd]|] eqn:E; [|done]. intros H.
    destruct (Hf k c _ (or_introl eq_refl) E) as [H1 H2]. cbn in H1, H2.
    apply IH in H; [lia|]. intros k' c' v' Hin. apply (Hf k'). by right.
Qed.

Lemma count_nodes_ge h f : forall a v,
  count_nodes h f a = Some v -> 0 <= fst v /\ 0 <= snd v.
Proof.
  induction f as [|f IH]; intros a v; [done|].
  rewrite count_nodes_eq. destruct (h !! a) as [n|]; [|done].
  destruct (is_directory n).
  - intros H. apply count_children_ge in H; [lia|].
    intros k c v' _. apply IH.
  - intros [= <-]. cbn. lia.
Qed.

Lemma count_children_files (f : nat -> option (Z * Z))
    (g : nat -> option (list nat)) cs :
  (forall k c v l, In (k, c) cs -> f c = Some v -> g c = Some l ->
     fst v = Z.of_nat (length l)) ->
  forall F D v l,
    count_children f cs F D = Some v -> concat_children g cs = Some l ->
    fst v = F + Z.of_nat (length l).
Proof.
  induction cs as [|[k c] r IH]; intros Hfg F D v l; cbn.
  - intros [= <-] [= <-]. cbn. lia.
  - destruct (f c) as [[cf cd]|] eqn:E; [|done].
    destruct (g c) as [lc|] eqn:G; [|done].
    destruct (concat_children g r) as [lr|] eqn:R; [|done].
    intros H [= <-].
    pose proof (Hfg k c _ _ (or_introl eq_refl) E G) as Hc. cbn in Hc.
    rewrite (IH (fun k' c' v' l' Hin => Hfg k' c' v' l' (or_intror Hin))
               _ _ _ _ H eq_refl).
    rewrite length_app. lia.
Qed.

Lemma count_nodes_files h f : forall a v l,
  count_nodes h f a = Some v -> files_below h f a = Some l ->
  fst v = Z.of_nat (length l).
Proof.
  induction f as [|f IH]; intros a v l; [done|].
  rewrite count_nodes_eq. cbn [files_below].
  destruct (h !! a) as [n|]; [|done]. destruct (is_directory n).
  - intros H1 H2.
    rewrite (count_children_files _ (files_below h f) _
               (fun k c v' l' _ => IH c v' l') _ _ _ _ H1 H2). lia.
  - by intros [= <-] [= <-].
Qed.

Lemma get_disk_stats_run fs :
  metadata_ok fs ->
  get_disk_stats fs = Some (mkDiskStats 1000 0 1000 512, fs).
Proof.
  intros (c & l & Hmd). unfold get_disk_stats, metadata_int. run.
  repeat (rewrite Hmd; cbn). reflexivity.
Qed.

Lemma get_system_stats_run fs :
  reachable fs ->
  exists files dirs path total,
    count_nodes (heap fs) (depth_bound (heap fs)) (root fs)
    = Some (files, dirs)
    /\ files = files_created (stats fs) - files_deleted (stats fs)
    /\ dirs - 1
       = directories_created (stats fs) - directories_deleted (stats fs)
    /\ get_current_directory fs = Some (path, fs)
    /\ get_size_recursive (heap fs) (depth_bound (heap fs)) (root fs)
       = Some total
    /\ get_system_stats fs
       = Some (mkSystemStats path files (dirs - 1) total (stats fs)
                 (mkDiskStats 1000 0 1000 512), fs).
Proof.
  intros Hre. pose proof (reachable_wf _ Hre) as Hwf.
  destruct (reachable_counters _ Hre) as (files & dirs & Hcount & Hf & Hd).
  destruct (wf_cursor _ Hwf) as (cn & Hcn & _).
  destruct (so_root _ _ (wf_store _ Hwf)) as (rn & Hrn & _ & Hrd & _).
  destruct (get_full_path_Some (heap fs) (so_parents _ _ (wf_store _ Hwf))
              (depth_bound (heap fs)) _ _ Hcn) as [path Hpath].
  { unfold depth_bound. apply lookup_lt_Some in Hcn. lia. }
  destruct (get_size_recursive_Some (heap fs) (so_children _ _ (wf_store _ Hwf))
              (depth_bound (heap fs)) _ _ Hrn) as [total Htotal].
  { unfold depth_bound. lia. }
  assert (1 <= dirs) as Hpos.
  { unfold depth_bound in Hcount. rewrite count_nodes_eq, Hrn, Hrd in Hcount.
    apply count_children_ge in Hcount; [cbn in Hcount; lia|].
    intros k c v _. apply count_nodes_ge. }
  exists files, dirs, path, total.
  split; [done|]. split; [done|]. split; [done|].
  assert (get_current_directory fs = Some (path, fs)) as Hcwd.
  { unfold get_current_directory. run. by rewrite Hpath. }
  split; [done|]. split; [done|].
  destruct (reachable_metadata _ Hre) as (c & l & Hmd).
  unfold get_system_stats, get_current_directory, get_disk_stats,
    metadata_int. run.
  rewrite Hcount. cbn. rewrite Hpath. cbn. rewrite Htotal. cbn.
  repeat (rewrite Hmd; cbn).
  by rewrite Z.max_r by lia.
Qed.

(** X20: in every state reached from a fresh engine [get_system_stats]
    returns, leaves the engine as it was, and describes the tree: its
    number of files is the number of files under the root, its total size
    is the sum of their stored sizes, its current directory is what
    [get_current_directory] returns, its counters are the counters of the
    engine and its disk entry is what [get_disk_stats] returns. *)
Theorem system_stats_describe_tree fs :
  reachable fs ->
  exists st files,
    get_system_stats fs = Some (st, fs)
    /\ files_below (heap fs) (depth_bound (heap fs)) (root fs) = Some files
    /\ sys_total_files st = Z.of_nat (length files)
    /\ sys_total_size_bytes st = sum_of_sizes (heap fs) files
    /\ get_current_directory fs = Some (sys_current_directory st, fs)
    /\ sys_operations st = stats fs
    /\ get_disk_stats fs = Some (sys_disk st, fs).
Proof.
  intros Hre.
  destruct (get_system_stats_run fs Hre)
    as (files & dirs & path & total & Hcount & _ & _ & Hcwd & Htotal & Hrun).
  pose proof (get_size_recursive_files (heap fs) (depth_bound (heap fs))
                (root fs)) as Hfiles.
  rewrite Htotal in Hfiles.
  destruct (files_below (heap fs) (depth_bound (heap fs)) (root fs))
    as [l|] eqn:Hl; [|done].
  injection Hfiles as ->.
  eexists _, l. split; [exact Hrun|]. cbn.
  split; [done|]. split; [by apply (count_nodes_files _ _ _ _ _ Hcount Hl)|].
  split; [done|]. split; [done|]. split; [done|].
  apply get_disk_stats_run. by apply reachable_metadata.
Qed.

(** X21: the statistics agree with the counters: in every state reached
    from a fresh engine, the number of files that [get_system_stats] counts
    in the tree is [files_created - files_deleted], and the number of
    directories it reports (the root is not counted) is
    [directories_created - directories_deleted]. *)
Theorem system_stats_match_counters fs :
  reachable fs ->
  exists st,
    get_system_stats fs = Some (st, fs)
    /\ sys_total_files st
       = files_created (stats fs) - files_deleted (stats fs)
    /\ sys_total_directories st
       = directories_created (stats fs) - directories_deleted (stats fs).
Proof.
  intros Hre.
  destruct (get_system_stats_run fs Hre)
    as (files & dirs & path & total & _ & Hf & Hd & _ & _ & Hrun).
  eexists. split; [exact Hrun|]. by cbn.
Qed.


(** *** Searching the tree *)

Lemma search_recursive_eq h pattern sc fuel a results :
  search_recursive h pattern sc (S fuel) a results =
  match h !! a with
  | None => None
  | Some n =>
      match (if PyStr.contains_str (PyStr.lower pattern)
                  (PyStr.lower (name n))
             then append_hit h a
                    (if is_directory n then "directory" else "file")
                    "name" results
             else Some results) with
      | None => None
      | Some results1 =>
          match (if sc && negb (is_directory n)
                 then if PyStr.contains_str (PyStr.lower pattern)
                           (PyStr.lower (content n))
                      then append_hit h a "file" "content" results1
                      else Some results1
                 else Some results1) with
          | None => None
          | Some results2 =>
              if is_directory n
              then search_children (search_recursive h pattern sc fuel)
                     (children n) results2
              else Some results2
          end
      end
  end.
Proof. reflexivity. Qed.

Lemma search_children_spec h pattern sc
    (f : nat -> list SearchHit -> option (list SearchHit)) cs :
  (forall k c results results',
     In (k, c) cs -> f c results = Some results' ->
     exists hits,
       results' = results ++ hits
       /\ forall hit, In hit hits <->
            exists b, attached h c b /\ hit_at h pattern sc b hit) ->
  forall results results',
    search_children f cs results = Some results' ->
    exists hits,
      results' = results ++ hits
      /\ forall hit, In hit hits <->
           exists k c b, In (k, c) cs /\ attached h c b
                         /\ hit_at h pattern sc b hit.
Proof.
  induction cs as [|[k c] r IH]; intros Hf results results'; cbn.
  - intros [= <-]. exists []. rewrite app_nil_r. split; [done|].
    intros hit. split; [done|]. by intros (? & ? & ? & [] & _).
  - destruct (f c results) as [results1|] eqn:E; [|done]. intros H.
    destruct (Hf k c _ _ (or_introl eq_refl) E) as (hits1 & -> & H1).
    destruct (IH (fun k' c' rs rs' Hin => Hf k' c' rs rs' (or_intror Hin))
                _ _ H) as (hits2 & -> & H2).
    exists (hits1 ++ hits2). rewrite app_assoc. split; [done|].
    intros hit. rewrite in_app_iff, H1, H2. split.
    + intros [(b & Hb & Hhit)|(k' & c' & b & Hin & Hb & Hhit)].
      * exists k, c, b. by split; [left|].
      * exists k', c', b. by split; [right|].
    + intros (k' & c' & b & Hin & Hb & Hhit).
      destruct Hin as [Heq|Hin]; [injection Heq as <- <-|].
      * left. by exists b.
      * right. by exists k', c', b.
Qed.

Lemma own_hits h pattern sc a n results results1 results2 :
  h !! a = Some n ->
  (if PyStr.contains_str (PyStr.lower pattern) (PyStr.lower (name n))
   then append_hit h a (if is_directory n then "directory" else "file")
          "name" results
   else Some results) = Some results1 ->
  (if sc && negb (is_directory n)
   then if PyStr.contains_str (PyStr.lower pattern) (PyStr.lower (content n))
        then append_hit h a "file" "content" results1
        else Some results1
   else Some results1) = Some results2 ->
  exists own,
    results2 = results ++ own
    /\ forall hit, In hit own <-> hit_at h pattern sc a hit.
Proof.
  intros Hn E1 E2. unfold hit_at, append_hit in *.
  set (m1 := PyStr.contains_str (PyStr.lower pattern) (PyStr.lower (name n)))
    in *.
  set (m2 := PyStr.contains_str (PyStr.lower pattern)
               (PyStr.lower (content n))) in *.
  destruct (get_full_path h (depth_bound h) a) as [path|] eqn:Hpath.
  - exists ((if m1
             then [mkSearchHit path
                     (if is_directory n then "directory" else "file") "name"]
             else [])
            ++ (if sc && negb (is_directory n) && m2
                then [mkSearchHit path "file" "content"] else [])).
    split.
    + destruct m1; injection E1 as <-;
        (destruct (sc && negb (is_directory n)); [destruct m2|]);
        injection E2 as <-; cbn; by rewrite <- ?app_assoc, ?app_nil_r.
    + intros hit. rewrite in_app_iff. split.
      * intros [H|H].
        -- destruct m1 eqn:Hm1; [|done]. destruct H as [<-|[]].
           exists n, path. split; [done|]. split; [done|]. by left.
        -- destruct (sc && negb (is_directory n) && m2) eqn:Hc; [|done].
           destruct H as [<-|[]].
           apply andb_true_iff in Hc as [Hc Hm2].
           apply andb_true_iff in Hc as [-> Hd%negb_true_iff].
           exists n, path. split; [done|]. split; [done|]. by right.
      * intros (n' & path' & Hn' & Hp' & Hcase).
        assert (n' = n) as -> by congruence.
        assert (path' = path) as -> by congruence.
        destruct Hcase as [[Hm ->]|(-> & Hd & Hm & ->)].
        -- left. fold m1 in Hm. rewrite Hm. by left.
        -- right. fold m2 in Hm. rewrite Hd, Hm. by left.
  - exists []. split.
    + destruct m1; [done|]. injection E1 as <-.
      (destruct (sc && negb (is_directory n)); [destruct m2; [done|]|]);
        injection E2 as <-; by rewrite app_nil_r.
    + intros hit. split; [done|]. by intros (n' & path' & _ & Hp' & _).
Qed.

Lemma search_recursive_spec h pattern sc :
  heap_ok h ->
  forall fuel a results results',
    search_recursive h pattern sc fuel a results = Some results' ->
    exists hits,
      results' = results ++ hits
      /\ forall hit, In hit hits <->
           exists b, attached h a b /\ hit_at h pattern sc b hit.
Proof.
  intros Hok. induction fuel as [|fuel IH]; intros a results results'; [done|].
  rewrite search_recursive_eq.
  destruct (h !! a) as [n|] eqn:Hn; [|done].
  assert (forall b, attached h a b ->
            b = a \/ exists k c, In (k, c) (children n) /\ attached h c b)
    as Hdown.
  { intros b Hb. destruct (attached_first _ _ _ Hb)
      as [->|(n' & k & x & Hn' & Hin & Hx)]; [by left|].
    right. exists k, x. split; [congruence|done]. }
  set (own1 := if PyStr.contains_str (PyStr.lower pattern)
                    (PyStr.lower (name n)) then _ else _).
  destruct own1 as [results1|] eqn:E1; [|done]. subst own1.
  set (own2 := if sc && negb (is_directory n) then _ else _).
  destruct own2 as [results2|] eqn:E2; [|done]. subst own2.
  destruct (own_hits _ _ _ _ _ _ _ _ Hn E1 E2) as (own & -> & Hown).
  destruct (is_directory n) eqn:Hd.
  - intros H.
    destruct (search_children_spec h pattern sc _ _
                (fun k c rs rs' _ => IH c rs rs') _ _ H) as (hits & -> & Hhits).
    exists (own ++ hits). rewrite app_assoc. split; [done|].
    intros hit. rewrite in_app_iff, Hown, Hhits. split.
    + intros [Hhit|(k & c & b & Hin & Hb & Hhit)].
      * exists a. split; [constructor|done].
      * exists b. split; [by eapply attached_prepend|done].
    + intros (b & Hb & Hhit). destruct (Hdown b Hb) as [->|(k & c & Hin & Hc)].
      * by left.
      * right. by exists k, c, b.
  - intros [= <-]. exists own. split; [done|].
    intros hit. rewrite Hown. split.
    + intros Hhit. exists a. split; [constructor|done].
    + intros (b & Hb & Hhit). destruct (Hdown b Hb) as [->|(k & c & Hin & _)];
        [done|].
      destruct (Hok _ _ Hn) as (Hfile & _). by rewrite (Hfile Hd) in Hin.
Qed.





Lemma attached_path_resolves fs a path :
  wf fs -> attached (heap fs) (root fs) a ->
  get_full_path (heap fs) (depth_bound (heap fs)) a = Some path ->
  get_node_by_path path fs = Some (Some a, fs).
Proof.
  intros Hwf Hatt Hpath.
  destruct (decide (a = root fs)) as [->|Hne].
  - destruct (so_root _ _ (wf_store _ Hwf)) as (rn & Hrn & _ & _ & Hrp).
    unfold depth_bound in Hpath.
    rewrite get_full_path_eq, Hrn, Hrp in Hpath. by injection Hpath as <-.
  - destruct (full_path_resolves fs _ (wf_store _ Hwf) Hatt Hne _ _ Hpath)
      as (t & -> & Ht & Hwalk).
    assert (PyStr.startswith (String "/" t) "/" = true) as Hstart.
    { unfold PyStr.startswith. cbn [String.prefix].
      destruct (ascii_dec "/" "/"); [by destruct t|done]. }
    unfold get_node_by_path. rewrite Hstart.
    destruct t as [|c t]; [done|]. cbn [PyStr.nonempty negb orb String.eqb].
    rewrite Ascii.eqb_refl. run. exact Hwalk.
Qed.

(** X23: every result of [search_files] leads to what it found: its path
    resolves, by [_get_node_by_path], to an object of the kind the result
    states, whose name (match type [name]) or whose content, the object
    being a file (match type [content]), contains the pattern, letter case
    apart. *)
Theorem search_results_resolve pattern search_content fs hits fs' :
  reachable fs ->
  search_files pattern search_content fs = Some (hits, fs') ->
  forall hit, In hit hits ->
    exists a n,
      get_node_by_path (hit_path hit) fs = Some (Some a, fs)
      /\ heap fs !! a = Some n
      /\ hit_type hit = (if is_directory n then "directory" else "file")
      /\ ((hit_match_type hit = "name"
           /\ PyStr.contains_str (PyStr.lower pattern) (PyStr.lower (name n))
              = true)
          \/ (hit_match_type hit = "content" /\ is_directory n = false
              /\ PyStr.contains_str (PyStr.lower pattern)
                   (PyStr.lower (content n)) = true)).
Proof.
  intros Hwf%reachable_wf. pose proof (wf_store _ Hwf) as Hs.
  unfold search_files. run.
  destruct (search_recursive _ _ _ _ _ _) as [hits'|] eqn:Hhits; cbn; [|done].
  intros [= <- _] hit Hin.
  destruct (search_recursive_spec _ _ _ (so_children _ _ Hs) _ _ _ _ Hhits)
    as (hits'' & Heq & Hspec).
  cbn in Heq. subst hits''.
  apply Hspec in Hin as (a & Hatt & n & path & Hn & Hpath & Hcase).
  exists a, n.
  destruct Hcase as [[Hm ->]|(_ & Hd & Hm & ->)]; cbn.
  - split; [by apply attached_path_resolves|]. split; [done|].
    split; [done|]. by left.
  - split; [by apply attached_path_resolves|]. split; [done|].
    rewrite Hd. split; [done|]. by right.
Qed.


(** *** When the operations succeed *)

Lemma create_file_ok filename text fs cur r fs' :
  fst (validate_filename filename) = true ->
  heap fs !! current_directory fs = Some cur -> is_directory cur = true ->
  dict_mem filename (children cur) = false ->
  create_file filename text fs = Some (r, fs') -> fst r = true.
Proof.
  intros Hv Hcur Hd Hm. unfold create_file.
  destruct (validate_filename filename) as [[] emsg]; [|done]. cbn [negb].
  run. rewrite Hcur. cbn. rewrite Hd, Hm. cbn.
  repeat (rewrite ?lookup_snoc, ?insert_snoc; cbn).
  clear Hcur. destruct (_ !! current_directory fs); cbn; [|done].
  destruct (save_changes _) as [[[] fs2]|]; [|done]. by intros [= <- _].
Qed.

Lemma create_directory_ok dirname fs cur r fs' :
  fst (validate_filename dirname) = true ->
  heap fs !! current_directory fs = Some cur -> is_directory cur = true ->
  dict_mem dirname (children cur) = false ->
  create_directory dirname fs = Some (r, fs') -> fst r = true.
Proof.
  intros Hv Hcur Hd Hm. unfold create_directory.
  destruct (validate_filename dirname) as [[] emsg]; [|done]. cbn [negb].
  run. rewrite Hcur. cbn. rewrite Hd, Hm. cbn.
  clear Hcur. destruct (_ !! current_directory fs); cbn; [|done].
  destruct (save_changes _) as [[[] fs2]|]; [|done]. by intros [= <- _].
Qed.

(** X24: in every state reached from a fresh engine [create_file] and
    [create_directory] return, and they succeed exactly when the name
    passes the validation and the current directory has no entry of that
    name. *)
Theorem create_succeeds_iff_valid_and_absent filename text fs :
  reachable fs ->
  (exists ok msg fs',
     create_file filename text fs = Some ((ok, msg), fs')
     /\ (ok = true <->
         fst (validate_filename filename) = true
         /\ file_exists filename fs = Some (false, fs)))
  /\ (exists ok msg fs',
        create_directory filename fs = Some ((ok, msg), fs')
        /\ (ok = true <->
            fst (validate_filename filename) = true
            /\ file_exists filename fs = Some (false, fs))).
Proof.
  intros Hwf%reachable_wf. destruct (wf_cursor _ Hwf) as (cur & Hcur & Hd).
  assert (file_exists filename fs
          = Some (dict_mem filename (children cur), fs)) as Hfe.
  { unfold file_exists. run. by rewrite Hcur. }
  rewrite Hfe. split.
  - destruct (create_file_spec filename text fs Hwf)
      as (ok & msg & fs' & H & _ & _ & _ & Hcase).
    exists ok, msg, fs'. split; [done|]. split.
    + intros ->. destruct Hcase as (cur' & nd & Hcur' & Hm & Hv & _).
      split; [done|]. congruence.
    + intros [Hv [= Hm]].
      exact (create_file_ok _ _ _ _ _ _ Hv Hcur Hd Hm H).
  - destruct (create_directory_spec filename fs Hwf)
      as (ok & msg & fs' & H & _ & _ & _ & Hcase).
    exists ok, msg, fs'. split; [done|]. split.
    + intros ->. destruct Hcase as (cur' & nd & Hcur' & Hm & Hv & _).
      split; [done|]. congruence.
    + intros [Hv [= Hm]].
      exact (create_directory_ok _ _ _ _ _ Hv Hcur Hd Hm H).
Qed.

(** X25: in every state reached from a fresh engine [read_file] and
    [update_file] return, and they succeed exactly when the current
    directory has an entry of that name that is a file; a failed read
    returns no content. *)
Theorem read_and_update_succeed_on_files filename text fs :
  reachable fs ->
  exists cur okr msgr res fsr oku msgu fsu,
    heap fs !! current_directory fs = Some cur
    /\ read_file filename fs = Some ((okr, msgr, res), fsr)
    /\ update_file filename text fs = Some ((oku, msgu), fsu)
    /\ (okr = true <->
        exists a nd, dict_get filename (children cur) = Some a
                     /\ heap fs !! a = Some nd /\ is_directory nd = false)
    /\ (oku = true <->
        exists a nd, dict_get filename (children cur) = Some a
                     /\ heap fs !! a = Some nd /\ is_directory nd = false)
    /\ (okr = false -> res = None).
Proof.
  intros Hwf%reachable_wf. destruct (wf_cursor _ Hwf) as (cur & Hcur & Hd).
  destruct (read_file_spec filename fs cur Hwf Hcur)
    as (okr & msgr & res & fsr & Hr & _ & _ & _ & Hcr).
  destruct (update_file_spec filename text fs cur Hwf Hcur)
    as (oku & msgu & fsu & Hu & _ & _ & _ & Hcu).
  exists cur, okr, msgr, res, fsr, oku, msgu, fsu.
  split; [done|]. split; [done|]. split; [done|].
  destruct (dict_get filename (children cur)) as [a|] eqn:Hget.
  - destruct Hcr as (nd & Hnd & Hcr). destruct Hcu as (nd' & Hnd' & Hcu).
    assert (nd' = nd) as -> by congruence.
    destruct (is_directory nd) eqn:Hdir.
    + destruct Hcr as (-> & -> & _). destruct Hcu as (-> & _).
      split; [|split; [|done]].
      all: split; [done|]; intros (a' & nd' & [= <-] & Hn & Hf); congruence.
    + destruct Hcr as (-> & -> & _). destruct Hcu as (nd' & -> & _).
      split; [|split; [|done]].
      all: split; [|done]; intros _; by exists a, nd.
  - destruct Hcr as (-> & -> & _). destruct Hcu as (-> & _).
    split; [|split; [|done]].
    all: split; [done|]; by intros (a' & nd' & [= ] & _).
Qed.

(** X26: after a successful [update_file], reading the file gives the new
    text, and [get_file_info] reports a file whose size is the byte length
    of the new text. *)
Theorem read_after_update filename text fs msg fs' :
  reachable fs ->
  update_file filename text fs = Some ((true, msg), fs') ->
  (exists m fs'', read_file filename fs' = Some ((true, m, Some text), fs''))
  /\ exists m info,
       get_file_info filename fs' = Some ((true, m, Some info), fs')
       /\ info_type info = "file"
       /\ info_size info = PyStr.utf8_len text
       /\ info_size_recursive info = PyStr.utf8_len text.
Proof.
  intros Hre H.
  assert (reachable fs') as Hre'.
  { apply (reachable_step (UpdateFile filename text) fs); [done|].
    cbn. unfold ignore, bind. by rewrite H. }
  pose proof (reachable_wf _ Hre) as Hwf.
  pose proof (reachable_wf _ Hre') as Hwf'.
  destruct (update_file_exact _ _ _ _ _ H)
    as (cur & a & nd & Hcur & _ & Hget & Hnd & Hfile & Hh & _ & Hc & _).
  destruct (child_lookup _ _ _ _ Hwf Hcur Hget) as (_ & _ & _ & _ & Hlt).
  pose proof (lookup_lt_Some _ _ _ Hnd) as Hlta.
  assert (heap fs' !! current_directory fs' = Some cur) as Hcur'.
  { rewrite Hh, Hc, list_lookup_insert_ne by lia. done. }
  assert (heap fs' !! a
          = Some (set_access_count (access_count nd + 1)
                    (set_modified_at (clock (ticks fs))
                       (set_size (PyStr.utf8_len text)
                          (set_content text nd))))) as Hnd'.
  { rewrite Hh. by apply list_lookup_insert_eq. }
  split.
  - destruct (read_file_spec filename _ _ Hwf' Hcur')
      as (ok & m & res & fs2 & Hr & _ & _ & _ & Hcase).
    rewrite Hget in Hcase. destruct Hcase as (nd' & Hn & Hcase).
    rewrite Hnd' in Hn. injection Hn as <-. cbn in Hcase.
    rewrite Hfile in Hcase. destruct Hcase as (-> & -> & _). eauto.
  - pose proof (wf_store _ Hwf') as Hs.
    destruct (get_full_path_Some (heap fs') (so_parents _ _ Hs)
                (depth_bound (heap fs')) a _ Hnd') as [full Hfull].
    { unfold depth_bound. apply lookup_lt_Some in Hnd'. lia. }
    unfold get_file_info. run. rewrite Hcur'. cbn.
    unfold dict_mem. rewrite Hget. cbn. rewrite Hnd'. cbn.
    rewrite Hfull. cbn.
    assert (get_size_recursive (heap fs') (depth_bound (heap fs')) a
            = Some (PyStr.utf8_len text)) as ->.
    { unfold depth_bound, get_size_recursive.
      fold (get_size_recursive (heap fs') (length (heap fs'))).
      rewrite Hnd'. cbn. by rewrite Hfile. }
    cbn. rewrite Hfile. eexists _, _. split; [reflexivity|]. done.
Qed.

(** X27: in every state reached from a fresh engine [change_directory]
    returns, and it succeeds exactly when the path resolves to a
    directory, which is then the current directory. *)
Theorem change_directory_succeeds_on_directories path fs :
  reachable fs ->
  exists ok msg fs' r,
    change_directory path fs = Some ((ok, msg), fs')
    /\ get_node_by_path path fs = Some (r, fs)
    /\ (ok = true <->
        exists t tn, r = Some t /\ heap fs !! t = Some tn
                     /\ is_directory tn = true)
    /\ (ok = true -> r = Some (current_directory fs')).
Proof.
  intros Hwf%reachable_wf.
  destruct (get_node_by_path_spec fs path Hwf) as (r & Hr & _).
  destruct (change_directory_spec path fs Hwf) as (ok & msg & fs' & H & _).
  exists ok, msg, fs', r. split; [done|]. split; [done|]. split; [split|].
  - intros ->. destruct (change_directory_exact _ _ _ _ H)
      as (t & tn & full & Hpath & Htn & Hd & _).
    exists t, tn. split; [congruence|done].
  - intros (t & tn & -> & Htn & Hd).
    exact (change_directory_ok _ _ _ _ _ _ Hr Htn Hd H).
  - intros ->. destruct (change_directory_exact _ _ _ _ H)
      as (t & tn & full & Hpath & _ & _ & _ & _ & -> & _).
    congruence.
Qed.

End EngineFacts.

(** * The properties on the sample sessions *)
Module Checks.
#[local] Existing Instance logical_time.
Import Demo.

Lemma logical_time_roundtrip (d : datetime) :
  fromisoformat (isoformat d) = Some d.
Proof.
  cbn. rewrite NilEmpty.usu. cbn. f_equal. apply DecimalNat.Unsigned.of_to.
Qed.

Lemma fresh_reachable : reachable fresh.
Proof. apply (reachable_fresh 0). vm_compute. reflexivity. Qed.

Lemma with_docs_reachable : reachable with_docs.
Proof.
  apply (reachable_step (CreateDirectory "docs") fresh); [apply fresh_reachable|].
  vm_compute. reflexivity.
Qed.

Lemma in_docs_reachable : reachable in_docs.
Proof.
  apply (reachable_step (ChangeDirectory "docs") with_docs);
    [apply with_docs_reachable|].
  vm_compute. reflexivity.
Qed.

Lemma with_readme_reachable : reachable with_readme.
Proof.
  apply (reachable_step (CreateFile "readme.txt" "hello") in_docs);
    [apply in_docs_reachable|].
  vm_compute. reflexivity.
Qed.

Lemma back_at_root_reachable : reachable back_at_root.
Proof.
  apply (reachable_step (ChangeDirectory "..") with_readme);
    [apply with_readme_reachable|].
  vm_compute. reflexivity.
Qed.

Lemma save_load_roundtrip_witness :
  exists fs1 fs2,
    bind update_fat_from_tree (fun _ => save_disk) back_at_root = Some (true, fs1)
    /\ FileSystem_init (host_file fs1) 0 = Some fs2
    /\ isomorphic (heap back_at_root) (heap fs2) None None
         (root back_at_root) (root fs2).
Proof.
  apply (save_load_roundtrip back_at_root 0).
  - exact logical_time_roundtrip.
  - exact back_at_root_reachable.
Defined.

(** C3, at the input on which the code departs from it: the name ends in
    a space, the creation succeeds and the child is stored under that
    name. *)
Theorem create_file_keeps_trailing_space :
  PyStr.endswith "a " " " = true
  /\ validate_filename "a " = (true, EmptyString)
  /\ exists fs' r,
       create_file "a " EmptyString fresh
       = Some ((true, "Archivo 'a ' creado exitosamente"), fs')
       /\ heap fs' !! root fs' = Some r
       /\ keys (children r) = ["a "]
       /\ file_exists "a " fs' = Some (true, fs')
       /\ exists fs'',
            create_directory "a " fresh
            = Some ((true, "Directorio 'a ' creado exitosamente"), fs'').
Proof.
  split; [reflexivity|]. split; [reflexivity|].
  eexists _, _. split; [vm_compute; reflexivity|].
  split; [vm_compute; reflexivity|]. split; [reflexivity|].
  split; [reflexivity|]. eexists. vm_compute. reflexivity.
Qed.

(** C5 does not hold as stated: under [docs] there is one file of five
    bytes, and the [size] entry of the descriptor of [docs] is 0. *)
Lemma get_file_info_size_is_not_recursive :
  exists msg info files,
    get_file_info "docs" back_at_root = Some ((true, msg, Some info), back_at_root)
    /\ info_type info = "directory"
    /\ files_below (heap back_at_root) (depth_bound (heap back_at_root)) 1
       = Some files
    /\ sum_of_sizes (heap back_at_root) files = 5
    /\ info_size info = 0
    /\ info_size info <> sum_of_sizes (heap back_at_root) files.
Proof.
  eexists _, _, _. split; [vm_compute; reflexivity|].
  repeat (split; [vm_compute; reflexivity|]). vm_compute. discriminate.
Qed.

Lemma get_file_info_directory_witness :
  exists cur nd,
    heap back_at_root !! current_directory back_at_root = Some cur
    /\ dict_get "docs" (children cur) = Some 1%nat
    /\ heap back_at_root !! 1%nat = Some nd
    /\ is_directory nd = true
    /\ exists msg info files,
         get_file_info "docs" back_at_root
         = Some ((true, msg, Some info), back_at_root)
         /\ info_type info = "directory"
         /\ files_below (heap back_at_root) (depth_bound (heap back_at_root)) 1
            = Some files
         /\ info_size_recursive info = sum_of_sizes (heap back_at_root) files
         /\ info_size info = size nd.
Proof.
  eassert (heap back_at_root !! current_directory back_at_root = Some _) as H1
    by (vm_compute; reflexivity).
  match type of H1 with
  | _ = Some ?c =>
      assert (dict_get "docs" (children c) = Some 1%nat) as H2 by reflexivity
  end.
  eassert (heap back_at_root !! 1%nat = Some _) as H3
    by (vm_compute; reflexivity).
  match type of H3 with
  | _ = Some ?c => assert (is_directory c = true) as H4 by reflexivity
  end.
  eexists _, _. split; [exact H1|]. split; [exact H2|]. split; [exact H3|].
  split; [exact H4|].
  exact (get_file_info_directory back_at_root "docs" _ _ _
           back_at_root_reachable H1 H2 H3 H4).
Defined.

(** C2 does not hold as stated: the engine is in [/docs] and has created a
    directory; a new engine built from its snapshot is at [/], although
    [/docs] resolves in the rebuilt tree, and its counters are zero. *)
Lemma restart_forgets_cursor_and_counters :
  FileSystem_init (host_file in_docs) (ticks in_docs) = Some (restart in_docs)
  /\ get_current_directory in_docs = Some ("/docs", in_docs)
  /\ get_node_by_path "/docs" (restart in_docs)
     = Some (Some 1%nat, restart in_docs)
  /\ get_current_directory (restart in_docs) = Some ("/", restart in_docs)
  /\ directories_created (stats in_docs) = 1
  /\ stats (restart in_docs) = stats0.
Proof.
  split; [vm_compute; reflexivity|]. split; [vm_compute; reflexivity|].
  split; [vm_compute; reflexivity|]. split; [vm_compute; reflexivity|].
  split; vm_compute; reflexivity.
Qed.

Lemma snapshot_holds_graph_only_witness :
  (exists j md,
     node_to_dict (heap in_docs) (depth_bound (heap in_docs)) (root in_docs)
     = Some j
     /\ host_file in_docs_saved =
          Stored (JObj [("fat_table", JObj [("/", j)]); ("metadata", JObj md)]))
  /\ (forall c s,
        option_map (fun r => host_file (snd r))
          (save_changes (set_current_directory c (set_stats s in_docs)))
        = Some (host_file in_docs_saved))
  /\ current_directory (restart in_docs_saved) = root (restart in_docs_saved)
  /\ stats (restart in_docs_saved) = stats0.
Proof.
  assert (save_changes in_docs = Some (tt, in_docs_saved)) as H1
    by (vm_compute; reflexivity).
  assert (FileSystem_init (host_file in_docs_saved) (ticks in_docs_saved)
          = Some (restart in_docs_saved)) as H2
    by (vm_compute; reflexivity).
  exact (snapshot_holds_graph_only in_docs in_docs_saved (ticks in_docs_saved)
           (restart in_docs_saved) in_docs_reachable H1 H2).
Defined.

Lemma read_after_create_witness :
  exists msg fs1,
    create_file "readme.txt" "hello" in_docs = Some ((true, msg), fs1)
    /\ exists msg' fs2,
         read_file "readme.txt" fs1 = Some ((true, msg', Some "hello"), fs2).
Proof.
  eassert (create_file "readme.txt" "hello" in_docs = Some ((true, _), _)) as H
    by (vm_compute; reflexivity).
  eexists _, _. split; [exact H|].
  exact (read_after_create in_docs "readme.txt" "hello" _ _ in_docs_reachable H).
Defined.

Lemma update_file_idempotent_witness :
  exists cur nd,
    heap with_readme !! current_directory with_readme = Some cur
    /\ dict_get "readme.txt" (children cur) = Some 2%nat
    /\ heap with_readme !! 2%nat = Some nd
    /\ is_directory nd = false
    /\ exists msg1 fs1 msg2 fs2 nd1 nd2,
         update_file "readme.txt" "bye" with_readme = Some ((true, msg1), fs1)
         /\ update_file "readme.txt" "bye" fs1 = Some ((true, msg2), fs2)
         /\ heap fs1 !! 2%nat = Some nd1 /\ heap fs2 !! 2%nat = Some nd2
         /\ content nd1 = "bye" /\ size nd1 = PyStr.utf8_len "bye"
         /\ content nd2 = content nd1 /\ size nd2 = size nd1.
Proof.
  eassert (heap with_readme !! current_directory with_readme = Some _) as H1
    by (vm_compute; reflexivity).
  match type of H1 with
  | _ = Some ?c =>
      assert (dict_get "readme.txt" (children c) = Some 2%nat) as H2
        by reflexivity
  end.
  eassert (heap with_readme !! 2%nat = Some _) as H3
    by (vm_compute; reflexivity).
  match type of H3 with
  | _ = Some ?c => assert (is_directory c = false) as H4 by reflexivity
  end.
  eexists _, _. split; [exact H1|]. split; [exact H2|]. split; [exact H3|].
  split; [exact H4|].
  exact (update_file_idempotent with_readme "readme.txt" "bye" _ _ _
           with_readme_reachable H1 H2 H3 H4).
Defined.

Lemma delete_directory_iff_empty_witness :
  exists cur D,
    heap back_at_root !! current_directory back_at_root = Some cur
    /\ dict_get "docs" (children cur) = Some 1%nat
    /\ heap back_at_root !! 1%nat = Some D
    /\ is_directory D = true
    /\ exists ok msg fs',
         delete_file "docs" back_at_root = Some ((ok, msg), fs')
         /\ (ok = false <-> children D <> [])
         /\ (ok = false -> fs' = back_at_root)
         /\ (ok = true ->
             exists cur',
               heap fs' !! current_directory back_at_root = Some cur'
               /\ current_directory fs' = current_directory back_at_root
               /\ dict_get "docs" (children cur') = None
               /\ (forall k, ~ In (k, 1%nat) (children cur'))
               /\ (forall k c, In (k, c) (children cur') ->
                     In (k, c) (children cur))).
Proof.
  eassert (heap back_at_root !! current_directory back_at_root = Some _) as H1
    by (vm_compute; reflexivity).
  match type of H1 with
  | _ = Some ?c =>
      assert (dict_get "docs" (children c) = Some 1%nat) as H2 by reflexivity
  end.
  eassert (heap back_at_root !! 1%nat = Some _) as H3
    by (vm_compute; reflexivity).
  match type of H3 with
  | _ = Some ?c => assert (is_directory c = true) as H4 by reflexivity
  end.
  eexists _, _. split; [exact H1|]. split; [exact H2|]. split; [exact H3|].
  split; [exact H4|].
  exact (delete_directory_iff_empty back_at_root "docs" _ _ _
           back_at_root_reachable H1 H2 H3 H4).
Defined.

Lemma resolve_up_down_witness :
  get_node_by_path "docs/../docs" back_at_root
  = Some (Some 1%nat, back_at_root)
  /\ get_node_by_path "docs" back_at_root = Some (Some 1%nat, back_at_root)
  /\ walk [".."] (root back_at_root) back_at_root
     = Some (Some (root back_at_root), back_at_root)
  /\ get_node_by_path "/.." back_at_root
     = Some (Some (root back_at_root), back_at_root).
Proof.
  eassert (heap back_at_root !! current_directory back_at_root = Some _) as H1
    by (vm_compute; reflexivity).
  match type of H1 with
  | _ = Some ?c =>
      assert (dict_get "docs" (children c) = Some 1%nat) as H2 by reflexivity
  end.
  exact (resolve_up_down back_at_root "docs" _ _ back_at_root_reachable H1 H2).
Defined.

Lemma root_is_permanent_witness :
  root_ok (heap back_at_root) (root back_at_root)
  /\ one_root (heap back_at_root) (root back_at_root)
  /\ (forall o, exists fs',
        run_operation o back_at_root = Some (tt, fs')
        /\ root fs' = root back_at_root
        /\ root_ok (heap fs') (root fs') /\ one_root (heap fs') (root fs'))
  /\ (forall filename msg fs',
        delete_file filename back_at_root = Some ((true, msg), fs') ->
        exists cur d,
          heap back_at_root !! current_directory back_at_root = Some cur
          /\ dict_get filename (children cur) = Some d
          /\ d <> root back_at_root
          /\ heap fs' =
               <[current_directory back_at_root :=
                   set_children (dict_del filename (children cur)) cur]>
                 (heap back_at_root)).
Proof. exact (root_is_permanent back_at_root back_at_root_reachable). Defined.

Lemma file_exists_is_membership_witness :
  exists cur,
    heap back_at_root !! current_directory back_at_root = Some cur
    /\ exists b,
         file_exists "docs" back_at_root = Some (b, back_at_root)
         /\ (b = true <-> In "docs" (keys (children cur)))
         /\ (forall a nd, dict_get "docs" (children cur) = Some a ->
               heap back_at_root !! a = Some nd -> is_directory nd = true ->
               b = true).
Proof.
  eassert (heap back_at_root !! current_directory back_at_root = Some _) as H1
    by (vm_compute; reflexivity).
  eexists. split; [exact H1|].
  exact (file_exists_is_membership back_at_root "docs" _ H1).
Defined.


(** ** Further properties at sample sessions *)

Lemma failed_operation_changes_nothing_witness :
  (forall s d, DeleteFile "docs" <> CopyFile s d)
  /\ exists fs',
       flag_of (DeleteFile "docs") back_at_root = Some (false, fs')
       /\ fs' = back_at_root.
Proof.
  assert (forall s d, DeleteFile "docs" <> CopyFile s d) as H1 by discriminate.
  eassert (flag_of (DeleteFile "docs") back_at_root = Some (false, _)) as H2
    by (vm_compute; reflexivity).
  split; [exact H1|]. eexists. split; [exact H2|].
  exact (failed_operation_changes_nothing _ _ _ H1 H2).
Defined.

Lemma failed_copy_keeps_the_read_witness :
  exists msg fs',
    copy_file "readme.txt" "readme.txt" with_readme = Some ((false, msg), fs')
    /\ (fs' = with_readme
        \/ exists rmsg text cmsg a nd,
             read_file "readme.txt" with_readme
             = Some ((true, rmsg, Some text), fs')
             /\ create_file "readme.txt" text fs' = Some ((false, cmsg), fs')
             /\ heap with_readme !! a = Some nd
             /\ heap fs' =
                  <[a := set_access_count (access_count nd + 1) nd]>
                    (heap with_readme)
             /\ stats fs' = inc_total_operations (stats with_readme)).
Proof.
  eassert (copy_file "readme.txt" "readme.txt" with_readme
           = Some ((false, _), _)) as H
    by (vm_compute; reflexivity).
  eexists _, _. split; [exact H|].
  exact (failed_copy_keeps_the_read _ _ _ _ _ H).
Defined.


Lemma operation_keeps_identities_witness :
  exists fs',
    run_operation (DeleteFile "readme.txt") with_readme = Some (tt, fs')
    /\ evolves (heap with_readme) (heap fs').
Proof.
  eassert (run_operation (DeleteFile "readme.txt") with_readme
           = Some (tt, _)) as H
    by (vm_compute; reflexivity).
  eexists. split; [exact H|].
  exact (operation_keeps_identities _ _ _ H).
Defined.



Lemma only_change_directory_moves_the_cursor_witness :
  (forall path, CreateFile "notes.txt" "x" <> ChangeDirectory path)
  /\ exists fs',
       run_operation (CreateFile "notes.txt" "x") in_docs = Some (tt, fs')
       /\ current_directory fs' = current_directory in_docs.
Proof.
  assert (forall path, CreateFile "notes.txt" "x" <> ChangeDirectory path)
    as H1 by discriminate.
  eassert (run_operation (CreateFile "notes.txt" "x") in_docs
           = Some (tt, _)) as H2
    by (vm_compute; reflexivity).
  split; [exact H1|]. eexists. split; [exact H2|].
  exact (only_change_directory_moves_the_cursor _ _ _ H1 H2).
Defined.

Lemma invalid_character_is_rejected_witness :
  In "/"%char invalid_chars
  /\ PyStr.contains "/" "a/b" = true
  /\ fst (validate_filename "a/b") = false
  /\ (exists msg, create_file "a/b" "x" in_docs = Some ((false, msg), in_docs))
  /\ (exists msg, create_directory "a/b" in_docs = Some ((false, msg), in_docs)).
Proof.
  assert (In "/"%char invalid_chars) as H1 by (left; reflexivity).
  assert (PyStr.contains "/" "a/b" = true) as H2 by reflexivity.
  split; [exact H1|]. split; [exact H2|].
  exact (invalid_character_is_rejected "/" "a/b" "x" in_docs H1 H2).
Defined.

Lemma create_never_overwrites_witness :
  file_exists "docs" back_at_root = Some (true, back_at_root)
  /\ (exists msg,
        create_file "docs" "x" back_at_root = Some ((false, msg), back_at_root))
  /\ (exists msg,
        create_directory "docs" back_at_root
        = Some ((false, msg), back_at_root)).
Proof.
  assert (file_exists "docs" back_at_root = Some (true, back_at_root)) as H
    by (vm_compute; reflexivity).
  split; [exact H|].
  exact (create_never_overwrites "docs" "x" back_at_root _ H).
Defined.

Lemma deleted_name_is_gone_witness :
  exists msg fs',
    delete_file "readme.txt" with_readme = Some ((true, msg), fs')
    /\ file_exists "readme.txt" fs' = Some (false, fs')
    /\ (exists m, read_file "readme.txt" fs' = Some ((false, m, None), fs'))
    /\ forall other, other <> "readme.txt" ->
         exists b, file_exists other with_readme = Some (b, with_readme)
                   /\ file_exists other fs' = Some (b, fs').
Proof.
  eassert (delete_file "readme.txt" with_readme = Some ((true, _), _)) as H
    by (vm_compute; reflexivity).
  eexists _, _. split; [exact H|].
  exact (deleted_name_is_gone _ _ _ _ with_readme_reachable H).
Defined.

Lemma copy_gives_the_same_text_witness :
  exists msg fs',
    copy_file "readme.txt" "copy.txt" with_readme = Some ((true, msg), fs')
    /\ "readme.txt" <> "copy.txt"
    /\ exists text,
         (exists m fs1,
            read_file "readme.txt" with_readme
            = Some ((true, m, Some text), fs1))
         /\ (exists m fs2,
               read_file "copy.txt" fs' = Some ((true, m, Some text), fs2))
         /\ (exists m fs3,
               read_file "readme.txt" fs' = Some ((true, m, Some text), fs3)).
Proof.
  eassert (copy_file "readme.txt" "copy.txt" with_readme
           = Some ((true, _), _)) as H
    by (vm_compute; reflexivity).
  eexists _, _. split; [exact H|].
  exact (copy_gives_the_same_text _ _ _ _ _ with_readme_reachable H).
Defined.

Lemma change_directory_without_segments_witness :
  path_parts "//" = []
  /\ exists fs',
       change_directory "//" with_readme
       = Some ((true, "Directorio cambiado a '/'"), fs')
       /\ current_directory fs' = root with_readme.
Proof.
  assert (path_parts "//" = []) as H by reflexivity.
  split; [exact H|].
  exact (change_directory_without_segments "//" with_readme
           with_readme_reachable H).
Defined.


Lemma reachable_data_ok_witness :
  exists n, heap with_readme !! 2%nat = Some n /\ data_ok n.
Proof.
  eassert (heap with_readme !! 2%nat = Some _) as H
    by (vm_compute; reflexivity).
  eexists. split; [exact H|].
  exact (reachable_data_ok with_readme with_readme_reachable _ _ H).
Defined.

Lemma current_directory_stays_in_tree_witness :
  attached (heap with_readme) (root with_readme)
    (current_directory with_readme).
Proof.
  exact (current_directory_stays_in_tree with_readme with_readme_reachable).
Defined.

Lemma current_directory_path_resolves_witness :
  exists path,
    get_current_directory with_readme = Some (path, with_readme)
    /\ PyStr.startswith path "/" = true
    /\ get_node_by_path path with_readme
       = Some (Some (current_directory with_readme), with_readme)
    /\ exists msg fs',
         change_directory path with_readme = Some ((true, msg), fs')
         /\ current_directory fs' = current_directory with_readme.
Proof.
  exact (current_directory_path_resolves with_readme with_readme_reachable).
Defined.


Lemma list_directory_sorted_children_witness :
  exists ok msg items,
    list_directory (Some "/docs") back_at_root
    = Some ((ok, msg, items), back_at_root)
    /\ (ok = false -> items = [])
    /\ (ok = true ->
        exists t tn,
          list_target (Some "/docs") back_at_root
          = Some (Some t, back_at_root)
          /\ heap back_at_root !! t = Some tn /\ is_directory tn = true
          /\ Permutation (map item_name items) (keys (children tn))
          /\ StronglySorted (fun a b => String.ltb a b = true)
               (map item_name items)).
Proof.
  exact (list_directory_sorted_children (Some "/docs") back_at_root
           back_at_root_reachable).
Defined.

Lemma list_directory_agrees_with_get_file_info_witness :
  exists msg items fs',
    list_directory None back_at_root = Some ((true, msg, items), fs')
    /\ forall it, In it items ->
         exists m info,
           get_file_info (item_name it) back_at_root
           = Some ((true, m, Some info), back_at_root)
           /\ info_name info = item_name it
           /\ info_type info = item_type it
           /\ (if String.eqb (item_type it) "directory"
               then info_size_recursive info
               else info_size info) = item_size it
           /\ info_created info = item_created it
           /\ info_modified info = item_modified it
           /\ info_permissions info = item_permissions it
           /\ info_access_count info = item_access_count it.
Proof.
  eassert (list_directory None back_at_root = Some ((true, _, _), _)) as H
    by (vm_compute; reflexivity).
  eexists _, _, _. split; [exact H|].
  exact (list_directory_agrees_with_get_file_info back_at_root _ _ _
           back_at_root_reachable H).
Defined.

Lemma disk_stats_never_change_witness :
  get_disk_stats with_readme
  = Some (mkDiskStats 1000 0 1000 512, with_readme).
Proof.
  exact (disk_stats_never_change with_readme with_readme_reachable).
Defined.


Lemma system_stats_describe_tree_witness :
  exists st files,
    get_system_stats back_at_root = Some (st, back_at_root)
    /\ files_below (heap back_at_root) (depth_bound (heap back_at_root))
         (root back_at_root) = Some files
    /\ sys_total_files st = Z.of_nat (length files)
    /\ sys_total_size_bytes st = sum_of_sizes (heap back_at_root) files
    /\ get_current_directory back_at_root
       = Some (sys_current_directory st, back_at_root)
    /\ sys_operations st = stats back_at_root
    /\ get_disk_stats back_at_root = Some (sys_disk st, back_at_root).
Proof.
  exact (system_stats_describe_tree back_at_root back_at_root_reachable).
Defined.

Lemma system_stats_match_counters_witness :
  exists st,
    get_system_stats back_at_root = Some (st, back_at_root)
    /\ sys_total_files st
       = files_created (stats back_at_root)
         - files_deleted (stats back_at_root)
    /\ sys_total_directories st
       = directories_created (stats back_at_root)
         - directories_deleted (stats back_at_root).
Proof.
  exact (system_stats_match_counters back_at_root back_at_root_reachable).
Defined.


Lemma with_notes_reachable : reachable with_notes.
Proof.
  apply (reachable_step (ChangeDirectory "/")
           (exec (create_file "Notes.MD" "see README") with_readme)).
  - apply (reachable_step (CreateFile "Notes.MD" "see README") with_readme);
      [apply with_readme_reachable|].
    vm_compute. reflexivity.
  - vm_compute. reflexivity.
Qed.


Lemma search_results_resolve_witness :
  exists hits fs',
    search_files "README" true with_notes = Some (hits, fs')
    /\ length hits = 2%nat
    /\ forall hit, In hit hits ->
         exists a n,
           get_node_by_path (hit_path hit) with_notes
           = Some (Some a, with_notes)
           /\ heap with_notes !! a = Some n
           /\ hit_type hit = (if is_directory n then "directory" else "file")
           /\ ((hit_match_type hit = "name"
                /\ PyStr.contains_str (PyStr.lower "README")
                     (PyStr.lower (name n)) = true)
               \/ (hit_match_type hit = "content" /\ is_directory n = false
                   /\ PyStr.contains_str (PyStr.lower "README")
                        (PyStr.lower (content n)) = true)).
Proof.
  eassert (search_files "README" true with_notes = Some (_, _)) as H
    by (vm_compute; reflexivity).
  eexists _, _. split; [exact H|]. split; [reflexivity|].
  exact (search_results_resolve "README" true with_notes _ _
           with_notes_reachable H).
Defined.


Lemma create_succeeds_iff_valid_and_absent_witness :
  (exists ok msg fs',
     create_file "docs" "x" back_at_root = Some ((ok, msg), fs')
     /\ (ok = true <->
         fst (validate_filename "docs") = true
         /\ file_exists "docs" back_at_root = Some (false, back_at_root)))
  /\ (exists ok msg fs',
        create_directory "docs" back_at_root = Some ((ok, msg), fs')
        /\ (ok = true <->
            fst (validate_filename "docs") = true
            /\ file_exists "docs" back_at_root = Some (false, back_at_root))).
Proof.
  exact (create_succeeds_iff_valid_and_absent "docs" "x" back_at_root
           back_at_root_reachable).
Defined.

Lemma read_and_update_succeed_on_files_witness :
  exists cur okr msgr res fsr oku msgu fsu,
    heap with_readme !! current_directory with_readme = Some cur
    /\ read_file "readme.txt" with_readme = Some ((okr, msgr, res), fsr)
    /\ update_file "readme.txt" "bye" with_readme = Some ((oku, msgu), fsu)
    /\ (okr = true <->
        exists a nd, dict_get "readme.txt" (children cur) = Some a
                     /\ heap with_readme !! a = Some nd
                     /\ is_directory nd = false)
    /\ (oku = true <->
        exists a nd, dict_get "readme.txt" (children cur) = Some a
                     /\ heap with_readme !! a = Some nd
                     /\ is_directory nd = false)
    /\ (okr = false -> res = None).
Proof.
  exact (read_and_update_succeed_on_files "readme.txt" "bye" with_readme
           with_readme_reachable).
Defined.

Lemma read_after_update_witness :
  exists msg fs',
    update_file "readme.txt" "bye" with_readme = Some ((true, msg), fs')
    /\ (exists m fs'',
          read_file "readme.txt" fs' = Some ((true, m, Some "bye"), fs''))
    /\ exists m info,
         get_file_info "readme.txt" fs' = Some ((true, m, Some info), fs')
         /\ info_type info = "file"
         /\ info_size info = PyStr.utf8_len "bye"
         /\ info_size_recursive info = PyStr.utf8_len "bye".
Proof.
  eassert (update_file "readme.txt" "bye" with_readme
           = Some ((true, _), _)) as H
    by (vm_compute; reflexivity).
  eexists _, _. split; [exact H|].
  exact (read_after_update "readme.txt" "bye" with_readme _ _
           with_readme_reachable H).
Defined.

Lemma change_directory_succeeds_on_directories_witness :
  exists ok msg fs' r,
    change_directory "docs/readme.txt" back_at_root = Some ((ok, msg), fs')
    /\ get_node_by_path "docs/readme.txt" back_at_root
       = Some (r, back_at_root)
    /\ (ok = true <->
        exists t tn, r = Some t /\ heap back_at_root !! t = Some tn
                     /\ is_directory tn = true)
    /\ (ok = true -> r = Some (current_directory fs')).
Proof.
  exact (change_directory_succeeds_on_directories "docs/readme.txt"
           back_at_root back_at_root_reachable).
Defined.

End Checks.
